(** * Radarr MCP server: the tool handlers and the gateway client

    A shallow embedding of [radarr-mcp-server.py].  JSON payloads are
    values of [json]; a Python exception is the left summand of [res];
    the upstream service, the HTTP session, the clock and the two
    library renderings the program relies on ([str] of an interpreter
    error, [json.dumps]) are the fields of [runtime].  A handler is a
    function from the requests sent so far to its result and the
    requests sent afterwards, so that the calls a handler issues can be
    counted and compared.  A text is held as its UTF-8 bytes and read
    by characters wherever Python reads it so.

    Calls to [logger] have no effect on results and are left out.  The
    lazily created [session] object, which every request reuses, has no
    effect on results either; its life cycle ([get_session], [cleanup])
    is modelled on its own.  The thirteen tools and the two resources
    are embedded; [int], which movie_details applies to its argument,
    is taken as given. *)

From Stdlib Require Import ZArith QArith List String Ascii Bool Lia.
From Stdlib Require Import DecimalString Permutation Sorted.
Import ListNotations.
Close Scope Q_scope.
Open Scope Z_scope.
Open Scope string_scope.
Set Warnings "-register-all".

(* ===================================================================== *)
(** ** JSON values as Python sees them *)

(** What [response.json()] yields and what the handlers return.  A dict
    keeps its insertion order; [JFloat] stands for a finite float, held
    as the rational it denotes (the handlers compare numbers and pass
    them on, they never compute with them).  The tokens NaN and Infinity
    are no JSON and have no counterpart here. *)
Inductive json : Type :=
| JNull
| JBool (b : bool)
| JInt (n : Z)
| JFloat (q : Q)
| JStr (s : string)
| JList (l : list json)
| JDict (d : list (string * json)).

Definition type_name (v : json) : string :=
  match v with
  | JNull => "NoneType"
  | JBool _ => "bool"
  | JInt _ => "int"
  | JFloat _ => "float"
  | JStr _ => "str"
  | JList _ => "list"
  | JDict _ => "dict"
  end.

(** Exceptions the interpreter raises on its own, named by their cause. *)
Inductive pyerr : Type :=
| NoAttribute (ty attr : string)         (* AttributeError: x.get, x.sort *)
| NotSubscriptable (ty : string)         (* TypeError: x[i] on None or a number *)
| BadIndex (ty : string) (idx : json)    (* x["k"] on a list or str, d[:n] on a dict *)
| MissingKey (k : json)                  (* KeyError *)
| IndexOutOfRange (ty : string)          (* IndexError *)
| NotIterable (ty : string)              (* TypeError: for .. in x *)
| NoLen (ty : string)                    (* TypeError: len(x) *)
| Unsupported (op ty1 ty2 : string)      (* TypeError: x + y, x < y *)
| BadDateString (s : string)             (* ValueError from strptime *)
| DateOutOfRange.                        (* OverflowError from date arithmetic *)

(** Every exception below derives from Python's [Exception]. *)
Inductive exn : Type :=
| ClientError (msg : string)   (* aiohttp.ClientError, with its str *)
| Exception (msg : string)     (* Exception(msg) *)
| Foreign (msg : string)       (* another exception leaving the session *)
| Builtin (e : pyerr).

Definition res (A : Type) : Type := (exn + A)%type.

Definition ok {A} (a : A) : res A := inr a.
Definition raise {A} (e : exn) : res A := inl e.
Definition fail {A} (e : pyerr) : res A := inl (Builtin e).

Definition bind_res {A B} (m : res A) (k : A -> res B) : res B :=
  match m with
  | inl e => inl e
  | inr a => k a
  end.

Declare Scope res_scope.
Delimit Scope res_scope with res.
Notation "x <- m ;; k" := (bind_res m (fun x => k))
  (at level 61, m at next level, right associativity) : res_scope.

Fixpoint mapM {A B} (f : A -> res B) (l : list A) : res (list B) :=
  match l with
  | [] => ok []
  | a :: l' =>
      bind_res (f a) (fun b => bind_res (mapM f l') (fun bs => ok (b :: bs)))
  end.

Fixpoint filterM {A} (f : A -> res bool) (l : list A) : res (list A) :=
  match l with
  | [] => ok []
  | a :: l' =>
      bind_res (f a) (fun keep =>
      bind_res (filterM f l') (fun r => ok (if keep then a :: r else r)))
  end.

(* --------------------------------------------------------------------- *)
(** *** Dict access, subscripts, slices, truth *)

Fixpoint lookup (k : string) (d : list (string * json)) : option json :=
  match d with
  | [] => None
  | (k', v) :: d' => if String.eqb k k' then Some v else lookup k d'
  end.

(** [v.get(k, dflt)] *)
Definition get (v : json) (k : string) (dflt : json) : res json :=
  match v with
  | JDict d => ok (match lookup k d with Some x => x | None => dflt end)
  | _ => fail (NoAttribute (type_name v) "get")
  end.

(** [v.get(k)] *)
Definition get_ (v : json) (k : string) : res json := get v k JNull.

(** A [str] is held as its UTF-8 bytes, a lone surrogate as the three
    bytes the same scheme gives it.  Equality, order and concatenation
    of texts are those of their bytes; length, subscripts, slices and
    iteration go by characters.  A character is a byte that is no
    continuation byte, with the continuation bytes that follow it. *)
Definition continuation (c : ascii) : bool :=
  let n := nat_of_ascii c in ((128 <=? n) && (n <? 192))%nat.

(** The text goes on with a byte of the character before it. *)
Definition continues (s : string) : bool :=
  match s with
  | String c _ => continuation c
  | EmptyString => false
  end.

(** The characters of a text, in order. *)
Fixpoint characters (s : string) : list string :=
  match s with
  | EmptyString => []
  | String c s' =>
      match characters s' with
      | h :: t =>
          if continues s' then String c h :: t
          else String c EmptyString :: h :: t
      | [] => [String c EmptyString]
      end
  end.

(** The text made of the given characters. *)
Fixpoint join (l : list string) : string :=
  match l with
  | [] => EmptyString
  | c :: l' => c ++ join l'
  end.

(** [v[0]] *)
Definition first_item (v : json) : res json :=
  match v with
  | JList (x :: _) => ok x
  | JList [] => fail (IndexOutOfRange "list")
  | JStr s =>
      match characters s with
      | c :: _ => ok (JStr c)
      | [] => fail (IndexOutOfRange "str")
      end
  | JDict _ => fail (MissingKey (JInt 0))
  | _ => fail (NotSubscriptable (type_name v))
  end.

(** [v[k]] for a string [k] *)
Definition item (v : json) (k : string) : res json :=
  match v with
  | JDict d =>
      match lookup k d with
      | Some x => ok x
      | None => fail (MissingKey (JStr k))
      end
  | JList _ | JStr _ => fail (BadIndex (type_name v) (JStr k))
  | _ => fail (NotSubscriptable (type_name v))
  end.

(** [bool(v)] *)
Definition truthy (v : json) : bool :=
  match v with
  | JNull => false
  | JBool b => b
  | JInt n => negb (n =? 0)%Z
  | JFloat q => negb (Qeq_bool q (inject_Z 0))
  | JStr s => negb (String.eqb s EmptyString)
  | JList l => match l with [] => false | _ => true end
  | JDict d => match d with [] => false | _ => true end
  end.

(** [len(v)] *)
Definition py_len (v : json) : res nat :=
  match v with
  | JStr s => ok (List.length (characters s))
  | JList l => ok (List.length l)
  | JDict d => ok (List.length d)
  | _ => fail (NoLen (type_name v))
  end.

(** [v[:n]] *)
Definition slice_to (n : nat) (v : json) : res json :=
  match v with
  | JStr s => ok (JStr (join (firstn n (characters s))))
  | JList l => ok (JList (firstn n l))
  | JDict _ => fail (BadIndex "dict" JNull)
  | _ => fail (NotSubscriptable (type_name v))
  end.

(** [v + s] for a string literal [s] *)
Definition add_str (v : json) (s : string) : res json :=
  match v with
  | JStr a => ok (JStr (a ++ s))
  | _ => fail (Unsupported "+" (type_name v) "str")
  end.

(** The items a [for] loop or a comprehension draws from [v]. *)
Definition iter (v : json) : res (list json) :=
  match v with
  | JList l => ok l
  | JStr s => ok (map JStr (characters s))
  | JDict d => ok (map (fun kv => JStr (fst kv)) d)
  | _ => fail (NotIterable (type_name v))
  end.

(* --------------------------------------------------------------------- *)
(** *** Equality and order *)

(** The number a value counts as in a comparison ([True] is 1). *)
Definition num_val (v : json) : option Q :=
  match v with
  | JBool b => Some (inject_Z (Z.b2z b))
  | JInt n => Some (inject_Z n)
  | JFloat q => Some q
  | _ => None
  end.

(** [a == b] *)
Fixpoint py_eq (a b : json) {struct a} : bool :=
  match a, b with
  | JNull, JNull => true
  | JStr x, JStr y => String.eqb x y
  | JList x, JList y =>
      (fix all2 (l1 l2 : list json) : bool :=
         match l1, l2 with
         | [], [] => true
         | u :: l1', v :: l2' => py_eq u v && all2 l1' l2'
         | _, _ => false
         end) x y
  | JDict x, JDict y =>
      (List.length x =? List.length y)%nat &&
      (fix sub (d : list (string * json)) : bool :=
         match d with
         | [] => true
         | (k, u) :: d' =>
             match lookup k y with
             | Some v => py_eq u v
             | None => false
             end && sub d'
         end) x
  | _, _ =>
      match num_val a, num_val b with
      | Some p, Some q => Qeq_bool p q
      | _, _ => false
      end
  end.

(** [a < b]: numbers by value, strings and lists lexicographically,
    anything else is a TypeError. *)
Fixpoint py_lt (a b : json) {struct a} : res bool :=
  match a, b with
  | JStr x, JStr y => ok (String.ltb x y)
  | JList x, JList y =>
      (fix lex (l1 l2 : list json) : res bool :=
         match l1, l2 with
         | [], [] => ok false
         | [], _ :: _ => ok true
         | _ :: _, [] => ok false
         | u :: l1', v :: l2' => if py_eq u v then lex l1' l2' else py_lt u v
         end) x y
  | _, _ =>
      match num_val a, num_val b with
      | Some p, Some q => ok (negb (Qle_bool q p))
      | _, _ => fail (Unsupported "<" (type_name a) (type_name b))
      end
  end.

(* --------------------------------------------------------------------- *)
(** *** Strings *)

(** [str(n)] and [f"{n}"] for an int. *)
Definition fmt_int (n : Z) : string := NilZero.string_of_int (Z.to_int n).

(** [f"{x}"] for an optional string: [None] prints as its name. *)
Definition fmt_opt_str (x : option string) : string :=
  match x with
  | Some s => s
  | None => "None"
  end.

Definition upper_ascii (c : ascii) : ascii :=
  let n := nat_of_ascii c in
  if ((97 <=? n) && (n <=? 122))%nat then ascii_of_nat (n - 32) else c.

(** The characters outside ASCII that [str.upper] turns into ASCII
    letters, by their UTF-8 bytes: sharp s (U+00DF), dotless i (U+0131)
    and long s (U+017F) in two bytes, the Latin ligatures (U+FB00 to
    U+FB06) in three. *)
Definition upper_two (c1 c2 : ascii) : option string :=
  if ((c1 =? "195") && (c2 =? "159"))%char then Some "SS"
  else if ((c1 =? "196") && (c2 =? "177"))%char then Some "I"
  else if ((c1 =? "197") && (c2 =? "191"))%char then Some "S"
  else None.

Definition upper_three (c1 c2 c3 : ascii) : option string :=
  if ((c1 =? "239") && (c2 =? "172"))%char then
    if (c3 =? "128")%char then Some "FF"
    else if (c3 =? "129")%char then Some "FI"
    else if (c3 =? "130")%char then Some "FL"
    else if (c3 =? "131")%char then Some "FFI"
    else if (c3 =? "132")%char then Some "FFL"
    else if (c3 =? "133")%char then Some "ST"
    else if (c3 =? "134")%char then Some "ST"
    else None
  else None.

(** [s.upper()], as far as a comparison with ASCII text can tell: the
    ASCII letters and the characters above are mapped as [str.upper]
    maps them, every other character is kept.  [str.upper] maps the
    characters kept here to characters outside ASCII, itself included,
    so the result is the same text whenever either is ASCII. *)
Fixpoint upper (s : string) : string :=
  match s with
  | EmptyString => EmptyString
  | String c1 s1 =>
      match s1 with
      | String c2 s2 =>
          match upper_two c1 c2 with
          | Some u => u ++ upper s2
          | None =>
              match s2 with
              | String c3 s3 =>
                  match upper_three c1 c2 c3 with
                  | Some u => u ++ upper s3
                  | None => String (upper_ascii c1) (upper s1)
                  end
              | EmptyString => String (upper_ascii c1) (upper s1)
              end
          end
      | EmptyString => String (upper_ascii c1) EmptyString
      end
  end.

(** [s.lstrip('/')] *)
Fixpoint lstrip_slash (s : string) : string :=
  match s with
  | String "/"%char s' => lstrip_slash s'
  | _ => s
  end.

(* ===================================================================== *)
(** ** The surroundings of the server *)

Record request : Type := {
  req_method : string;
  req_url : string;
  req_headers : list (string * string);
  req_json : option json
}.

(** What happens inside one [async with session.<method>(...)] block. *)
Inductive outcome : Type :=
| Replies (status : Z) (body : json)
    (* raise_for_status passed; [body] is what response.json() parses *)
| RaisesClientError (msg : string)
    (* connection failure, status >= 400, wrong content type *)
| RaisesOther (msg : string).
    (* anything else: a timeout, an undecodable body *)

Record date : Type := { year : Z; month : Z; day : Z }.

Record runtime : Type := {
  RADARR_URL : string;
  RADARR_API_KEY : string;
  (** the upstream service behind the session: its answer to a request,
      given the requests it has received before *)
  respond : list request -> request -> outcome;
  (** the calendar date of [datetime.now()] *)
  now : date;
  (** the interpreter's wording of its own errors *)
  describe : pyerr -> string;
  (** [json.dumps(v, indent=i)] *)
  dumps : option nat -> json -> string
}.

(* ===================================================================== *)
(** ** Handlers as computations over the request log *)

(** A computation receives the requests sent so far and gives back a
    value or a raised exception, together with the extended log. *)
Definition M (A : Type) : Type := list request -> res A * list request.

Definition ret {A} (a : A) : M A := fun log => (inr a, log).

Definition throw {A} (e : exn) : M A := fun log => (inl e, log).

Definition pure {A} (r : res A) : M A := fun log => (r, log).

Definition bind {A B} (m : M A) (k : A -> M B) : M B :=
  fun log =>
    match m log with
    | (inl e, log') => (inl e, log')
    | (inr a, log') => k a log'
    end.

(** [try: m  except Exception as e: h e] *)
Definition try_except {A} (m : M A) (h : exn -> M A) : M A :=
  fun log =>
    match m log with
    | (inl e, log') => h e log'
    | (inr a, log') => (inr a, log')
    end.

Declare Scope M_scope.
Delimit Scope M_scope with M.
Notation "x <- m ;; k" := (bind m (fun x => k))
  (at level 61, m at next level, right associativity) : M_scope.

(** A dict display [{k1: e1, k2: e2, ...}]: the entries are evaluated in
    order and the first exception wins. *)
Fixpoint entries (es : list (string * res json)) : res (list (string * json)) :=
  match es with
  | [] => ok []
  | (k, e) :: es' =>
      bind_res e (fun v => bind_res (entries es') (fun d => ok ((k, v) :: d)))
  end.

Definition obj (es : list (string * res json)) : res json :=
  bind_res (entries es) (fun d => ok (JDict d)).

(** [d[k] = v] on a dict *)
Fixpoint dict_set (d : list (string * json)) (k : string) (v : json)
  : list (string * json) :=
  match d with
  | [] => [(k, v)]
  | (k', v') :: d' =>
      if String.eqb k k' then (k, v) :: d' else (k', v') :: dict_set d' k v
  end.

(** [x.get(k1, {}).get(k2)] *)
Definition get2 (x : json) (k1 k2 : string) : res json :=
  (y <- get x k1 (JDict []) ;; get_ y k2)%res.

(** [x.get("quality", {}).get("quality", {}).get(k, dflt)] *)
Definition quality_of (x : json) (k : string) (dflt : json) : res json :=
  (q <- get x "quality" (JDict []) ;;
   qq <- get q "quality" (JDict []) ;;
   get qq k dflt)%res.

(** [[y.get(k) for y in x.get(field, [])]] *)
Definition names_of (x : json) (field k : string) : res json :=
  (ys <- get x field (JList []) ;;
   l <- iter ys ;;
   ns <- mapM (fun y => get_ y k) l ;;
   ok (JList ns))%res.

(** The conditional expression every listing uses for its overview:
    [o[:n] + "..." if len(o) > n else o], where [o] stands for
    [m.get("overview", '')], evaluated anew at each occurrence. *)
Definition overview_excerpt (n : nat) (m : json) : res json :=
  (o <- get m "overview" (JStr EmptyString) ;;
   len <- py_len o ;;
   if (n <? len)%nat then
     (o1 <- get m "overview" (JStr EmptyString) ;;
      cut <- slice_to n o1 ;;
      add_str cut "...")
   else get m "overview" (JStr EmptyString))%res.

Definition JNat (n : nat) : json := JInt (Z.of_nat n).

(* --------------------------------------------------------------------- *)
(** *** [list.sort(key=..., reverse=True)] *)

(** Python computes every key first, then orders the items by [<] on the
    keys alone; an exception from a key or from a comparison aborts the
    sort.  With [reverse=True] the order is descending and items with
    equal keys keep their order.  The model is a stable insertion sort;
    CPython's merge sort returns the same list on keys it can order. *)
Fixpoint insert_desc (x : json * json) (l : list (json * json))
  : res (list (json * json)) :=
  match l with
  | [] => ok [x]
  | y :: l' =>
      bind_res (py_lt (fst x) (fst y)) (fun below =>
      if below
      then bind_res (insert_desc x l') (fun r => ok (y :: r))
      else ok (x :: y :: l'))
  end.

Fixpoint sort_desc (l : list (json * json)) : res (list (json * json)) :=
  match l with
  | [] => ok []
  | x :: l' => bind_res (sort_desc l') (insert_desc x)
  end.

Definition with_key (key : json -> res json) (x : json) : res (json * json) :=
  bind_res (key x) (fun k => ok (k, x)).

Definition sort_reverse (key : json -> res json) (v : json) : res json :=
  match v with
  | JList l =>
      (keyed <- mapM (with_key key) l ;;
       sorted <- sort_desc keyed ;;
       ok (JList (map snd sorted)))%res
  | _ => fail (NoAttribute (type_name v) "sort")
  end.

(* --------------------------------------------------------------------- *)
(** *** Dates: [strptime], [timedelta], [strftime] with "%Y-%m-%d" *)

Definition is_leap (y : Z) : bool :=
  (y mod 4 =? 0)%Z && (negb (y mod 100 =? 0)%Z || (y mod 400 =? 0)%Z).

Definition days_in_month (y m : Z) : Z :=
  if (m =? 2)%Z then (if is_leap y then 29 else 28)
  else if ((m =? 4) || (m =? 6) || (m =? 9) || (m =? 11))%Z then 30
  else 31.

(** The dates [datetime] can hold. *)
Definition valid_date (d : date) : Prop :=
  1 <= year d <= 9999 /\ 1 <= month d <= 12 /\
  1 <= day d <= days_in_month (year d) (month d).

Definition next_day (d : date) : date :=
  if (day d <? days_in_month (year d) (month d))%Z
  then {| year := year d; month := month d; day := day d + 1 |}
  else if (month d <? 12)%Z
  then {| year := year d; month := month d + 1; day := 1 |}
  else {| year := year d + 1; month := 1; day := 1 |}.

(** [d + timedelta(days=n)] *)
Definition add_days (n : nat) (d : date) : res date :=
  let d' := Nat.iter n next_day d in
  if (year d' <=? 9999)%Z then ok d' else fail DateOutOfRange.

(** The value of an ASCII digit.  [strptime] takes the decimal digits of
    other scripts too, in the year and in the second place of the day;
    [strptime] below reads ASCII dates, and what is stated of the dates
    it rejects is stated of ASCII text. *)
Definition digit_of (c : ascii) : option Z :=
  let n := nat_of_ascii c in
  if ((48 <=? n) && (n <=? 57))%nat then Some (Z.of_nat (n - 48)) else None.

Definition nonzero_digit_of (c : ascii) : option Z :=
  match digit_of c with
  | Some n => if (n =? 0)%Z then None else Some n
  | None => None
  end.

(** [%Y]: exactly four digits. *)
Definition parse_year (l : list ascii) : option (Z * list ascii) :=
  match l with
  | a :: b :: c :: d :: rest =>
      match digit_of a, digit_of b, digit_of c, digit_of d with
      | Some a, Some b, Some c, Some d =>
          Some (1000 * a + 100 * b + 10 * c + d, rest)
      | _, _, _, _ => None
      end
  | _ => None
  end.

(** [%m] followed by the dash: 10 to 12, 01 to 09, or 1 to 9. *)
Definition parse_month (l : list ascii) : option (Z * list ascii) :=
  match l with
  | a :: b :: rest =>
      if Ascii.eqb b "-" then
        match nonzero_digit_of a with
        | Some m => Some (m, rest)
        | None => None
        end
      else
        match rest, digit_of a, digit_of b with
        | c :: rest', Some a, Some b =>
            if negb (Ascii.eqb c "-") then None
            else if ((a =? 1) && (b <=? 2))%Z then Some (10 + b, rest')
            else if ((a =? 0) && (1 <=? b))%Z then Some (b, rest')
            else None
        | _, _, _ => None
        end
  | _ => None
  end.

(** [%d] up to the end of the text: 30 or 31, 10 to 29, 01 to 09, 1 to 9,
    or a blank and 1 to 9. *)
Definition parse_day (l : list ascii) : option Z :=
  match l with
  | [a] => nonzero_digit_of a
  | [a; b] =>
      if Ascii.eqb a " " then nonzero_digit_of b
      else
        match digit_of a, digit_of b with
        | Some a, Some b =>
            if ((a =? 3) && (b <=? 1))%Z then Some (30 + b)
            else if ((1 <=? a) && (a <=? 2))%Z then Some (10 * a + b)
            else if ((a =? 0) && (1 <=? b))%Z then Some b
            else None
        | _, _ => None
        end
  | _ => None
  end.

(** [datetime.strptime(s, "%Y-%m-%d")] on ASCII text, the date part. *)
Definition strptime (s : string) : res date :=
  match parse_year (list_ascii_of_string s) with
  | Some (y, "-"%char :: l1) =>
      match parse_month l1 with
      | Some (m, l2) =>
          match parse_day l2 with
          | Some d =>
              if ((1 <=? y) && (d <=? days_in_month y m))%Z
              then ok {| year := y; month := m; day := d |}
              else fail (BadDateString s)
          | None => fail (BadDateString s)
          end
      | None => fail (BadDateString s)
      end
  | _ => fail (BadDateString s)
  end.

Definition digit_char (n : Z) : ascii := ascii_of_nat (48 + Z.to_nat n).

Definition pad2 (n : Z) : string :=
  String (digit_char (n / 10)) (String (digit_char (n mod 10)) EmptyString).

Definition pad4 (n : Z) : string :=
  String (digit_char (n / 1000)) (String (digit_char (n / 100 mod 10))
    (pad2 (n mod 100))).

(** [d.strftime("%Y-%m-%d")], the year padded to four digits as the
    library documents it (some C libraries print years below 1000
    unpadded). *)
Definition strftime (d : date) : string :=
  pad4 (year d) ++ "-" ++ pad2 (month d) ++ "-" ++ pad2 (day d).

(** Truth of an optional argument: [None], [0], the empty string and the
    empty dict are false. *)
Definition truthy_int (x : option Z) : bool :=
  match x with
  | Some n => negb (n =? 0)%Z
  | None => false
  end.

Definition truthy_str (x : option string) : bool :=
  match x with
  | Some s => negb (String.eqb s EmptyString)
  | None => false
  end.

Definition truthy_dict (x : option (list (string * json))) : bool :=
  match x with
  | Some (_ :: _) => true
  | _ => false
  end.

(* ===================================================================== *)
(** ** The server *)

Section Server.

Variable rt : runtime.

Local Open Scope M_scope.

(** [str(e)] *)
Definition str_exn (e : exn) : string :=
  match e with
  | ClientError msg => msg
  | Exception msg => msg
  | Foreign msg => msg
  | Builtin b => describe rt b
  end.

(** One [async with session.<method>(url, ...)] block. *)
Definition send (rq : request) : M (Z * json) :=
  fun log =>
    (match respond rt log rq with
     | Replies status body => inr (status, body)
     | RaisesClientError msg => inl (ClientError msg)
     | RaisesOther msg => inl (Foreign msg)
     end, (log ++ [rq])%list).

Definition make_radarr_request (endpoint method : string) (data : option json)
  : M json :=
  let url := RADARR_URL rt ++ "/api/v3/" ++ lstrip_slash endpoint in
  let headers := [("X-Api-Key", RADARR_API_KEY rt);
                  ("Content-Type", "application/json")] in
  try_except
    (if upper method =? "GET" then
       r <- send {| req_method := "GET"; req_url := url;
                    req_headers := headers; req_json := None |} ;;
       ret (snd r)
     else if upper method =? "POST" then
       r <- send {| req_method := "POST"; req_url := url;
                    req_headers := headers; req_json := data |} ;;
       ret (snd r)
     else if upper method =? "PUT" then
       r <- send {| req_method := "PUT"; req_url := url;
                    req_headers := headers; req_json := data |} ;;
       ret (snd r)
     else if upper method =? "DELETE" then
       r <- send {| req_method := "DELETE"; req_url := url;
                    req_headers := headers; req_json := None |} ;;
       ret (JDict [("success", JBool true); ("status", JInt (fst r))])
     else ret JNull)
    (fun e =>
       match e with
       | ClientError msg =>
           throw (Exception ("Failed to communicate with Radarr: " ++ msg))
       | _ => throw e
       end).

(** [except Exception as e: return {"error": str(e)}], the last clause of
    every tool. *)
Definition error_result (e : exn) : M json :=
  ret (JDict [("error", JStr (str_exn e))]).

(* --------------------------------------------------------------------- *)
(** *** search_movies *)

Definition search_entry (movie : json) : res json :=
  obj [("title", get movie "title" (JStr "Unknown"));
       ("year", get_ movie "year");
       ("overview", overview_excerpt 200 movie);
       ("tmdb_id", get_ movie "tmdbId");
       ("imdb_id", get_ movie "imdbId");
       ("runtime", get_ movie "runtime");
       ("status", get_ movie "status");
       ("poster",
        (images <- get_ movie "images" ;;
         if truthy images then
           (imgs <- get movie "images" (JList [JDict []]) ;;
            img <- first_item imgs ;;
            get_ img "url")
         else ok JNull)%res);
       ("genres", names_of movie "genres" "name");
       ("ratings", get movie "ratings" (JDict []))].

(** [f"{query} {year}" if year else query] *)
Definition search_term (query : string) (year : option Z) : string :=
  match year with
  | Some y => if truthy_int year then query ++ " " ++ fmt_int y else query
  | None => query
  end.

Definition search_movies (query : string) (year : option Z) : M json :=
  try_except
    (results <- make_radarr_request
                  ("movie/lookup?term=" ++ search_term query year)
                  "GET" None ;;
     processed_results <-
       pure (top <- slice_to 10 results ;;
             movies <- iter top ;;
             mapM search_entry movies)%res ;;
     ret (JDict [("success", JBool true);
                 ("results_count", JNat (List.length processed_results));
                 ("movies", JList processed_results)]))
    error_result.

(* --------------------------------------------------------------------- *)
(** *** add_movie *)

Definition movie_data (movie_lookup quality_profile_id root_folder_path : json)
  (monitored search_on_add : bool) : res json :=
  obj [("title", get_ movie_lookup "title");
       ("year", get_ movie_lookup "year");
       ("tmdbId", get_ movie_lookup "tmdbId");
       ("imdbId", get_ movie_lookup "imdbId");
       ("titleSlug", get_ movie_lookup "titleSlug");
       ("images", get movie_lookup "images" (JList []));
       ("runtime", get_ movie_lookup "runtime");
       ("overview", get_ movie_lookup "overview");
       ("genres", get movie_lookup "genres" (JList []));
       ("ratings", get movie_lookup "ratings" (JDict []));
       ("qualityProfileId", ok quality_profile_id);
       ("rootFolderPath", ok root_folder_path);
       ("monitored", ok (JBool monitored));
       ("addOptions", ok (JDict [("searchForMovie", JBool search_on_add)]))].

Definition added_movie (result : json) : res json :=
  obj [("id", get_ result "id");
       ("title", get_ result "title");
       ("year", get_ result "year");
       ("status", get_ result "status");
       ("monitored", get_ result "monitored");
       ("quality_profile", get2 result "qualityProfile" "name");
       ("root_folder", get_ result "rootFolderPath")].

Definition add_movie (movie_id : string) (quality_profile_id : option Z)
  (root_folder_path : option string) (monitored search_on_add : bool)
  : M json :=
  try_except
    (movie_lookup <- make_radarr_request
                       ("movie/lookup/tmdb?tmdbId=" ++ movie_id) "GET" None ;;
     if negb (truthy movie_lookup) then
       ret (JDict [("error", JStr ("Movie with TMDB ID " ++ movie_id
                                     ++ " not found"))])
     else
       quality_profile_id <-
         match quality_profile_id with
         | None =>
             profiles <- make_radarr_request "qualityprofile" "GET" None ;;
             pure (if truthy profiles
                   then (p <- first_item profiles ;; item p "id")%res
                   else ok (JInt 1))
         | Some q => ret (JInt q)
         end ;;
       root_folder_path <-
         match root_folder_path with
         | None =>
             root_folders <- make_radarr_request "rootfolder" "GET" None ;;
             pure (if truthy root_folders
                   then (f <- first_item root_folders ;; item f "path")%res
                   else ok (JStr "/movies"))
         | Some p => ret (JStr p)
         end ;;
       data <- pure (movie_data movie_lookup quality_profile_id
                       root_folder_path monitored search_on_add) ;;
       result <- make_radarr_request "movie" "POST" (Some data) ;;
       movie <- pure (added_movie result) ;;
       ret (JDict [("success", JBool true); ("movie", movie)]))
    error_result.

(* --------------------------------------------------------------------- *)
(** *** get_movies *)

Definition library_entry (movie : json) : res json :=
  (movie_file <- get movie "movieFile" (JDict []) ;;
   obj [("id", get_ movie "id");
        ("title", get_ movie "title");
        ("year", get_ movie "year");
        ("status", get_ movie "status");
        ("monitored", get_ movie "monitored");
        ("has_file", get movie "hasFile" (JBool false));
        ("quality_profile", get2 movie "qualityProfile" "name");
        ("size_on_disk", get movie "sizeOnDisk" (JInt 0));
        ("overview", overview_excerpt 100 movie);
        ("file_info",
         if truthy movie_file then
           obj [("relative_path", get_ movie_file "relativePath");
                ("size", get_ movie_file "size");
                ("quality", quality_of movie_file "name" JNull)]
         else ok JNull)])%res.

(** [[m for m in movies if m.get(field) == wanted]] *)
Definition keep_equal (field : string) (wanted : json) (movies : json)
  : res json :=
  (l <- iter movies ;;
   kept <- filterM (fun m => v <- get_ m field ;; ok (py_eq v wanted)) l ;;
   ok (JList kept))%res.

Definition get_movies (monitored : option bool) (status : option string)
  (quality_profile_id : option Z) : M json :=
  try_except
    (movies <- make_radarr_request "movie" "GET" None ;;
     movies <- pure (match monitored with
                     | Some b => keep_equal "monitored" (JBool b) movies
                     | None => ok movies
                     end) ;;
     movies <- pure (match status with
                     | Some s =>
                         if truthy_str status
                         then keep_equal "status" (JStr s) movies
                         else ok movies
                     | None => ok movies
                     end) ;;
     movies <- pure (match quality_profile_id with
                     | Some q =>
                         if truthy_int quality_profile_id
                         then keep_equal "qualityProfileId" (JInt q) movies
                         else ok movies
                     | None => ok movies
                     end) ;;
     processed_movies <- pure (l <- iter movies ;; mapM library_entry l)%res ;;
     ret (JDict [("success", JBool true);
                 ("total_count", JNat (List.length processed_movies));
                 ("movies", JList processed_movies)]))
    error_result.

(* --------------------------------------------------------------------- *)
(** *** get_movie_details *)

Definition detail_fields (movie : json) : res (list (string * json)) :=
  entries [("id", get_ movie "id");
           ("title", get_ movie "title");
           ("year", get_ movie "year");
           ("overview", get_ movie "overview");
           ("status", get_ movie "status");
           ("monitored", get_ movie "monitored");
           ("has_file", get_ movie "hasFile");
           ("runtime", get_ movie "runtime");
           ("genres", names_of movie "genres" "name");
           ("ratings", get movie "ratings" (JDict []));
           ("quality_profile", get movie "qualityProfile" (JDict []));
           ("root_folder_path", get_ movie "rootFolderPath");
           ("size_on_disk", get_ movie "sizeOnDisk");
           ("tmdb_id", get_ movie "tmdbId");
           ("imdb_id", get_ movie "imdbId")].

Definition file_details (movie_file : json) : res json :=
  obj [("id", get_ movie_file "id");
       ("relative_path", get_ movie_file "relativePath");
       ("size", get_ movie_file "size");
       ("date_added", get_ movie_file "dateAdded");
       ("quality", get movie_file "quality" (JDict []));
       ("media_info", get movie_file "mediaInfo" (JDict []))].

Definition history_entry (h : json) : res json :=
  obj [("event_type", get_ h "eventType");
       ("date", get_ h "date");
       ("quality", get h "quality" (JDict []));
       ("source_title", get_ h "sourceTitle");
       ("data", get h "data" (JDict []))].

Definition get_movie_details (movie_id : Z) (include_files include_history : bool)
  : M json :=
  try_except
    (movie <- make_radarr_request ("movie/" ++ fmt_int movie_id) "GET" None ;;
     result <- pure (detail_fields movie) ;;
     result <-
       pure (if include_files then
               (present <- get_ movie "movieFile" ;;
                if truthy present then
                  (movie_file <- item movie "movieFile" ;;
                   details <- file_details movie_file ;;
                   ok (dict_set result "file_details" details))
                else ok result)%res
             else ok result) ;;
     result <-
       (if include_history then
          history <- make_radarr_request
                       ("history/movie?movieId=" ++ fmt_int movie_id)
                       "GET" None ;;
          events <- pure (records <- get history "records" (JList []) ;;
                          last <- slice_to 10 records ;;
                          l <- iter last ;;
                          mapM history_entry l)%res ;;
          ret (dict_set result "history" (JList events))
        else ret result) ;;
     ret (JDict [("success", JBool true); ("movie", JDict result)]))
    error_result.

(* --------------------------------------------------------------------- *)
(** *** search_movie_releases *)

Definition release_entry (release : json) : res json :=
  obj [("guid", get_ release "guid");
       ("title", get_ release "title");
       ("size", get_ release "size");
       ("age", get_ release "age");
       ("seeders", get_ release "seeders");
       ("leechers", get_ release "leechers");
       ("quality", quality_of release "name" JNull);
       ("indexer", get_ release "indexer");
       ("download_url", get_ release "downloadUrl");
       ("approved", get release "approved" (JBool false));
       ("rejection_reasons", get release "rejections" (JList []))].

(** [sort_by == name] for the optional argument *)
Definition is_str (x : option string) (name : string) : bool :=
  match x with
  | Some s => String.eqb s name
  | None => false
  end.

(** The key each [sort_by] value sorts on; [None] for no sorting. *)
Definition sort_key (sort_by : option string) : option (json -> res json) :=
  if is_str sort_by "seeders" then Some (fun x => get x "seeders" (JInt 0))
  else if is_str sort_by "size" then Some (fun x => get x "size" (JInt 0))
  else if is_str sort_by "quality" then Some (fun x => quality_of x "id" (JInt 0))
  else None.

Definition search_movie_releases (movie_id : Z) (sort_by : option string)
  : M json :=
  try_except
    (releases <- make_radarr_request ("release?movieId=" ++ fmt_int movie_id)
                                     "GET" None ;;
     releases <- pure (match sort_key sort_by with
                       | Some key => sort_reverse key releases
                       | None => ok releases
                       end) ;;
     processed_releases <-
       pure (top <- slice_to 20 releases ;;
             l <- iter top ;;
             mapM release_entry l)%res ;;
     ret (JDict [("success", JBool true);
                 ("releases_count", JNat (List.length processed_releases));
                 ("releases", JList processed_releases)]))
    error_result.

(* --------------------------------------------------------------------- *)
(** *** download_release *)

Definition download_release (release_guid : string) (movie_id : Z) : M json :=
  try_except
    (let download_data :=
       JDict [("guid", JStr release_guid); ("movieId", JInt movie_id)] in
     result <- make_radarr_request "release" "POST" (Some download_data) ;;
     ret (JDict [("success", JBool true);
                 ("message", JStr "Download started successfully");
                 ("release", result)]))
    error_result.

(* --------------------------------------------------------------------- *)
(** *** get_download_queue *)

Definition queue_entry (it : json) : res json :=
  obj [("id", get_ it "id");
       ("movie_title", get2 it "movie" "title");
       ("title", get_ it "title");
       ("size", get_ it "size");
       ("sizeleft", get_ it "sizeleft");
       ("status", get_ it "status");
       ("progress", get it "progress" (JInt 0));
       ("eta", get_ it "estimatedCompletionTime");
       ("quality", quality_of it "name" JNull);
       ("protocol", get_ it "protocol");
       ("download_client", get_ it "downloadClient");
       ("output_path", get_ it "outputPath");
       ("status_messages", names_of it "statusMessages" "title")].

Definition get_download_queue (page page_size : Z) (sort : option string)
  : M json :=
  try_except
    (queue <- make_radarr_request
                ("queue?page=" ++ fmt_int page ++ "&pageSize="
                   ++ fmt_int page_size ++ "&sortKey=" ++ fmt_opt_str sort)
                "GET" None ;;
     processed_queue <-
       pure (records <- get queue "records" (JList []) ;;
             l <- iter records ;;
             mapM queue_entry l)%res ;;
     pure (obj [("success", ok (JBool true));
                ("total_records", get queue "totalRecords" (JInt 0));
                ("page", get queue "page" (JInt 1));
                ("page_size", get queue "pageSize" (JInt page_size));
                ("queue", ok (JList processed_queue))]))
    error_result.

(* --------------------------------------------------------------------- *)
(** *** manage_download_queue *)

Definition manage_download_queue (queue_id : Z) (action : string)
  (remove_from_client : bool) : M json :=
  try_except
    (let done (result : json) : M json :=
       ret (JDict [("success", JBool true);
                   ("action", JStr action);
                   ("queue_id", JInt queue_id);
                   ("result", result)]) in
     if action =? "remove" then
       let params := "removeFromClient="
                       ++ (if remove_from_client then "true" else "false") in
       result <- make_radarr_request
                   ("queue/" ++ fmt_int queue_id ++ "?" ++ params)
                   "DELETE" None ;;
       done result
     else if action =? "retry" then
       result <- make_radarr_request ("queue/grab/" ++ fmt_int queue_id)
                                     "POST" None ;;
       done result
     else if action =? "ignore" then
       result <- make_radarr_request
                   ("queue/" ++ fmt_int queue_id ++ "?removeFromClient=false")
                   "DELETE" None ;;
       done result
     else
       ret (JDict [("error",
                    JStr ("Invalid action: " ++ action
                            ++ ". Use 'remove', 'retry', or 'ignore'"))]))
    error_result.

(* --------------------------------------------------------------------- *)
(** *** get_system_defaults *)

Definition profile_entry (p : json) : res json :=
  obj [("id", get_ p "id");
       ("name", get_ p "name");
       ("cutoff", get2 p "cutoff" "name");
       ("items",
        (its <- get p "items" (JList []) ;;
         l <- iter its ;;
         ns <- mapM (fun it => get2 it "quality" "name") l ;;
         ok (JList ns))%res)].

Definition root_folder_entry (rf : json) : res json :=
  obj [("id", get_ rf "id");
       ("path", get_ rf "path");
       ("accessible", get_ rf "accessible");
       ("free_space", get_ rf "freeSpace");
       ("unmapped_folders",
        (u <- get rf "unmappedFolders" (JList []) ;;
         n <- py_len u ;;
         ok (JNat n))%res)].

(** [[f(x) for x in v]] *)
Definition comprehension (f : json -> res json) (v : json) : res json :=
  (l <- iter v ;; out <- mapM f l ;; ok (JList out))%res.

Definition get_system_defaults : M json :=
  try_except
    (profiles <- make_radarr_request "qualityprofile" "GET" None ;;
     root_folders <- make_radarr_request "rootfolder" "GET" None ;;
     pure (obj [("success", ok (JBool true));
                ("quality_profiles", comprehension profile_entry profiles);
                ("root_folders", comprehension root_folder_entry root_folders)]))
    error_result.

(* --------------------------------------------------------------------- *)
(** *** get_wanted_movies *)

Definition wanted_entry (movie : json) : res json :=
  obj [("id", get_ movie "id");
       ("title", get_ movie "title");
       ("year", get_ movie "year");
       ("status", get_ movie "status");
       ("quality_profile", get2 movie "qualityProfile" "name");
       ("size_on_disk", get_ movie "sizeOnDisk");
       ("overview", overview_excerpt 100 movie);
       ("tmdb_id", get_ movie "tmdbId");
       ("imdb_id", get_ movie "imdbId")].

Definition get_wanted_movies (page page_size : Z) : M json :=
  try_except
    (wanted <- make_radarr_request
                 ("wanted/missing?page=" ++ fmt_int page ++ "&pageSize="
                    ++ fmt_int page_size ++ "&sortKey=title")
                 "GET" None ;;
     processed_wanted <-
       pure (records <- get wanted "records" (JList []) ;;
             l <- iter records ;;
             mapM wanted_entry l)%res ;;
     pure (obj [("success", ok (JBool true));
                ("total_records", get wanted "totalRecords" (JInt 0));
                ("page", get wanted "page" (JInt 1));
                ("wanted_movies", ok (JList processed_wanted))]))
    error_result.

(* --------------------------------------------------------------------- *)
(** *** manage_indexers *)

Definition indexer_entry (idx : json) : res json :=
  obj [("id", get_ idx "id");
       ("name", get_ idx "name");
       ("implementation", get_ idx "implementation");
       ("enable_rss", get_ idx "enableRss");
       ("enable_automatic_search", get_ idx "enableAutomaticSearch");
       ("enable_interactive_search", get_ idx "enableInteractiveSearch");
       ("priority", get_ idx "priority");
       ("tags", get idx "tags" (JList []))].

(** [f"{x}"] for an optional int *)
Definition fmt_opt_int (x : option Z) : string :=
  match x with
  | Some n => fmt_int n
  | None => "None"
  end.

Definition manage_indexers (action : string) (indexer_id : option Z)
  (indexer_data : option (list (string * json))) : M json :=
  try_except
    (if action =? "list" then
       indexers <- make_radarr_request "indexer" "GET" None ;;
       listed <- pure (comprehension indexer_entry indexers) ;;
       ret (JDict [("success", JBool true); ("indexers", listed)])
     else if (action =? "test") && truthy_int indexer_id then
       result <- make_radarr_request
                   ("indexer/test/" ++ fmt_opt_int indexer_id) "POST" None ;;
       ret (JDict [("success", JBool true); ("test_result", result)])
     else if (action =? "add") && truthy_dict indexer_data then
       result <- make_radarr_request "indexer" "POST"
                   (option_map JDict indexer_data) ;;
       ret (JDict [("success", JBool true); ("indexer", result)])
     else if (action =? "update") && truthy_int indexer_id
             && truthy_dict indexer_data then
       result <- make_radarr_request
                   ("indexer/" ++ fmt_opt_int indexer_id) "PUT"
                   (option_map JDict indexer_data) ;;
       ret (JDict [("success", JBool true); ("indexer", result)])
     else if (action =? "delete") && truthy_int indexer_id then
       result <- make_radarr_request
                   ("indexer/" ++ fmt_opt_int indexer_id) "DELETE" None ;;
       ret (JDict [("success", JBool true); ("deleted", JBool true)])
     else
       ret (JDict [("error",
                    JStr "Invalid action or missing required parameters")]))
    error_result.

(* --------------------------------------------------------------------- *)
(** *** get_calendar *)

Definition calendar_entry (movie : json) : res json :=
  obj [("id", get_ movie "id");
       ("title", get_ movie "title");
       ("year", get_ movie "year");
       ("status", get_ movie "status");
       ("monitored", get_ movie "monitored");
       ("has_file", get_ movie "hasFile");
       ("physical_release", get_ movie "physicalRelease");
       ("digital_release", get_ movie "digitalRelease");
       ("in_cinemas", get_ movie "inCinemas");
       ("quality_profile", get2 movie "qualityProfile" "name");
       ("overview", overview_excerpt 150 movie)].

Definition get_calendar (start_date end_date : option string) : M json :=
  try_except
    (let start_date :=
       match start_date with
       | Some s => if truthy_str start_date then s else strftime (now rt)
       | None => strftime (now rt)
       end in
     end_date <-
       pure (let computed :=
               (start <- strptime start_date ;;
                end_dt <- add_days 30 start ;;
                ok (strftime end_dt))%res in
             match end_date with
             | Some s => if truthy_str end_date then ok s else computed
             | None => computed
             end) ;;
     calendar <- make_radarr_request
                   ("calendar?start=" ++ start_date ++ "&end=" ++ end_date)
                   "GET" None ;;
     processed_calendar <-
       pure (l <- iter calendar ;; mapM calendar_entry l)%res ;;
     ret (JDict [("success", JBool true);
                 ("date_range", JStr (start_date ++ " to " ++ end_date));
                 ("movies_count", JNat (List.length processed_calendar));
                 ("movies", JList processed_calendar)]))
    error_result.

(* --------------------------------------------------------------------- *)
(** *** get_system_status *)

Definition system_info (status : json) : res json :=
  obj [("version", get_ status "version");
       ("build_time", get_ status "buildTime");
       ("is_debug", get_ status "isDebug");
       ("is_production", get_ status "isProduction");
       ("is_admin", get_ status "isAdmin");
       ("is_user_interactive", get_ status "isUserInteractive");
       ("startup_path", get_ status "startupPath");
       ("app_data", get_ status "appData");
       ("os_name", get_ status "osName");
       ("os_version", get_ status "osVersion");
       ("is_mono_runtime", get_ status "isMonoRuntime");
       ("is_mono", get_ status "isMono");
       ("is_linux", get_ status "isLinux");
       ("is_windows", get_ status "isWindows");
       ("mode", get_ status "mode");
       ("branch", get_ status "branch");
       ("authentication", get_ status "authentication");
       ("sqlite_version", get_ status "sqliteVersion");
       ("migration_version", get_ status "migrationVersion");
       ("url_base", get_ status "urlBase");
       ("runtime_version", get_ status "runtimeVersion")].

Definition health_entry (check : json) : res json :=
  obj [("source", get_ check "source");
       ("type", get_ check "type");
       ("message", get_ check "message");
       ("wiki_url", get_ check "wikiUrl")].

Definition disk_entry (disk : json) : res json :=
  obj [("path", get_ disk "path");
       ("label", get_ disk "label");
       ("free_space", get_ disk "freeSpace");
       ("total_space", get_ disk "totalSpace")].

Definition get_system_status : M json :=
  try_except
    (status <- make_radarr_request "system/status" "GET" None ;;
     health <- make_radarr_request "health" "GET" None ;;
     disk_space <- make_radarr_request "diskspace" "GET" None ;;
     pure (obj [("success", ok (JBool true));
                ("system_info", system_info status);
                ("health_checks", comprehension health_entry health);
                ("disk_space", comprehension disk_entry disk_space)]))
    error_result.

(* --------------------------------------------------------------------- *)
(** *** The movie_collection resource *)

Definition movie_collection (filter : string) : M string :=
  try_except
    (result <-
       (if filter =? "wanted" then get_wanted_movies 1 20
        else if filter =? "monitored" then get_movies (Some true) None None
        else if filter =? "unmonitored" then get_movies (Some false) None None
        else get_movies None None None) ;;
     success <- pure (get_ result "success") ;;
     if truthy success then ret (dumps rt (Some 2%nat) result)
     else
       message <- pure (get result "error" (JStr "Unknown error")) ;;
       ret (dumps rt None (JDict [("error", message)])))
    (fun e => ret (dumps rt None (JDict [("error", JStr (str_exn e))]))).

End Server.

(* --------------------------------------------------------------------- *)
(** *** The movie_details resource *)

Section Details.

Variable rt : runtime.

(** [int(s)] on a string, a builtin of the interpreter: the number read,
    or the exception raised. *)
Variable py_int : string -> res Z.

Definition movie_details (movie_id : string) : M string :=
  try_except
    (bind (pure (py_int movie_id)) (fun n =>
     bind (get_movie_details rt n true true) (fun result =>
     ret (dumps rt (Some 2%nat) result))))
    (fun e => ret (dumps rt None (JDict [("error", JStr (str_exn rt e))]))).

End Details.

(* --------------------------------------------------------------------- *)
(** *** The shared session: get_session and cleanup *)

(** The module-level [session] variable, the number of
    [aiohttp.ClientSession()] objects constructed so far (an object is
    named by its rank of construction), and the objects [close()] was
    awaited on, latest first. *)
Record session_state : Type := {
  session : option nat;
  constructed : nat;
  closed : list nat
}.

(** The state when the module has been loaded: [session = None]. *)
Definition no_session : session_state :=
  {| session := None; constructed := 0; closed := [] |}.

Definition get_session (st : session_state) : nat * session_state :=
  match session st with
  | None =>
      let s := constructed st in
      (s, {| session := Some s;
             constructed := S (constructed st);
             closed := closed st |})
  | Some s => (s, st)
  end.

Definition cleanup (st : session_state) : session_state :=
  match session st with
  | Some s =>
      {| session := session st;
         constructed := constructed st;
         closed := s :: closed st |}
  | None => st
  end.

(** What the process does with the session: requests acquire it, the
    exit hook cleans up. *)
Inductive session_use : Type :=
| Acquire
| Cleanup.

(** The sessions handed out by a run of uses, and the state it ends in. *)
Fixpoint use_session (uses : list session_use) (st : session_state)
  : list nat * session_state :=
  match uses with
  | [] => ([], st)
  | Acquire :: rest =>
      let (s, st') := get_session st in
      let (handed, final) := use_session rest st' in
      (s :: handed, final)
  | Cleanup :: rest => use_session rest (cleanup st)
  end.

(* ===================================================================== *)
(** ** Tool invocations *)

(** A call of one of the thirteen tools, with arguments of the declared
    types. *)
Inductive tool_call : Type :=
| SearchMovies (query : string) (year : option Z)
| AddMovie (movie_id : string) (quality_profile_id : option Z)
    (root_folder_path : option string) (monitored search_on_add : bool)
| GetMovies (monitored : option bool) (status : option string)
    (quality_profile_id : option Z)
| GetMovieDetails (movie_id : Z) (include_files include_history : bool)
| SearchMovieReleases (movie_id : Z) (sort_by : option string)
| DownloadRelease (release_guid : string) (movie_id : Z)
| GetDownloadQueue (page page_size : Z) (sort : option string)
| ManageDownloadQueue (queue_id : Z) (action : string) (remove_from_client : bool)
| GetSystemDefaults
| GetWantedMovies (page page_size : Z)
| ManageIndexers (action : string) (indexer_id : option Z)
    (indexer_data : option (list (string * json)))
| GetCalendar (start_date end_date : option string)
| GetSystemStatus.

Definition invoke (rt : runtime) (c : tool_call) : M json :=
  match c with
  | SearchMovies q y => search_movies rt q y
  | AddMovie i q r m s => add_movie rt i q r m s
  | GetMovies m s q => get_movies rt m s q
  | GetMovieDetails i f h => get_movie_details rt i f h
  | SearchMovieReleases i s => search_movie_releases rt i s
  | DownloadRelease g i => download_release rt g i
  | GetDownloadQueue p n s => get_download_queue rt p n s
  | ManageDownloadQueue i a r => manage_download_queue rt i a r
  | GetSystemDefaults => get_system_defaults rt
  | GetWantedMovies p n => get_wanted_movies rt p n
  | ManageIndexers a i d => manage_indexers rt a i d
  | GetCalendar s e => get_calendar rt s e
  | GetSystemStatus => get_system_status rt
  end.

(* ===================================================================== *)
(** ** Vocabulary of the properties *)

(** The request [make_radarr_request] sends for an endpoint that has no
    leading slash. *)
Definition api (rt : runtime) (method endpoint : string) (data : option json)
  : request :=
  {| req_method := method;
     req_url := RADARR_URL rt ++ "/api/v3/" ++ endpoint;
     req_headers := [("X-Api-Key", RADARR_API_KEY rt);
                     ("Content-Type", "application/json")];
     req_json := data |}.

(** What a caller of [make_radarr_request] sees of an outcome. *)
Definition delivered (method : string) (o : outcome) : res json :=
  match o with
  | Replies status body =>
      if method =? "DELETE"
      then ok (JDict [("success", JBool true); ("status", JInt status)])
      else ok body
  | RaisesClientError msg =>
      raise (Exception ("Failed to communicate with Radarr: " ++ msg))
  | RaisesOther msg => raise (Foreign msg)
  end.

(** A field of a result object. *)
Definition field (v : json) (k : string) : option json :=
  match v with
  | JDict d => lookup k d
  | _ => None
  end.

(** The result envelope: [success: true], or [error] with a string. *)
Definition is_envelope (v : json) : bool :=
  match field v "success", field v "error" with
  | Some (JBool true), _ => true
  | _, Some (JStr _) => true
  | _, _ => false
  end.

Definition succeeded (v : json) : Prop := field v "success" = Some (JBool true).

(** The envelope a failed upstream call must end in. *)
Definition error_envelope (msg : string) : json := JDict [("error", JStr msg)].

(** A runtime for examples: the upstream answers by request alone, and
    [dumps] is a compact printer without escapes. *)
Definition dquote : string := String (ascii_of_nat 34) EmptyString.

Fixpoint sample_dumps (v : json) : string :=
  match v with
  | JNull => "null"
  | JBool true => "true"
  | JBool false => "false"
  | JInt n => fmt_int n
  | JFloat q => fmt_int (Qnum q) ++ "/" ++ fmt_int (Zpos (Qden q))
  | JStr s => dquote ++ s ++ dquote
  | JList l => "[" ++ String.concat "," (map sample_dumps l) ++ "]"
  | JDict d =>
      "{" ++ String.concat ","
               (map (fun kv => dquote ++ fst kv ++ dquote ++ ":"
                                 ++ sample_dumps (snd kv)) d)
          ++ "}"
  end.

Definition sample_runtime (answer : request -> outcome) : runtime :=
  {| RADARR_URL := "http://radarr.local:7878";
     RADARR_API_KEY := "0123456789abcdef";
     respond := fun _ rq => answer rq;
     now := {| year := 2024; month := 1; day := 1 |};
     describe := fun e =>
       match e with
       | NoAttribute ty attr =>
           "'" ++ ty ++ "' object has no attribute '" ++ attr ++ "'"
       | _ => "error"
       end;
     dumps := fun _ v => sample_dumps v |}.

(** An upstream that answers every request with the same body. *)
Definition always (body : json) : request -> outcome :=
  fun _ => Replies 200 body.

(** The [field] of the first entry of an upstream list, or [fallback]
    when the list is empty. *)
Definition first_or (field : string) (fallback : json) (l : list json)
  : option json :=
  match l with
  | [] => Some fallback
  | JDict d :: _ => lookup field d
  | _ :: _ => None
  end.

(** The request that fetches a default, sent only when the argument is
    omitted. *)
Definition asked_for {A} (arg : option A) (rq : request) : list request :=
  match arg with
  | None => [rq]
  | Some _ => []
  end.

(** The number of characters of a text, and its first [n] characters. *)
Definition char_count (s : string) : nat := List.length (characters s).

Definition first_chars (n : nat) (s : string) : string :=
  join (firstn n (characters s)).

(** A text without a byte outside ASCII. *)
Definition is_ascii (s : string) : bool :=
  forallb (fun c => (nat_of_ascii c <? 128)%nat) (list_ascii_of_string s).

(** An overview cut to [n] characters: the first [n] and an ellipsis when
    it is longer, the text itself otherwise. *)
Definition truncated (n : nat) (s : string) : string :=
  if (n <? char_count s)%nat then first_chars n s ++ "..." else s.

Definition shortened (n : nat) (o : json) : json :=
  match o with
  | JStr s => JStr (truncated n s)
  | _ => o
  end.

(** The expression a dict display gives for a key. *)
Fixpoint entry_for (k : string) (es : list (string * res json))
  : option (res json) :=
  match es with
  | [] => None
  | (k', e) :: es' => if String.eqb k k' then Some e else entry_for k es'
  end.

(** An upstream for the add_movie examples: it knows one TMDB id, has no
    quality profiles and no root folders. *)
Definition tmdb_upstream (rq : request) : outcome :=
  if req_method rq =? "POST" then Replies 201 (JDict [("id", JInt 1)])
  else if req_url rq
          =? "http://radarr.local:7878/api/v3/movie/lookup/tmdb?tmdbId=27205"
  then Replies 200 (JDict [("title", JStr "Inception")])
  else Replies 200 (JList []).

(** A lookup answer of twelve records; the first has an overview of 210
    characters, 21 of them outside ASCII. *)
Definition long_overview : string :=
  String.concat EmptyString (repeat "abcdefghié" 21).

Definition lookup_results : list json :=
  JDict [("title", JStr "Inception"); ("overview", JStr long_overview)]
    :: repeat (JDict [("title", JStr "Other")]) 11.

(** The value a record holds under a key, [None] when it has none. *)
Definition value_of (k : string) (m : json) : json :=
  match m with
  | JDict d => match lookup k d with Some x => x | None => JNull end
  | _ => JNull
  end.

(** [m] is a record whose value under [k] equals [wanted]. *)
Definition field_equals (k : string) (wanted : json) (m : json) : bool :=
  match m with
  | JDict _ => py_eq (value_of k m) wanted
  | _ => false
  end.

(** The three filters of get_movies, each with the condition under which
    it is applied. *)
Definition pass_monitored (monitored : option bool) (m : json) : bool :=
  match monitored with
  | Some b => field_equals "monitored" (JBool b) m
  | None => true
  end.

Definition pass_status (status : option string) (m : json) : bool :=
  match status with
  | Some s =>
      if String.eqb s EmptyString then true
      else field_equals "status" (JStr s) m
  | None => true
  end.

Definition pass_profile (quality_profile_id : option Z) (m : json) : bool :=
  match quality_profile_id with
  | Some q =>
      if (q =? 0)%Z then true
      else field_equals "qualityProfileId" (JInt q) m
  | None => true
  end.

Definition passes (monitored : option bool) (status : option string)
  (quality_profile_id : option Z) (m : json) : bool :=
  pass_monitored monitored m && pass_status status m
  && pass_profile quality_profile_id m.

(** A library of four movies. *)
Definition library : list json :=
  [JDict [("id", JInt 1); ("status", JStr "released");
          ("monitored", JBool true); ("qualityProfileId", JInt 4)];
   JDict [("id", JInt 2); ("status", JStr "announced");
          ("monitored", JBool true); ("qualityProfileId", JInt 4)];
   JDict [("id", JInt 3); ("status", JStr "released");
          ("monitored", JBool false); ("qualityProfileId", JInt 6)];
   JDict [("id", JInt 4); ("status", JStr "released");
          ("monitored", JBool true); ("qualityProfileId", JInt 6)]].

(** The number a release weighs under a sort key; [None] when the key
    cannot be taken or is no number. *)
Definition weight (key : json -> res json) (x : json) : option Q :=
  match key x with
  | inr k => num_val k
  | inl _ => None
  end.

(** [a] does not weigh less than [b]. *)
Definition outweighs (key : json -> res json) (a b : json) : Prop :=
  forall p q : Q, weight key a = Some p -> weight key b = Some q -> Qle q p.

(** The same on keyed items, as the sort sees them. *)
Definition key_outweighs (a b : json * json) : Prop :=
  forall p q : Q,
    num_val (fst a) = Some p -> num_val (fst b) = Some q -> Qle q p.

(** What a record holds under a key, [dflt] when it holds nothing there
    or is no record. *)
Definition value_or (k : string) (dflt : json) (m : json) : json :=
  match field m k with
  | Some x => x
  | None => dflt
  end.

(** The number a release is ordered by under each [sort_by]: its seeder
    count, its size, or the id of the quality inside its quality, each 0
    where the release names none; [None] when what it names is no
    number. *)
Definition sort_weight (sort_by : string) (release : json) : option Q :=
  if sort_by =? "seeders" then num_val (value_or "seeders" (JInt 0) release)
  else if sort_by =? "size" then num_val (value_or "size" (JInt 0) release)
  else if sort_by =? "quality" then
    num_val (value_or "id" (JInt 0)
               (value_or "quality" (JDict [])
                  (value_or "quality" (JDict []) release)))
  else None.

(** [a] does not weigh less than [b] under [sort_by]. *)
Definition ranks_first (sort_by : string) (a b : json) : Prop :=
  forall p q : Q,
    sort_weight sort_by a = Some p -> sort_weight sort_by b = Some q ->
    Qle q p.

(** Three releases of different quality; the last names no seeders. *)
Definition graded_releases : list json :=
  [JDict [("guid", JStr "a"); ("seeders", JInt 9);
          ("quality", JDict [("quality", JDict [("id", JInt 1);
                                                ("name", JStr "SDTV")])])];
   JDict [("guid", JStr "b"); ("seeders", JInt 2);
          ("quality", JDict [("quality", JDict [("id", JInt 7);
                                                ("name", JStr "Bluray-1080p")])])];
   JDict [("guid", JStr "c");
          ("quality", JDict [("quality", JDict [("id", JInt 3);
                                                ("name", JStr "WEBDL-1080p")])])]].

(** Five releases; the second reports no seeder count. *)
Definition found_releases : list json :=
  [JDict [("guid", JStr "a"); ("seeders", JInt 3); ("size", JInt 700)];
   JDict [("guid", JStr "b"); ("size", JInt 1400)];
   JDict [("guid", JStr "c"); ("seeders", JInt 10); ("size", JInt 4000)];
   JDict [("guid", JStr "d"); ("seeders", JInt 7); ("size", JInt 900)];
   JDict [("guid", JStr "e"); ("seeders", JInt 3); ("size", JInt 2000)]].

(** The day count of a date, as [date.toordinal()] numbers the days: 1 for
    0001-01-01. *)
Definition days_before_year (y : Z) : Z :=
  let p := y - 1 in p * 365 + p / 4 - p / 100 + p / 400.

Fixpoint days_before_month_n (y : Z) (m : nat) : Z :=
  match m with
  | O => 0
  | S m' => days_before_month_n y m' + days_in_month y (Z.of_nat m)
  end.

Definition days_before_month (y m : Z) : Z :=
  days_before_month_n y (Z.to_nat (m - 1)).

Definition ordinal (d : date) : Z :=
  days_before_year (year d) + days_before_month (year d) (month d) + day d.

(** The exception [make_radarr_request] raises for an outcome, if any. *)
Definition failure_of (o : outcome) : option exn :=
  match o with
  | Replies _ _ => None
  | RaisesClientError msg =>
      Some (Exception ("Failed to communicate with Radarr: " ++ msg))
  | RaisesOther msg => Some (Foreign msg)
  end.

(** [m] only adds to the log, and a request of its own that fails is its
    last one and decides its result: the exception is raised on. *)
Definition propagates (rt : runtime) {A} (m : M A) : Prop :=
  forall log : list request,
  exists sent : list request,
    snd (m log) = (log ++ sent)%list /\
    forall (pre post : list request) (rq : request) (e : exn),
      sent = (pre ++ rq :: post)%list ->
      failure_of (respond rt (log ++ pre)%list rq) = Some e ->
      post = [] /\ fst (m log) = inl e.

(** Whatever [m] returns is a result envelope. *)
Definition yields_envelope (m : M json) : Prop :=
  forall (log : list request) (v : json),
    fst (m log) = inr v -> is_envelope v = true.

(** [m] always returns an envelope, and the error envelope of the failure
    when a request of its own fails. *)
Definition converts (rt : runtime) (m : M json) : Prop :=
  forall log : list request,
  exists (v : json) (sent : list request),
    m log = (inr v, (log ++ sent)%list) /\
    is_envelope v = true /\
    forall (pre post : list request) (rq : request) (e : exn),
      sent = (pre ++ rq :: post)%list ->
      failure_of (respond rt (log ++ pre)%list rq) = Some e ->
      v = error_envelope (str_exn rt e).

(** An upstream that is down. *)
Definition unreachable : request -> outcome :=
  fun _ => RaisesClientError "Cannot connect to host radarr.local:7878".

(** [m] only adds to the log, and every request it adds satisfies [P]. *)
Definition only_sends {A} (P : request -> Prop) (m : M A) : Prop :=
  forall log : list request,
  exists sent : list request,
    snd (m log) = (log ++ sent)%list /\ Forall P sent.

(** [m] adds at most [n] requests to the log. *)
Definition sends_at_most {A} (n : nat) (m : M A) : Prop :=
  forall log : list request,
  exists sent : list request,
    snd (m log) = (log ++ sent)%list /\ (List.length sent <= n)%nat.

(** Whatever [m] returns satisfies [P]. *)
Definition yields {A} (P : A -> Prop) (m : M A) : Prop :=
  forall (log : list request) (v : A), fst (m log) = inr v -> P v.

(** The most requests a tool call can send. *)
Definition request_budget (c : tool_call) : nat :=
  match c with
  | AddMovie _ q r _ _ =>
      2 + (match q with None => 1 | Some _ => 0 end)
        + (match r with None => 1 | Some _ => 0 end)
  | GetMovieDetails _ _ include_history => if include_history then 2 else 1
  | GetSystemDefaults => 2
  | GetSystemStatus => 3
  | _ => 1
  end.

(** The calls that only read from the upstream. *)
Definition read_only (c : tool_call) : bool :=
  match c with
  | AddMovie _ _ _ _ _ => false
  | DownloadRelease _ _ => false
  | ManageDownloadQueue _ _ _ => false
  | ManageIndexers action _ _ => action =? "list"
  | _ => true
  end.

(** A request made out by the gateway client: one of the four methods,
    a URL under the API prefix of the configured base, the key and
    content-type headers. *)
Definition well_addressed (rt : runtime) (rq : request) : Prop :=
  In (req_method rq) ["GET"; "POST"; "PUT"; "DELETE"] /\
  (exists path : string, req_url rq = RADARR_URL rt ++ "/api/v3/" ++ path) /\
  req_headers rq = [("X-Api-Key", RADARR_API_KEY rt);
                    ("Content-Type", "application/json")].


(** The two shapes a tool result takes: a success object without an
    [error] field, or the object that holds an error message and nothing
    else. *)
Definition success_shape (v : json) : Prop :=
  field v "success" = Some (JBool true) /\ field v "error" = None.

Definition error_shape (v : json) : Prop :=
  exists msg : string, v = error_envelope msg.

Definition one_shape (v : json) : Prop := success_shape v \/ error_shape v.

(** A history answer of [n] grab events. *)
Definition repeat_events (n : nat) : json :=
  JList (repeat (JDict [("eventType", JStr "grabbed")]) n).

(** [x] weighs [c] under the sort key. *)
Definition has_weight (key : json -> res json) (c : Q) (x : json) : bool :=
  match weight key x with
  | Some q => Qeq_bool q c
  | None => false
  end.

Definition key_weighs (c : Q) (kx : json * json) : bool :=
  match num_val (fst kx) with
  | Some q => Qeq_bool q c
  | None => false
  end.

(** The states the session can be in: none made yet and nothing closed, or
    the first one made, the only one, and nothing closed but it. *)
Definition one_session (st : session_state) : Prop :=
  (session st = None /\ constructed st = 0%nat /\ closed st = [])
  \/ (session st = Some 0%nat /\ constructed st = 1%nat
      /\ Forall (eq 0%nat) (closed st)).

(* ===================================================================== *)
(** * Properties *)

(** ** The gateway client *)

Lemma lstrip_slash_letter (c : ascii) (s : string) :
  c <> "/"%char -> lstrip_slash (String c s) = String c s.
Proof.
  intros Hc. simpl.
  destruct c as [[] [] [] [] [] [] [] []]; try reflexivity.
  now elim Hc.
Qed.

(** A call with one of the four methods sends exactly one request and
    hands its outcome on: the body (for DELETE the status object), or
    the exception, a [ClientError] rewrapped. *)
Lemma request_sent (rt : runtime) (endpoint method : string) (data : option json)
    (log : list request) :
  In method ["GET"; "POST"; "PUT"; "DELETE"] ->
  let rq := api rt method (lstrip_slash endpoint)
              (if (method =? "GET") || (method =? "DELETE") then None else data) in
  make_radarr_request rt endpoint method data log
  = (delivered method (respond rt log rq), (log ++ [rq])%list).
Proof.
  intros Hm rq. subst rq.
  unfold make_radarr_request, try_except, bind, send, api.
  simpl in Hm.
  destruct Hm as [<- | [<- | [<- | [<- | []]]]]; simpl;
    match goal with
    | |- context [respond rt log ?r] => destruct (respond rt log r)
    end; reflexivity.
Qed.

Lemma request_get (rt : runtime) (endpoint : string) (log : list request) :
  make_radarr_request rt endpoint "GET" None log
  = (delivered "GET"
       (respond rt log (api rt "GET" (lstrip_slash endpoint) None)),
     (log ++ [api rt "GET" (lstrip_slash endpoint) None])%list).
Proof. apply (request_sent rt endpoint "GET" None log). simpl. auto. Qed.

Lemma request_post (rt : runtime) (endpoint : string) (data : option json)
    (log : list request) :
  make_radarr_request rt endpoint "POST" data log
  = (delivered "POST"
       (respond rt log (api rt "POST" (lstrip_slash endpoint) data)),
     (log ++ [api rt "POST" (lstrip_slash endpoint) data])%list).
Proof. apply (request_sent rt endpoint "POST" data log). simpl. auto. Qed.

Lemma request_delete (rt : runtime) (endpoint : string) (log : list request) :
  make_radarr_request rt endpoint "DELETE" None log
  = (delivered "DELETE"
       (respond rt log (api rt "DELETE" (lstrip_slash endpoint) None)),
     (log ++ [api rt "DELETE" (lstrip_slash endpoint) None])%list).
Proof. apply (request_sent rt endpoint "DELETE" None log). simpl. auto. Qed.

(** ** manage_download_queue *)

(** C3. An action other than "remove", "retry" and "ignore" makes
    manage_download_queue return an object with an [error] field, and the
    request log is left as it was: no upstream call is made. *)
Theorem manage_download_queue_invalid_action :
  forall (rt : runtime) (queue_id : Z) (action : string)
         (remove_from_client : bool) (log : list request),
    action <> "remove" -> action <> "retry" -> action <> "ignore" ->
    manage_download_queue rt queue_id action remove_from_client log
    = (inr (error_envelope
              ("Invalid action: " ++ action
                 ++ ". Use 'remove', 'retry', or 'ignore'")), log).
Proof.
  intros rt queue_id action rfc log Hrm Hre Hig.
  unfold manage_download_queue, try_except.
  destruct (String.eqb_spec action "remove") as [E | _]; [contradiction |].
  destruct (String.eqb_spec action "retry") as [E | _]; [contradiction |].
  destruct (String.eqb_spec action "ignore") as [E | _]; [contradiction |].
  reflexivity.
Qed.

Lemma manage_download_queue_invalid_action_witness :
  manage_download_queue (sample_runtime (always JNull)) 7 "bogus" false []
  = (inr (error_envelope
            "Invalid action: bogus. Use 'remove', 'retry', or 'ignore'"), []).
Proof.
  apply (manage_download_queue_invalid_action
           (sample_runtime (always JNull)) 7 "bogus" false []);
    discriminate.
Defined.

(** C8. For every queue item, "ignore" sends the one request that "remove"
    sends when remove_from_client is false, a DELETE of the queue item
    with removeFromClient=false, whatever remove_from_client is passed
    along with "ignore"; the two receive the same outcome, and the
    objects they return agree in every field but the echo of the action
    name. *)
Theorem ignore_sends_what_remove_without_client_sends :
  forall (rt : runtime) (queue_id : Z) (remove_from_client : bool)
         (log : list request),
    let rq := api rt "DELETE"
                ("queue/" ++ fmt_int queue_id ++ "?removeFromClient=false") None in
    let ignored :=
      manage_download_queue rt queue_id "ignore" remove_from_client log in
    let removed := manage_download_queue rt queue_id "remove" false log in
    snd ignored = (log ++ [rq])%list /\
    snd removed = (log ++ [rq])%list /\
    exists d1 d2 : list (string * json),
      fst ignored = inr (JDict d1) /\
      fst removed = inr (JDict d2) /\
      forall k : string, k <> "action" -> lookup k d1 = lookup k d2.
Proof.
  intros rt queue_id rfc log rq ignored removed.
  subst ignored removed.
  unfold manage_download_queue, try_except, bind. simpl.
  rewrite !request_delete.
  repeat match goal with
         | |- context [respond rt log ?r] => progress change r with rq
         end.
  destruct (respond rt log rq) as [status body | msg | msg]; simpl.
  - repeat split. do 2 eexists. repeat split.
    intros k Hk. simpl.
    destruct (String.eqb_spec k "action") as [E | _]; [contradiction | reflexivity].
  - repeat split. do 2 eexists. repeat split.
  - repeat split. do 2 eexists. repeat split.
Qed.

(** ** manage_indexers *)

(** C10. With action "test", "update" or "delete" and indexer id 0,
    manage_indexers returns the validation error and sends nothing: the
    test on the id is a truth test, which 0 fails like a missing id. *)
Theorem manage_indexers_zero_id_is_missing :
  forall (rt : runtime) (action : string)
         (indexer_data : option (list (string * json))) (log : list request),
    action = "test" \/ action = "update" \/ action = "delete" ->
    manage_indexers rt action (Some 0) indexer_data log
    = (inr (error_envelope "Invalid action or missing required parameters"),
       log)
    /\ manage_indexers rt action (Some 0) indexer_data log
       = manage_indexers rt action None indexer_data log.
Proof.
  intros rt action data log [-> | [-> | ->]]; split; reflexivity.
Qed.

Lemma manage_indexers_zero_id_is_missing_witness :
  manage_indexers (sample_runtime (always JNull)) "delete" (Some 0) None []
  = (inr (error_envelope "Invalid action or missing required parameters"), []).
Proof.
  apply (manage_indexers_zero_id_is_missing
           (sample_runtime (always JNull)) "delete" None []).
  right. right. reflexivity.
Defined.

(** ** add_movie *)

Lemma truthy_dict_cons (d : list (string * json)) :
  d <> [] -> truthy (JDict d) = true.
Proof. destruct d; [intros H; now elim H | reflexivity]. Qed.

Lemma first_or_item (k : string) (fallback : json) (l : list json) (v : json) :
  first_or k fallback l = Some v ->
  (if truthy (JList l)
   then bind_res (first_item (JList l)) (fun p => item p k)
   else ok fallback) = inr v.
Proof.
  destruct l as [| p l]; simpl.
  - intros [= ->]. reflexivity.
  - destruct p; try discriminate. simpl. intros ->. reflexivity.
Qed.

Lemma movie_data_of_dict (d : list (string * json)) (q r : json) (m s : bool) :
  exists body,
    movie_data (JDict d) q r m s = inr (JDict body) /\
    lookup "qualityProfileId" body = Some q /\
    lookup "rootFolderPath" body = Some r.
Proof. eexists. split; [reflexivity |]. split; reflexivity. Qed.

(** C6. Once the lookup by external id has produced a record, add_movie
    fetches the defaults that were not passed, in order, and then sends
    the POST that creates the movie; its body carries the resolved
    quality profile id and root folder: the value passed, else the id
    (path) of the first entry of the upstream list, else 1 ("/movies")
    when that list is empty.  When the lookup produces something empty,
    the result is the "not found" error and the lookup is the only
    request: no movie is created. *)
Theorem add_movie_defaults_and_not_found :
  (forall (rt : runtime) (movie_id : string) (quality_profile_id : option Z)
          (root_folder_path : option string) (monitored search_on_add : bool)
          (log : list request) (s1 s2 s3 : Z) (d : list (string * json))
          (profiles folders : list json) (q r : json),
     let lookup_rq :=
       api rt "GET" ("movie/lookup/tmdb?tmdbId=" ++ movie_id) None in
     let profile_rq := api rt "GET" "qualityprofile" None in
     let folder_rq := api rt "GET" "rootfolder" None in
     let log1 := (log ++ [lookup_rq])%list in
     let log2 := (log1 ++ asked_for quality_profile_id profile_rq)%list in
     let log3 := (log2 ++ asked_for root_folder_path folder_rq)%list in
     respond rt log lookup_rq = Replies s1 (JDict d) ->
     d <> [] ->
     (quality_profile_id = None ->
      respond rt log1 profile_rq = Replies s2 (JList profiles)) ->
     (root_folder_path = None ->
      respond rt log2 folder_rq = Replies s3 (JList folders)) ->
     match quality_profile_id with
     | Some n => Some (JInt n)
     | None => first_or "id" (JInt 1) profiles
     end = Some q ->
     match root_folder_path with
     | Some p => Some (JStr p)
     | None => first_or "path" (JStr "/movies") folders
     end = Some r ->
     exists body : list (string * json),
       snd (add_movie rt movie_id quality_profile_id root_folder_path
              monitored search_on_add log)
       = (log3 ++ [api rt "POST" "movie" (Some (JDict body))])%list
       /\ lookup "qualityProfileId" body = Some q
       /\ lookup "rootFolderPath" body = Some r)
  /\
  (forall (rt : runtime) (movie_id : string) (quality_profile_id : option Z)
          (root_folder_path : option string) (monitored search_on_add : bool)
          (log : list request) (s1 : Z) (found : json),
     let lookup_rq :=
       api rt "GET" ("movie/lookup/tmdb?tmdbId=" ++ movie_id) None in
     respond rt log lookup_rq = Replies s1 found ->
     truthy found = false ->
     add_movie rt movie_id quality_profile_id root_folder_path
       monitored search_on_add log
     = (inr (error_envelope ("Movie with TMDB ID " ++ movie_id ++ " not found")),
        (log ++ [lookup_rq])%list)).
Proof.
  split.
  {
  intros rt movie_id qp rf mon soa log s1 s2 s3 d profiles folders q r
         lookup_rq profile_rq folder_rq log1 log2 log3 Hlook Hd Hprof Hfold Hq Hr.
  destruct (movie_data_of_dict d q r mon soa) as (body & Hbody & Hbq & Hbr).
  exists body. split; [| split; assumption].
  unfold add_movie, try_except, bind.
  rewrite request_get.
  change (api rt "GET" (lstrip_slash ("movie/lookup/tmdb?tmdbId=" ++ movie_id)) None)
    with lookup_rq.
  rewrite Hlook. cbn [delivered String.eqb Ascii.eqb Bool.eqb ok].
  rewrite (truthy_dict_cons d Hd). cbn [negb].
  fold log1.
  assert (Hend : forall lg : list request,
             snd (let (r0, log') :=
                    match movie_data (JDict d) q r mon soa with
                    | inl e => (inl e, lg)
                    | inr a =>
                        let (r1, log'0) :=
                          make_radarr_request rt "movie" "POST" (Some a) lg in
                        match r1 with
                        | inl e => (inl e, log'0)
                        | inr a0 =>
                            match added_movie a0 with
                            | inl e => (inl e, log'0)
                            | inr a1 =>
                                (inr (JDict [("success", JBool true);
                                             ("movie", a1)]), log'0)
                            end
                        end
                    end in
                  match r0 with
                  | inl e => error_result rt e log'
                  | inr a => (inr a, log')
                  end)
             = (lg ++ [api rt "POST" "movie" (Some (JDict body))])%list).
  { intros lg. rewrite Hbody, request_post.
    destruct (respond rt lg _); cbn; try reflexivity.
    destruct (added_movie body0); reflexivity. }
  subst log3 log2.
  destruct qp as [n |]; destruct rf as [p |];
    cbn [asked_for] in *; rewrite ?app_nil_r in *;
    try (injection Hq as <-); try (injection Hr as <-);
    unfold ret, pure.
  - apply Hend.
  - rewrite request_get. change (lstrip_slash "rootfolder") with "rootfolder".
    fold folder_rq. rewrite (Hfold eq_refl). cbn [delivered String.eqb Ascii.eqb Bool.eqb ok].
    rewrite (first_or_item _ _ _ _ Hr). apply Hend.
  - rewrite request_get. change (lstrip_slash "qualityprofile") with "qualityprofile".
    fold profile_rq. rewrite (Hprof eq_refl). cbn [delivered String.eqb Ascii.eqb Bool.eqb ok].
    rewrite (first_or_item _ _ _ _ Hq). apply Hend.
  - rewrite request_get. change (lstrip_slash "qualityprofile") with "qualityprofile".
    fold profile_rq. rewrite (Hprof eq_refl). cbn [delivered String.eqb Ascii.eqb Bool.eqb ok].
    rewrite (first_or_item _ _ _ _ Hq).
    rewrite request_get. change (lstrip_slash "rootfolder") with "rootfolder".
    fold folder_rq. rewrite (Hfold eq_refl). cbn [delivered String.eqb Ascii.eqb Bool.eqb ok].
    rewrite (first_or_item _ _ _ _ Hr). apply Hend. }
  intros rt movie_id qp rf mon soa log s1 found lookup_rq Hlook Hempty.
  unfold add_movie, try_except, bind.
  rewrite request_get.
  change (api rt "GET" (lstrip_slash ("movie/lookup/tmdb?tmdbId=" ++ movie_id)) None)
    with lookup_rq.
  rewrite Hlook. cbn [delivered String.eqb Ascii.eqb Bool.eqb ok].
  rewrite Hempty. reflexivity.
Qed.

Lemma add_movie_defaults_and_not_found_witness :
  (exists body : list (string * json),
     snd (add_movie (sample_runtime tmdb_upstream) "27205" None None true true [])
     = [api (sample_runtime tmdb_upstream) "GET"
          "movie/lookup/tmdb?tmdbId=27205" None;
        api (sample_runtime tmdb_upstream) "GET" "qualityprofile" None;
        api (sample_runtime tmdb_upstream) "GET" "rootfolder" None;
        api (sample_runtime tmdb_upstream) "POST" "movie" (Some (JDict body))]
     /\ lookup "qualityProfileId" body = Some (JInt 1)
     /\ lookup "rootFolderPath" body = Some (JStr "/movies"))
  /\ add_movie (sample_runtime tmdb_upstream) "603" None None true true []
     = (inr (error_envelope "Movie with TMDB ID 603 not found"),
        [api (sample_runtime tmdb_upstream) "GET"
           "movie/lookup/tmdb?tmdbId=603" None]).
Proof.
  split.
  - apply (proj1 add_movie_defaults_and_not_found
             (sample_runtime tmdb_upstream) "27205" None None true true []
             200 200 200 [("title", JStr "Inception")] [] []
             (JInt 1) (JStr "/movies"));
      try reflexivity; discriminate.
  - apply (proj2 add_movie_defaults_and_not_found
             (sample_runtime tmdb_upstream) "603" None None true true []
             200 (JList [])); reflexivity.
Defined.

(** ** Lists and dict displays *)

Lemma mapM_Forall2 {A B} (f : A -> res B) (l : list A) (out : list B) :
  mapM f l = inr out -> Forall2 (fun a b => f a = inr b) l out.
Proof.
  revert out. induction l as [| a l IH]; intros out; simpl.
  - intros [= <-]. constructor.
  - destruct (f a) as [e | b] eqn:Ea; simpl; [discriminate |].
    destruct (mapM f l) as [e | bs]; simpl; [discriminate |].
    intros [= <-]. constructor; auto.
Qed.

Lemma Forall2_mapM {A B} (f : A -> res B) (l : list A) (out : list B) :
  Forall2 (fun a b => f a = inr b) l out -> mapM f l = inr out.
Proof.
  induction 1 as [| a b l out Hab _ IH]; simpl; [reflexivity |].
  now rewrite Hab, IH.
Qed.

Lemma mapM_length {A B} (f : A -> res B) (l : list A) (out : list B) :
  mapM f l = inr out -> List.length out = List.length l.
Proof.
  intros H. apply mapM_Forall2 in H. symmetry. eapply Forall2_length; eauto.
Qed.

Lemma entries_lookup (es : list (string * res json)) (d : list (string * json)) :
  entries es = inr d ->
  forall (k : string) (e : res json),
    entry_for k es = Some e -> exists v, e = inr v /\ lookup k d = Some v.
Proof.
  revert d. induction es as [| [k' e'] es IH]; intros d; simpl.
  - intros _ k e [=].
  - destruct e' as [x | v'] eqn:Ee; simpl; [discriminate |].
    destruct (entries es) as [x | d'] eqn:Ees; simpl; [discriminate |].
    intros [= <-] k e. simpl.
    destruct (String.eqb k k').
    + intros [= <-]. eauto.
    + apply IH. reflexivity.
Qed.

Lemma obj_lookup (es : list (string * res json)) (v : json) :
  obj es = inr v ->
  forall (k : string) (e : res json),
    entry_for k es = Some e -> exists x, e = inr x /\ field v k = Some x.
Proof.
  unfold obj. destruct (entries es) as [x | d] eqn:E; simpl; [discriminate |].
  intros [= <-]. simpl. now apply entries_lookup.
Qed.

(** ** Overviews *)

Lemma characters_nil (s : string) : characters s = [] -> s = EmptyString.
Proof.
  destruct s as [| c s]; [reflexivity |]. simpl.
  destruct (characters s); [discriminate |].
  destruct (continues s); discriminate.
Qed.

Lemma characters_nonempty (s : string) :
  Forall (fun h => h <> EmptyString) (characters s).
Proof.
  induction s as [| c s IH]; simpl; [constructor |].
  destruct (characters s) as [| h t]; [repeat constructor; discriminate |].
  inversion IH; subst.
  destruct (continues s); repeat constructor; try discriminate; assumption.
Qed.

Lemma continues_app (a b : string) :
  a <> EmptyString -> continues (a ++ b) = continues a.
Proof. destruct a; [congruence | reflexivity]. Qed.

(** A text is its first character followed by the others, and both
    parts split into characters as the whole does. *)
Lemma characters_split (s h : string) (t : list string) :
  characters s = h :: t ->
  s = h ++ join t /\ characters h = [h]
  /\ continues (join t) = false /\ characters (join t) = t.
Proof.
  revert h t. induction s as [| c s IH]; intros h t; simpl; [discriminate |].
  destruct (characters s) as [| h' t'] eqn:E.
  - intros [= <- <-]. apply characters_nil in E. subst s. now repeat split.
  - destruct (IH h' t' eq_refl) as (Hs & Hh & Hc & Ht).
    assert (Hne : h' <> EmptyString) by (intros ->; discriminate Hh).
    destruct (continues s) eqn:Ec; intros [= <- <-].
    + split; [simpl; now rewrite <- Hs |].
      split; [| split; assumption].
      assert (Ech : continues h' = true).
      { rewrite <- Ec, Hs. symmetry. now apply continues_app. }
      simpl. now rewrite Hh, Ech.
    + simpl. rewrite <- Hs. repeat split; auto.
Qed.

Lemma characters_app (a b : string) :
  continues b = false ->
  characters (a ++ b) = (characters a ++ characters b)%list.
Proof.
  intros Hb. induction a as [| c a IH]; [reflexivity |].
  cbn [append characters]. rewrite IH.
  destruct a as [| c' a].
  - cbn [append characters app]. rewrite Hb. now destruct (characters b).
  - pose proof (characters_nonempty (String c' a)) as Hne.
    destruct (characters (String c' a)) as [| h t] eqn:E;
      [apply characters_nil in E; discriminate |].
    cbn [app]. rewrite continues_app by discriminate.
    now destruct (continues (String c' a)).
Qed.

Lemma join_characters (s : string) : join (characters s) = s.
Proof.
  induction s as [| c s IH]; [reflexivity |]. simpl.
  destruct (characters s) as [| h t] eqn:E.
  - apply characters_nil in E. now subst s.
  - destruct (continues s); simpl in *; now rewrite IH.
Qed.

Lemma continues_join_firstn (n : nat) (t : list string) :
  Forall (fun h => h <> EmptyString) t ->
  continues (join t) = false -> continues (join (firstn n t)) = false.
Proof.
  intros Hne Hc. destruct n as [| n]; [reflexivity |].
  destruct t as [| h t]; [reflexivity |].
  inversion Hne; subst. cbn [firstn join] in *.
  rewrite continues_app in * by assumption. exact Hc.
Qed.

(** The first [n] characters of a text are [n] characters at most, and
    they are its characters. *)
Lemma characters_first (n : nat) (s : string) :
  characters (first_chars n s) = firstn n (characters s).
Proof.
  unfold first_chars. revert s. induction n as [| n IH]; intros s;
    [reflexivity |].
  destruct (characters s) as [| h t] eqn:E; [reflexivity |].
  destruct (characters_split _ _ _ E) as (_ & Hh & Hc & Ht).
  cbn [firstn join].
  assert (Hne : Forall (fun h => h <> EmptyString) t).
  { rewrite <- Ht. apply characters_nonempty. }
  rewrite characters_app by now apply continues_join_firstn.
  rewrite Hh. cbn [app]. f_equal.
  rewrite <- Ht at 1 2. apply IH.
Qed.

Lemma char_count_app (a b : string) :
  continues b = false -> char_count (a ++ b) = (char_count a + char_count b)%nat.
Proof.
  intros Hb. unfold char_count. now rewrite characters_app, length_app.
Qed.

Lemma char_count_first (n : nat) (s : string) :
  (n <= char_count s)%nat -> char_count (first_chars n s) = n.
Proof.
  intros Hn. unfold char_count in *. rewrite characters_first.
  apply firstn_length_le. exact Hn.
Qed.

Lemma truncated_length (n : nat) (s : string) :
  (char_count (truncated n s) <= n + 3)%nat.
Proof.
  unfold truncated. destruct (Nat.ltb_spec n (char_count s)).
  - rewrite char_count_app by reflexivity.
    rewrite char_count_first by lia. reflexivity.
  - lia.
Qed.

(** What the overview expression yields whenever it yields anything: the
    source overview (the empty string when the record has none), cut to
    its first [n] characters and an ellipsis when it is a longer text. *)
Lemma overview_excerpt_spec (n : nat) (m x : json) :
  overview_excerpt n m = inr x ->
  exists o : json,
    get m "overview" (JStr EmptyString) = inr o /\
    x = shortened n o.
Proof.
  unfold overview_excerpt.
  destruct (get m "overview" (JStr EmptyString)) as [e | o] eqn:Eo; simpl;
    [discriminate |].
  destruct (py_len o) as [e | len] eqn:El; simpl; [discriminate |].
  destruct (Nat.ltb_spec n len) as [Hlt | Hge].
  - destruct o; simpl in *; try discriminate.
    injection El as <-. intros [= <-].
    exists (JStr s). split; [reflexivity |]. cbn [shortened].
    unfold truncated, char_count, first_chars.
    now destruct (Nat.ltb_spec n (List.length (characters s))); [| lia].
  - intros [= <-]. exists o. split; [reflexivity |].
    destruct o; simpl in *; try reflexivity.
    injection El as <-. unfold truncated, char_count.
    now destruct (Nat.ltb_spec n (List.length (characters s))); [lia |].
Qed.

Example characters_of_a_text :
  characters "aé日" = ["a"; "é"; "日"]
  /\ first_chars 2 "é日a" = "é日".
Proof. split; reflexivity. Qed.

(** A cut overview is a text of [n + 3] characters at most. *)
Lemma shortened_length (n : nat) (o : json) (s : string) :
  shortened n o = JStr s -> (char_count s <= n + 3)%nat.
Proof.
  destruct o; try discriminate. cbn [shortened]. intros [= <-].
  apply truncated_length.
Qed.

(** ** search_movies *)

(** C4. When the lookup answers with a list and search_movies succeeds,
    the result lists one entry for each of the first ten upstream
    records, in order, hence at most ten; the overview of an entry is the
    source overview, cut to its first 200 characters followed by "..."
    when it has more than 200 and unchanged otherwise, so that a text
    overview never has more than 203 characters.  Characters are counted
    as [len] counts them: one for each code point, whatever its bytes. *)
Theorem search_movies_caps_and_truncates :
  forall (rt : runtime) (query : string) (year : option Z)
         (log : list request) (st : Z) (results : list json) (v : json),
    respond rt log
      (api rt "GET" ("movie/lookup?term=" ++ search_term query year) None)
    = Replies st (JList results) ->
    fst (search_movies rt query year log) = inr v ->
    succeeded v ->
    exists out : list json,
      v = JDict [("success", JBool true);
                 ("results_count", JNat (List.length out));
                 ("movies", JList out)]
      /\ (List.length out <= 10)%nat
      /\ Forall2
           (fun movie entry =>
              exists o : json,
                get movie "overview" (JStr EmptyString) = inr o /\
                field entry "overview" = Some (shortened 200 o) /\
                forall s : string,
                  shortened 200 o = JStr s -> (char_count s <= 203)%nat)
           (firstn 10 results) out.
Proof.
  intros rt query year log st results v Hreply.
  unfold search_movies, try_except, bind.
  rewrite request_get.
  change (api rt "GET"
            (lstrip_slash ("movie/lookup?term=" ++ search_term query year)) None)
    with (api rt "GET" ("movie/lookup?term=" ++ search_term query year) None).
  rewrite Hreply. cbn [delivered String.eqb Ascii.eqb Bool.eqb ok].
  unfold pure. cbn [slice_to iter bind_res ok].
  destruct (mapM search_entry (firstn 10 results)) as [e | out] eqn:Eout;
    cbn; intros [= <-] Hok.
  - discriminate Hok.
  - exists out. split; [reflexivity |]. split.
    + rewrite (mapM_length _ _ _ Eout). apply firstn_le_length.
    + apply mapM_Forall2 in Eout.
      eapply Forall2_impl; [| exact Eout].
      intros movie entry Hentry.
      destruct (obj_lookup _ _ Hentry "overview" (overview_excerpt 200 movie)
                  eq_refl) as (x & Hx & Hfield).
      destruct (overview_excerpt_spec _ _ _ Hx) as (o & Ho & ->).
      exists o. split; [assumption |]. split; [assumption |].
      intros s. apply (shortened_length 200).
Qed.

Lemma search_movies_caps_and_truncates_witness :
  exists (v : json) (out : list json),
    fst (search_movies (sample_runtime (always (JList lookup_results)))
           "Inception" (Some 2010) []) = inr v
    /\ v = JDict [("success", JBool true);
                  ("results_count", JNat (List.length out));
                  ("movies", JList out)]
    /\ (List.length out <= 10)%nat
    /\ Forall2
         (fun movie entry =>
            exists o : json,
              get movie "overview" (JStr EmptyString) = inr o /\
              field entry "overview" = Some (shortened 200 o) /\
              forall s : string,
                shortened 200 o = JStr s -> (char_count s <= 203)%nat)
         (firstn 10 lookup_results) out.
Proof.
  destruct (search_movies_caps_and_truncates
              (sample_runtime (always (JList lookup_results)))
              "Inception" (Some 2010) [] 200 lookup_results _
              eq_refl eq_refl eq_refl) as (out & Hv & Hlen & Hall).
  eexists _, out. split; [reflexivity |]. auto.
Defined.

(** ** get_movies *)

Lemma filter_filter {A} (p q : A -> bool) (l : list A) :
  filter q (filter p l) = filter (fun x => p x && q x) l.
Proof.
  induction l as [| a l IH]; simpl; [reflexivity |].
  destruct (p a); simpl; [destruct (q a) |]; now rewrite IH.
Qed.

Lemma keep_equal_list (k : string) (wanted : json) (l : list json) (r : json) :
  keep_equal k wanted (JList l) = inr r ->
  r = JList (filter (field_equals k wanted) l).
Proof.
  unfold keep_equal. cbn [iter bind_res ok].
  assert (H : forall kept,
             filterM (fun m => bind_res (get_ m k)
                                 (fun v => ok (py_eq v wanted))) l = inr kept ->
             kept = filter (field_equals k wanted) l).
  { induction l as [| m l IH]; intros kept; simpl.
    - now intros [= <-].
    - destruct m; simpl; try discriminate.
      destruct (filterM _ l) as [e | kept']; simpl; [discriminate |].
      intros [= <-]. now rewrite (IH kept' eq_refl). }
  destruct (filterM _ l) as [e | kept]; simpl; [discriminate |].
  intros [= <-]. now rewrite (H kept eq_refl).
Qed.

Lemma filter_true {A} (l : list A) : filter (fun _ => true) l = l.
Proof. induction l; simpl; congruence. Qed.

Lemma monitored_stage (monitored : option bool) (l : list json) (r : json) :
  match monitored with
  | Some b => keep_equal "monitored" (JBool b) (JList l)
  | None => ok (JList l)
  end = inr r ->
  r = JList (filter (pass_monitored monitored) l).
Proof.
  destruct monitored as [b |]; simpl.
  - apply keep_equal_list.
  - intros [= <-]. now rewrite filter_true.
Qed.

Lemma status_stage (status : option string) (l : list json) (r : json) :
  match status with
  | Some s =>
      if truthy_str status then keep_equal "status" (JStr s) (JList l)
      else ok (JList l)
  | None => ok (JList l)
  end = inr r ->
  r = JList (filter (pass_status status) l).
Proof.
  destruct status as [s |]; simpl.
  - destruct (String.eqb s EmptyString) eqn:E; simpl.
    + intros [= <-]. f_equal. rewrite <- (filter_true l) at 1.
      apply filter_ext. intros m. cbn. now rewrite E.
    + intros H. apply keep_equal_list in H. subst r. f_equal.
      apply filter_ext. intros m. cbn. now rewrite E.
  - intros [= <-]. now rewrite filter_true.
Qed.

Lemma profile_stage (quality_profile_id : option Z) (l : list json) (r : json) :
  match quality_profile_id with
  | Some q =>
      if truthy_int quality_profile_id
      then keep_equal "qualityProfileId" (JInt q) (JList l)
      else ok (JList l)
  | None => ok (JList l)
  end = inr r ->
  r = JList (filter (pass_profile quality_profile_id) l).
Proof.
  destruct quality_profile_id as [q |]; simpl.
  - destruct (q =? 0)%Z eqn:E; simpl.
    + intros [= <-]. f_equal. rewrite <- (filter_true l) at 1.
      apply filter_ext. intros m. cbn. now rewrite E.
    + intros H. apply keep_equal_list in H. subst r. f_equal.
      apply filter_ext. intros m. cbn. now rewrite E.
  - intros [= <-]. now rewrite filter_true.
Qed.

Lemma library_entry_fields (m e : json) :
  library_entry m = inr e ->
  field e "monitored" = Some (value_of "monitored" m) /\
  field e "status" = Some (value_of "status" m).
Proof.
  unfold library_entry.
  destruct m; simpl; try discriminate.
  intros H.
  destruct (obj_lookup _ _ H "monitored" (get_ (JDict d) "monitored") eq_refl)
    as (x & Hx & Hfx).
  destruct (obj_lookup _ _ H "status" (get_ (JDict d) "status") eq_refl)
    as (y & Hy & Hfy).
  injection Hx as <-. injection Hy as <-. auto.
Qed.

(** Python's [==] against a string or a flag. *)
Lemma py_eq_str (x : json) (s : string) :
  py_eq x (JStr s) = true <-> x = JStr s.
Proof.
  destruct x; simpl; try (split; [discriminate | intros [=]]).
  rewrite String.eqb_eq. split; [now intros -> | now intros [= ->]].
Qed.

Lemma py_eq_bool (x : json) (b : bool) :
  py_eq x (JBool b) = true <->
  exists q : Q, num_val x = Some q /\ Qeq q (inject_Z (Z.b2z b)).
Proof.
  destruct x; simpl;
    try (split; [discriminate | intros (q & [=] & _)]).
  - rewrite Qeq_bool_iff. split; [eauto | now intros (q & [= <-] & H)].
  - rewrite Qeq_bool_iff. split; [eauto | now intros (q & [= <-] & H)].
  - rewrite Qeq_bool_iff. split; [eauto | now intros (q' & [= <-] & H)].
Qed.

(** C2, as the code has it. When the upstream answers with a list and
    get_movies succeeds, the returned list holds one entry for each
    upstream movie that passes every applied filter, in upstream order,
    and for no other: the filters are conjoined and a movie failing one
    of them is left out.  A filter compares the record's value with the
    argument by [==].  The monitored filter is applied whenever the flag
    is given; the status filter only for a non-empty string and the
    quality-profile filter only for a non-zero id. *)
Theorem get_movies_keeps_what_passes :
  forall (rt : runtime) (monitored : option bool) (status : option string)
         (quality_profile_id : option Z) (log : list request)
         (st : Z) (movies : list json) (v : json),
    respond rt log (api rt "GET" "movie" None) = Replies st (JList movies) ->
    fst (get_movies rt monitored status quality_profile_id log) = inr v ->
    succeeded v ->
    exists out : list json,
      v = JDict [("success", JBool true);
                 ("total_count", JNat (List.length out));
                 ("movies", JList out)]
      /\ Forall2
           (fun m entry =>
              library_entry m = inr entry /\
              field entry "monitored" = Some (value_of "monitored" m) /\
              field entry "status" = Some (value_of "status" m))
           (filter (passes monitored status quality_profile_id) movies) out.
Proof.
  intros rt monitored status qp log st movies v Hreply.
  unfold get_movies, try_except, bind.
  rewrite request_get.
  change (lstrip_slash "movie") with "movie".
  rewrite Hreply. cbn [delivered String.eqb Ascii.eqb Bool.eqb ok].
  unfold pure.
  destruct (match monitored with
            | Some b => keep_equal "monitored" (JBool b) (JList movies)
            | None => ok (JList movies)
            end) as [e | kept1] eqn:E1;
    [cbn; intros [= <-] Hok; discriminate Hok |].
  apply monitored_stage in E1. subst kept1.
  match goal with
  | |- context [match ?x with inl _ => _ | inr _ => _ end] =>
      destruct x as [e | kept2] eqn:E2;
      [cbn; intros [= <-] Hok; discriminate Hok |]
  end.
  apply status_stage in E2. subst kept2.
  match goal with
  | |- context [match ?x with inl _ => _ | inr _ => _ end] =>
      destruct x as [e | kept3] eqn:E3;
      [cbn; intros [= <-] Hok; discriminate Hok |]
  end.
  apply profile_stage in E3. subst kept3.
  rewrite !filter_filter. cbn [iter bind_res ok].
  match goal with
  | |- context [filter ?f movies] =>
      rewrite (filter_ext f (passes monitored status qp))
        by (intros m; unfold passes; cbv beta;
            rewrite ?andb_assoc; reflexivity)
  end.
  destruct (mapM library_entry (filter (passes monitored status qp) movies))
    as [e | out] eqn:Eout; cbn; intros [= <-] Hok; [discriminate Hok |].
  exists out. split; [reflexivity |].
  apply mapM_Forall2 in Eout.
  eapply Forall2_impl; [| exact Eout].
  intros m entry Hentry. split; [assumption |].
  now apply library_entry_fields.
Qed.

Lemma get_movies_keeps_what_passes_witness :
  exists out : list json,
    fst (get_movies (sample_runtime (always (JList library)))
           (Some true) (Some "released") None [])
    = inr (JDict [("success", JBool true);
                  ("total_count", JNat (List.length out));
                  ("movies", JList out)])
    /\ Forall2
         (fun m entry =>
            library_entry m = inr entry /\
            field entry "monitored" = Some (value_of "monitored" m) /\
            field entry "status" = Some (value_of "status" m))
         (filter (passes (Some true) (Some "released") None) library) out.
Proof.
  destruct (get_movies_keeps_what_passes
              (sample_runtime (always (JList library)))
              (Some true) (Some "released") None [] 200 library _
              eq_refl eq_refl eq_refl) as (out & Hv & Hall).
  exists out. split; [rewrite <- Hv; reflexivity | exact Hall].
Defined.

(** C2, as it is worded, fails: a status that is given but empty filters
    nothing, so a returned movie need not carry the status passed. *)
Lemma get_movies_empty_status_filters_nothing :
  ~ (forall (rt : runtime) (monitored : option bool) (status : option string)
            (quality_profile_id : option Z) (log : list request)
            (v : json) (out : list json) (entry : json),
       fst (get_movies rt monitored status quality_profile_id log) = inr v ->
       field v "movies" = Some (JList out) ->
       In entry out ->
       (forall b : bool, monitored = Some b ->
          exists x, field entry "monitored" = Some x /\ py_eq x (JBool b) = true)
       /\
       (forall s : string, status = Some s ->
          exists x, field entry "status" = Some x /\ py_eq x (JStr s) = true)).
Proof.
  intros H.
  pose proof (H (sample_runtime (always (JList library)))
                None (Some EmptyString) None []) as H1.
  cbn in H1.
  destruct (H1 _ _ _ eq_refl eq_refl (or_introl eq_refl)) as [_ Hs].
  destruct (Hs EmptyString eq_refl) as (x & Hx & Heq).
  cbn in Hx. injection Hx as <-. discriminate Heq.
Qed.

(** ** Sorting *)

(** A comparison that succeeds with a number on one side has a number on
    the other, and compares the two by value. *)
Lemma py_lt_num_l (a b : json) (c : bool) (p : Q) :
  py_lt a b = inr c -> num_val a = Some p ->
  exists q : Q, num_val b = Some q /\ c = negb (Qle_bool q p).
Proof.
  destruct a; simpl; try discriminate; intros H [= <-];
    destruct b; simpl in H; try discriminate;
    injection H as <-; eexists; split; reflexivity.
Qed.

Lemma py_lt_num_r (a b : json) (c : bool) (q : Q) :
  py_lt a b = inr c -> num_val b = Some q ->
  exists p : Q, num_val a = Some p /\ c = negb (Qle_bool q p).
Proof.
  destruct b; simpl; try discriminate; intros H [= <-];
    destruct a; simpl in H; try discriminate;
    injection H as <-; eexists; split; reflexivity.
Qed.

Lemma insert_desc_perm (x : json * json) (l r : list (json * json)) :
  insert_desc x l = inr r -> Permutation r (x :: l).
Proof.
  revert r. induction l as [| y l IH]; intros r; simpl.
  - intros [= <-]. apply Permutation_refl.
  - destruct (py_lt (fst x) (fst y)) as [e | []]; simpl; try discriminate.
    + destruct (insert_desc x l) as [e | r']; simpl; [discriminate |].
      intros [= <-].
      apply Permutation_trans with (y :: x :: l).
      * apply perm_skip. now apply IH.
      * apply perm_swap.
    + intros [= <-]. apply Permutation_refl.
Qed.

Lemma sort_desc_perm (l s : list (json * json)) :
  sort_desc l = inr s -> Permutation s l.
Proof.
  revert s. induction l as [| x l IH]; intros s; simpl.
  - intros [= <-]. apply Permutation_refl.
  - destruct (sort_desc l) as [e | s']; simpl; [discriminate |].
    intros H. apply insert_desc_perm in H.
    apply Permutation_trans with (x :: s'); [assumption |].
    apply perm_skip. now apply IH.
Qed.

Lemma insert_desc_sorted (x : json * json) (l r : list (json * json)) :
  StronglySorted key_outweighs l ->
  insert_desc x l = inr r ->
  StronglySorted key_outweighs r.
Proof.
  revert r. induction l as [| y l IH]; intros r Hs; simpl.
  - intros [= <-]. repeat constructor.
  - inversion Hs as [| y' l' Hsl Hall]; subst.
    destruct (py_lt (fst x) (fst y)) as [e | below] eqn:Elt; simpl;
      [discriminate |].
    destruct below.
    + destruct (insert_desc x l) as [e | r'] eqn:Er; simpl; [discriminate |].
      intros [= <-]. constructor; [now apply IH |].
      apply (Permutation_Forall (Permutation_sym (insert_desc_perm _ _ _ Er))).
      constructor; [| assumption].
      intros p q Hp Hq.
      destruct (py_lt_num_l _ _ _ _ Elt Hq) as (p' & Hp' & Hc).
      rewrite Hp in Hp'. injection Hp' as <-.
      symmetry in Hc. apply negb_true_iff in Hc.
      apply Qlt_le_weak, Qnot_le_lt. intros Hle.
      apply Qle_bool_iff in Hle. congruence.
    + intros [= <-].
      assert (Hxy : key_outweighs x y).
      { intros p q Hp Hq.
        destruct (py_lt_num_l _ _ _ _ Elt Hp) as (q' & Hq' & Hc).
        rewrite Hq in Hq'. injection Hq' as <-.
        symmetry in Hc. apply negb_false_iff in Hc.
        now apply Qle_bool_iff. }
      constructor; [assumption |].
      constructor; [assumption |].
      rewrite Forall_forall in Hall |- *.
      intros z Hz p q Hp Hq.
      destruct (py_lt_num_l _ _ _ _ Elt Hp) as (m & Hm & _).
      apply Qle_trans with m.
      * now apply (Hall z Hz m q).
      * now apply (Hxy p m).
Qed.

Lemma sort_desc_sorted (l s : list (json * json)) :
  sort_desc l = inr s -> StronglySorted key_outweighs s.
Proof.
  revert s. induction l as [| x l IH]; intros s; simpl.
  - intros [= <-]. constructor.
  - destruct (sort_desc l) as [e | s'] eqn:Es; simpl; [discriminate |].
    apply insert_desc_sorted. now apply IH.
Qed.

Lemma with_key_items (key : json -> res json) (l : list json)
    (keyed : list (json * json)) :
  mapM (with_key key) l = inr keyed ->
  map snd keyed = l /\ Forall (fun kx => key (snd kx) = inr (fst kx)) keyed.
Proof.
  revert keyed. induction l as [| x l IH]; intros keyed; simpl.
  - intros [= <-]. split; constructor.
  - unfold with_key at 1.
    destruct (key x) as [e | k] eqn:Ek; simpl; [discriminate |].
    destruct (mapM (with_key key) l) as [e | keyed']; simpl; [discriminate |].
    intros [= <-]. destruct (IH keyed' eq_refl) as [Hmap Hall].
    split; simpl; [now rewrite Hmap | now constructor].
Qed.

Lemma sorted_items (key : json -> res json) (s : list (json * json)) :
  Forall (fun kx => key (snd kx) = inr (fst kx)) s ->
  StronglySorted key_outweighs s ->
  StronglySorted (outweighs key) (map snd s).
Proof.
  induction s as [| a s IH]; intros Hkeys Hs; simpl; [constructor |].
  inversion Hkeys as [| a' s' Ha Hrest]; subst.
  inversion Hs as [| a' s' Hss Hall]; subst.
  constructor; [now apply IH |].
  rewrite Forall_map.
  rewrite Forall_forall in Hall, Hrest |- *.
  intros b Hb p q Hp Hq.
  unfold weight in Hp, Hq. rewrite Ha in Hp. rewrite (Hrest b Hb) in Hq.
  now apply (Hall b Hb).
Qed.

(** [sort(key=..., reverse=True)] on a list, when it goes through, leaves
    the same items, no item before one that outweighs it. *)
Lemma sort_reverse_spec (key : json -> res json) (l : list json) (r : json) :
  sort_reverse key (JList l) = inr r ->
  exists sorted : list json,
    r = JList sorted /\ Permutation sorted l /\
    StronglySorted (outweighs key) sorted.
Proof.
  unfold sort_reverse.
  destruct (mapM (with_key key) l) as [e | keyed] eqn:Ek; simpl;
    [discriminate |].
  destruct (sort_desc keyed) as [e | s] eqn:Es; simpl; [discriminate |].
  intros [= <-]. exists (map snd s).
  destruct (with_key_items _ _ _ Ek) as [Hmap Hkeys].
  pose proof (sort_desc_perm _ _ Es) as Hperm.
  split; [reflexivity |]. split.
  - rewrite <- Hmap. now apply Permutation_map.
  - apply sorted_items; [| now apply (sort_desc_sorted keyed)].
    now apply (Permutation_Forall (Permutation_sym Hperm)).
Qed.

(** On keys that are all numbers the sort goes through. *)
Lemma py_lt_numbers (a b : json) (p q : Q) :
  num_val a = Some p -> num_val b = Some q ->
  py_lt a b = inr (negb (Qle_bool q p)).
Proof.
  destruct a; simpl; try discriminate; intros [= <-];
    destruct b; simpl; try discriminate; intros [= <-]; reflexivity.
Qed.

Lemma insert_desc_numbers (x : json * json) (l : list (json * json)) :
  num_val (fst x) <> None ->
  Forall (fun y => num_val (fst y) <> None) l ->
  exists r, insert_desc x l = inr r.
Proof.
  intros Hx. induction 1 as [| y l Hy _ IH]; simpl; [eauto |].
  destruct (num_val (fst x)) as [p |] eqn:Ep; [| now elim Hx].
  destruct (num_val (fst y)) as [q |] eqn:Eq; [| now elim Hy].
  rewrite (py_lt_numbers _ _ _ _ Ep Eq). simpl.
  destruct (negb (Qle_bool q p)); [| eauto].
  destruct IH as (r & ->). simpl. eauto.
Qed.

Lemma sort_desc_numbers (l : list (json * json)) :
  Forall (fun y => num_val (fst y) <> None) l ->
  exists s, sort_desc l = inr s.
Proof.
  induction 1 as [| x l Hx Hl IH]; simpl; [eauto |].
  destruct IH as (s & Hs). rewrite Hs. simpl.
  apply insert_desc_numbers; [assumption |].
  apply (Permutation_Forall (Permutation_sym (sort_desc_perm _ _ Hs))).
  assumption.
Qed.

Lemma sort_reverse_numbers (key : json -> res json) (l : list json) :
  Forall (fun x => exists k, key x = inr k /\ num_val k <> None) l ->
  exists r, sort_reverse key (JList l) = inr r.
Proof.
  intros Hl. unfold sort_reverse.
  assert (Hkeyed : exists keyed,
             mapM (with_key key) l = inr keyed /\
             Forall (fun y => num_val (fst y) <> None) keyed).
  { induction Hl as [| x l (k & Hk & Hn) _ (keyed & Hm & Hall)]; simpl.
    - eexists. split; [reflexivity | constructor].
    - unfold with_key at 1. rewrite Hk. simpl. rewrite Hm. simpl.
      eexists. split; [reflexivity |]. now constructor. }
  destruct Hkeyed as (keyed & -> & Hall). simpl.
  destruct (sort_desc_numbers keyed Hall) as (s & ->). simpl. eauto.
Qed.

(** ** search_movie_releases *)

Lemma release_entry_fields (r e : json) :
  release_entry r = inr e ->
  field e "seeders" = Some (value_of "seeders" r) /\
  field e "size" = Some (value_of "size" r).
Proof.
  unfold release_entry.
  destruct r; simpl; try discriminate.
  intros H.
  destruct (obj_lookup _ _ H "seeders" (get_ (JDict d) "seeders") eq_refl)
    as (x & Hx & Hfx).
  destruct (obj_lookup _ _ H "size" (get_ (JDict d) "size") eq_refl)
    as (y & Hy & Hfy).
  injection Hx as <-. injection Hy as <-. auto.
Qed.

(** A sort that goes through has taken the key of every item. *)
Lemma sort_reverse_keys (key : json -> res json) (l : list json) (r : json) :
  sort_reverse key (JList l) = inr r ->
  Forall (fun x => exists k, key x = inr k) l.
Proof.
  unfold sort_reverse.
  destruct (mapM (with_key key) l) as [e | keyed] eqn:Ek; simpl;
    [discriminate |].
  intros _. destruct (with_key_items _ _ _ Ek) as [Hmap Hkeys].
  rewrite <- Hmap, Forall_map. eapply Forall_impl; [| exact Hkeys].
  intros kx Hkx. exists (fst kx). exact Hkx.
Qed.

Lemma StronglySorted_among {A} (R R' : A -> A -> Prop) (l : list A) :
  (forall a b, In a l -> In b l -> R a b -> R' a b) ->
  StronglySorted R l -> StronglySorted R' l.
Proof.
  induction l as [| x l IH]; intros Himp Hs; [constructor |].
  inversion Hs as [| x' l' Hsl Hall]; subst.
  constructor.
  - apply IH; [| assumption]. intros a b Ha Hb. apply Himp; now right.
  - rewrite Forall_forall in Hall |- *. intros b Hb.
    apply Himp; [now left | now right | now apply Hall].
Qed.

(** What each key of search_movie_releases reads from a release: the
    seeder count, the size, the id of the quality inside the quality. *)
Lemma sort_key_reads (sort_by : string) :
  In sort_by ["seeders"; "size"; "quality"] ->
  exists key : json -> res json,
    sort_key (Some sort_by) = Some key /\
    forall (x k : json), key x = inr k -> weight key x = sort_weight sort_by x.
Proof.
  cbn [In]. intros [<- | [<- | [<- | []]]]; eexists; (split; [reflexivity |]);
    intros x k Hk; unfold weight; rewrite Hk;
    unfold sort_weight; cbn [String.eqb Ascii.eqb Bool.eqb]; f_equal.
  - destruct x; try discriminate Hk. cbn in Hk |- *. unfold value_or. cbn.
    now injection Hk as <-.
  - destruct x; try discriminate Hk. cbn in Hk |- *. unfold value_or. cbn.
    now injection Hk as <-.
  - unfold quality_of in Hk.
    destruct x as [| | | | | | d]; try discriminate Hk.
    cbn [get bind_res ok] in Hk. unfold value_or at 3. cbn [field].
    destruct (lookup "quality" d) as [q |].
    + destruct q as [| | | | | | dq]; try discriminate Hk.
      cbn [get bind_res ok] in Hk. unfold value_or at 2. cbn [field].
      destruct (lookup "quality" dq) as [qq |].
      * destruct qq as [| | | | | | dqq]; try discriminate Hk.
        cbn [get ok] in Hk. unfold value_or. cbn [field].
        now injection Hk as <-.
      * cbn in Hk. unfold value_or. cbn. now injection Hk as <-.
    + cbn in Hk. unfold value_or. cbn. now injection Hk as <-.
Qed.

(** C5. When the upstream answers with a list and search_movie_releases
    succeeds with sort_by "seeders", the entries returned are those of
    the first twenty releases of a rearrangement of the upstream list in
    which no release comes before one with a greater seeder count, the
    counts compared as numbers and a missing count taken as 0; hence
    they are at most twenty and in descending order.  The same holds for
    "size" on the size and for "quality" on the id of the quality inside
    the quality of a release. *)
Theorem search_movie_releases_sorted_and_capped :
  forall (rt : runtime) (movie_id : Z) (sort_by : string)
         (log : list request) (st : Z) (releases : list json) (v : json),
    In sort_by ["seeders"; "size"; "quality"] ->
    respond rt log (api rt "GET" ("release?movieId=" ++ fmt_int movie_id) None)
    = Replies st (JList releases) ->
    fst (search_movie_releases rt movie_id (Some sort_by) log) = inr v ->
    succeeded v ->
    exists sorted out : list json,
      Permutation sorted releases
      /\ StronglySorted (ranks_first sort_by) sorted
      /\ v = JDict [("success", JBool true);
                    ("releases_count", JNat (List.length out));
                    ("releases", JList out)]
      /\ (List.length out <= 20)%nat
      /\ Forall2
           (fun release entry =>
              release_entry release = inr entry /\
              field entry "seeders" = Some (value_of "seeders" release) /\
              field entry "size" = Some (value_of "size" release))
           (firstn 20 sorted) out.
Proof.
  intros rt movie_id sort_by log st releases v Hname Hreply.
  unfold search_movie_releases, try_except, bind.
  rewrite request_get.
  change (api rt "GET" (lstrip_slash ("release?movieId=" ++ fmt_int movie_id)) None)
    with (api rt "GET" ("release?movieId=" ++ fmt_int movie_id) None).
  rewrite Hreply. cbn [delivered String.eqb Ascii.eqb Bool.eqb ok].
  unfold pure.
  destruct (sort_key_reads sort_by Hname) as (key & Hsk & Hreads).
  rewrite Hsk.
  destruct (sort_reverse key (JList releases)) as [e | r] eqn:Esort;
    [cbn; intros [= <-] Hok; discriminate Hok |].
  pose proof (sort_reverse_keys _ _ _ Esort) as Hkeys.
  destruct (sort_reverse_spec _ _ _ Esort) as (sorted & -> & Hperm & Hsorted).
  cbn [slice_to iter bind_res ok].
  destruct (mapM release_entry (firstn 20 sorted)) as [e | out] eqn:Eout;
    cbn; intros [= <-] Hok; [discriminate Hok |].
  exists sorted, out.
  split; [assumption |]. split; [| split; [reflexivity | split]].
  - apply (StronglySorted_among (outweighs key)); [| assumption].
    apply (Permutation_Forall (Permutation_sym Hperm)) in Hkeys.
    rewrite Forall_forall in Hkeys.
    intros a b Ha Hb Hab p q Hp Hq.
    destruct (Hkeys a Ha) as (ka & Hka). destruct (Hkeys b Hb) as (kb & Hkb).
    apply Hab.
    + now rewrite (Hreads a ka Hka).
    + now rewrite (Hreads b kb Hkb).
  - rewrite (mapM_length _ _ _ Eout). apply firstn_le_length.
  - apply mapM_Forall2 in Eout.
    eapply Forall2_impl; [| exact Eout].
    intros release entry Hentry. split; [assumption |].
    now apply release_entry_fields.
Qed.

Lemma search_movie_releases_sorted_and_capped_witness :
  exists sorted out : list json,
    Permutation sorted graded_releases
    /\ StronglySorted (ranks_first "quality") sorted
    /\ fst (search_movie_releases
              (sample_runtime (always (JList graded_releases)))
              5 (Some "quality") [])
       = inr (JDict [("success", JBool true);
                     ("releases_count", JNat (List.length out));
                     ("releases", JList out)])
    /\ (List.length out <= 20)%nat.
Proof.
  destruct (search_movie_releases_sorted_and_capped
              (sample_runtime (always (JList graded_releases))) 5 "quality"
              [] 200 graded_releases _
              (or_intror (or_intror (or_introl eq_refl)))
              eq_refl eq_refl eq_refl)
    as (sorted & out & Hperm & Hsorted & Hv & Hlen & _).
  exists sorted, out.
  split; [assumption |]. split; [assumption |].
  split; [rewrite <- Hv; reflexivity | assumption].
Defined.

(** ** Dates *)

Ltac enum z lo n :=
  lazymatch n with
  | O => exfalso; lia
  | S ?n' =>
      let lo' := eval compute in (lo + 1)%Z in
      destruct (Z.eq_dec z lo) as [-> | ?]; [| enum z lo' n']
  end.

Lemma digit_roundtrip (n : Z) :
  0 <= n <= 9 -> digit_of (digit_char n) = Some n.
Proof. intros H. enum n 0 10%nat; reflexivity. Qed.

Lemma year_roundtrip (y : Z) (rest : list ascii) :
  0 <= y <= 9999 ->
  parse_year (digit_char (y / 1000) :: digit_char (y / 100 mod 10)
                :: digit_char (y mod 100 / 10) :: digit_char (y mod 100 mod 10)
                :: rest)
  = Some (y, rest).
Proof.
  intros H. unfold parse_year.
  rewrite !digit_roundtrip by (Z.div_mod_to_equations; lia).
  do 2 f_equal. Z.div_mod_to_equations; lia.
Qed.

Lemma month_roundtrip (m : Z) (rest : list ascii) :
  1 <= m <= 12 ->
  parse_month (digit_char (m / 10) :: digit_char (m mod 10) :: "-"%char :: rest)
  = Some (m, rest).
Proof. intros H. enum m 1 12%nat; reflexivity. Qed.

Lemma day_roundtrip (d : Z) :
  1 <= d <= 31 ->
  parse_day [digit_char (d / 10); digit_char (d mod 10)] = Some d.
Proof. intros H. enum d 1 31%nat; reflexivity. Qed.

Lemma days_in_month_bounds (y m : Z) : 28 <= days_in_month y m <= 31.
Proof.
  unfold days_in_month.
  destruct (m =? 2)%Z; [destruct (is_leap y); lia |].
  destruct ((m =? 4) || (m =? 6) || (m =? 9) || (m =? 11))%Z; lia.
Qed.

(** Parsing what [strftime] prints gives the date back. *)
Lemma strptime_strftime (d : date) :
  valid_date d -> strptime (strftime d) = inr d.
Proof.
  destruct d as [y m dd]. unfold valid_date. simpl.
  intros (Hy & Hm & Hd).
  pose proof (days_in_month_bounds y m) as Hdim.
  unfold strptime, strftime, pad4, pad2. cbn [year month day].
  cbn [append list_ascii_of_string].
  rewrite year_roundtrip by lia.
  rewrite month_roundtrip by lia.
  rewrite day_roundtrip by lia.
  destruct (Z.leb_spec 1 y); [| lia].
  destruct (Z.leb_spec dd (days_in_month y m)); [| lia].
  reflexivity.
Qed.

Lemma days_before_next_month (y m : Z) :
  1 <= m ->
  days_before_month y (m + 1) = days_before_month y m + days_in_month y m.
Proof.
  intros Hm. unfold days_before_month.
  replace (Z.to_nat (m + 1 - 1)) with (S (Z.to_nat (m - 1))) by lia.
  cbn [days_before_month_n]. do 2 f_equal. lia.
Qed.

Lemma days_in_year (y : Z) :
  days_before_year (y + 1)
  = days_before_year y + days_before_month y 12 + 31.
Proof.
  unfold days_before_year, days_before_month.
  change (Z.to_nat (12 - 1)) with 11%nat.
  cbn [days_before_month_n Z.of_nat Pos.of_succ_nat Pos.succ].
  unfold days_in_month, is_leap. cbn [Z.eqb Pos.eqb orb].
  replace (y + 1 - 1) with y by lia.
  destruct (Z.eqb_spec (y mod 4) 0); destruct (Z.eqb_spec (y mod 100) 0);
    destruct (Z.eqb_spec (y mod 400) 0); cbn [andb orb negb];
    Z.div_mod_to_equations; lia.
Qed.

(** The day after a date [datetime] can hold is the next in the count,
    and is again such a date unless the years have run out. *)
Lemma next_day_ordinal (d : date) :
  valid_date d ->
  ordinal (next_day d) = ordinal d + 1 /\
  year d <= year (next_day d) /\
  (year (next_day d) <= 9999 -> valid_date (next_day d)).
Proof.
  destruct d as [y m dd]. unfold valid_date, next_day, ordinal.
  cbn [year month day]. intros (Hy & Hm & Hd).
  destruct (Z.ltb_spec dd (days_in_month y m)); cbn [year month day].
  - repeat split; lia.
  - destruct (Z.ltb_spec m 12); cbn [year month day].
    + pose proof (days_in_month_bounds y (m + 1)).
      rewrite days_before_next_month by lia. repeat split; lia.
    + assert (m = 12) by lia. subst m.
      assert (Hdim : days_in_month y 12 = 31) by reflexivity.
      rewrite Hdim in *.
      rewrite days_in_year.
      change (days_before_month (y + 1) 1) with 0.
      change (days_in_month (y + 1) 1) with 31.
      repeat split; lia.
Qed.

Lemma add_days_ordinal (n : nat) (d e : date) :
  valid_date d -> add_days n d = inr e ->
  valid_date e /\ ordinal e = ordinal d + Z.of_nat n.
Proof.
  intros Hd. unfold add_days.
  destruct (Z.leb_spec (year (Nat.iter n next_day d)) 9999) as [Hle |];
    [| discriminate].
  intros [= <-]. revert Hle.
  induction n as [| n IH]; intros Hle.
  - cbn. split; [assumption | lia].
  - change (Nat.iter (S n) next_day d)
      with (next_day (Nat.iter n next_day d)) in *.
    set (prev := Nat.iter n next_day d) in *.
    assert (Hprev : valid_date prev /\ ordinal prev = ordinal d + Z.of_nat n).
    { destruct (Z.le_gt_cases (year prev) 9999) as [H | H]; [now apply IH |].
      exfalso.
      assert (Hmono : forall x : date, year x <= year (next_day x)).
      { intros x. unfold next_day.
        destruct (day x <? days_in_month (year x) (month x))%Z;
          [cbn; lia |].
        destruct (month x <? 12)%Z; cbn; lia. }
      specialize (Hmono prev). lia. }
    destruct Hprev as [Hv Ho].
    destruct (next_day_ordinal prev Hv) as (Hn & _ & Hvalid).
    split; [now apply Hvalid | lia].
Qed.

Lemma digit_of_bound (c : ascii) (n : Z) : digit_of c = Some n -> 0 <= n <= 9.
Proof.
  unfold digit_of.
  destruct ((48 <=? nat_of_ascii c) && (nat_of_ascii c <=? 57))%nat eqn:E;
    [| discriminate].
  apply andb_true_iff in E. destruct E as [H1 H2].
  apply Nat.leb_le in H1, H2. intros [= <-]. lia.
Qed.

Lemma nonzero_digit_of_bound (c : ascii) (n : Z) :
  nonzero_digit_of c = Some n -> 1 <= n <= 9.
Proof.
  unfold nonzero_digit_of.
  destruct (digit_of c) as [k |] eqn:E; [| discriminate].
  apply digit_of_bound in E.
  destruct (Z.eqb_spec k 0); [discriminate |]. intros [= <-]. lia.
Qed.

Lemma parse_year_bound (l rest : list ascii) (y : Z) :
  parse_year l = Some (y, rest) -> 0 <= y <= 9999.
Proof.
  unfold parse_year.
  destruct l as [| a [| b [| c [| d l]]]]; try discriminate.
  destruct (digit_of a) as [a' |] eqn:Ea; [| discriminate].
  destruct (digit_of b) as [b' |] eqn:Eb; [| discriminate].
  destruct (digit_of c) as [c' |] eqn:Ec; [| discriminate].
  destruct (digit_of d) as [d' |] eqn:Ed; [| discriminate].
  apply digit_of_bound in Ea, Eb, Ec, Ed. intros H.
  assert (Hy : y = 1000 * a' + 100 * b' + 10 * c' + d') by congruence.
  lia.
Qed.

Lemma parse_month_bound (l rest : list ascii) (m : Z) :
  parse_month l = Some (m, rest) -> 1 <= m <= 12.
Proof.
  unfold parse_month.
  destruct l as [| a [| b l]]; try discriminate.
  destruct (Ascii.eqb b "-").
  - destruct (nonzero_digit_of a) as [k |] eqn:E; [| discriminate].
    apply nonzero_digit_of_bound in E. intros [= <- _]. lia.
  - destruct l as [| c l]; [discriminate |].
    destruct (digit_of a) as [a' |] eqn:Ea; [| discriminate].
    destruct (digit_of b) as [b' |] eqn:Eb; [| discriminate].
    apply digit_of_bound in Ea, Eb.
    destruct (negb (Ascii.eqb c "-")); [discriminate |].
    destruct (Z.eqb_spec a' 1); destruct (Z.leb_spec b' 2); cbn [andb];
      try (intros Hsome; assert (m = 10 + b') by congruence; lia);
      destruct (Z.eqb_spec a' 0); destruct (Z.leb_spec 1 b'); cbn [andb];
      try discriminate; intros Hsome; assert (m = b') by congruence; lia.
Qed.

Lemma parse_day_bound (l : list ascii) (d : Z) :
  parse_day l = Some d -> 1 <= d <= 31.
Proof.
  unfold parse_day.
  destruct l as [| a [| b [| c l]]]; try discriminate.
  - intros H. apply nonzero_digit_of_bound in H. lia.
  - destruct (Ascii.eqb a " ").
    + intros H. apply nonzero_digit_of_bound in H. lia.
    + destruct (digit_of a) as [a' |] eqn:Ea; [| discriminate].
      destruct (digit_of b) as [b' |] eqn:Eb; [| discriminate].
      apply digit_of_bound in Ea, Eb.
      destruct (Z.eqb_spec a' 3); destruct (Z.leb_spec b' 1); cbn [andb];
        try (intros Hsome; assert (d = 30 + b') by congruence; lia);
        destruct (Z.leb_spec 1 a'); destruct (Z.leb_spec a' 2); cbn [andb];
        try (intros Hsome; assert (d = 10 * a' + b') by congruence; lia);
        destruct (Z.eqb_spec a' 0); destruct (Z.leb_spec 1 b'); cbn [andb];
        try discriminate; intros Hsome; assert (d = b') by congruence; lia.
Qed.

(** [strptime] yields only dates [datetime] can hold. *)
Lemma strptime_valid (s : string) (d : date) :
  strptime s = inr d -> valid_date d.
Proof.
  unfold strptime.
  destruct (parse_year (list_ascii_of_string s)) as [[y l0] |] eqn:Ey;
    [| discriminate].
  destruct l0 as [| dash l1]; [discriminate |].
  destruct dash as [[] [] [] [] [] [] [] []]; try discriminate.
  destruct (parse_month l1) as [[m l2] |] eqn:Em; [| discriminate].
  destruct (parse_day l2) as [dd |] eqn:Ed; [| discriminate].
  apply parse_year_bound in Ey. apply parse_month_bound in Em.
  apply parse_day_bound in Ed.
  destruct (Z.leb_spec 1 y); destruct (Z.leb_spec dd (days_in_month y m));
    cbn [andb]; try discriminate.
  intros [= <-]. unfold valid_date. cbn [year month day]. lia.
Qed.

(** ** get_calendar *)

(** Whatever the upstream answers, get_calendar sends one request once the
    two dates are settled. *)
Lemma calendar_request (rt : runtime) (start_text end_text : string)
    (log : list request) (k : json -> M json) :
  (forall (calendar : json) (lg : list request), snd (k calendar lg) = lg) ->
  snd (try_except
         (bind (make_radarr_request rt
                  ("calendar?start=" ++ start_text ++ "&end=" ++ end_text)
                  "GET" None) k)
         (error_result rt) log)
  = (log ++ [api rt "GET"
               ("calendar?start=" ++ start_text ++ "&end=" ++ end_text) None])%list.
Proof.
  intros Hk. unfold try_except, bind. rewrite request_get.
  change (lstrip_slash ("calendar?start=" ++ start_text ++ "&end=" ++ end_text))
    with ("calendar?start=" ++ start_text ++ "&end=" ++ end_text).
  destruct (respond rt log _); cbn; try reflexivity.
  specialize (Hk body (log ++ [api rt "GET"
               ("calendar?start=" ++ start_text ++ "&end=" ++ end_text) None])%list).
  destruct (k body _) as [[e | v] lg]; cbn in *; congruence.
Qed.

Lemma get_calendar_sends (rt : runtime) (start_date end_date : option string)
    (start_text end_text : string) (log : list request) :
  match start_date with
  | Some s => if truthy_str start_date then s else strftime (now rt)
  | None => strftime (now rt)
  end = start_text ->
  match end_date with
  | Some s => if truthy_str end_date then ok s
              else bind_res (strptime start_text) (fun start =>
                   bind_res (add_days 30 start) (fun end_dt =>
                   ok (strftime end_dt)))
  | None => bind_res (strptime start_text) (fun start =>
            bind_res (add_days 30 start) (fun end_dt => ok (strftime end_dt)))
  end = inr end_text ->
  snd (get_calendar rt start_date end_date log)
  = (log ++ [api rt "GET"
               ("calendar?start=" ++ start_text ++ "&end=" ++ end_text) None])%list.
Proof.
  intros Hstart Hend. unfold get_calendar.
  rewrite Hstart. cbv zeta.
  unfold bind at 1, pure at 1, try_except at 1.
  rewrite Hend.
  apply (calendar_request rt start_text end_text log).
  intros calendar lg. unfold bind, pure, ret.
  destruct (bind_res (iter calendar) (fun l => mapM calendar_entry l));
    reflexivity.
Qed.

(** C7. With a start date that [strptime] accepts and no end date,
    get_calendar sends one request, whose start is the text passed and
    whose end is the date thirty days later in the day count (the second
    part: start "2024-01-01" gives end "2024-01-31").  With no start date
    either, the start is the current date.  Dates that are both passed go
    through as they are. *)
Theorem get_calendar_default_dates :
  (forall (rt : runtime) (start_date : string) (end_date : option string)
          (log : list request) (d e : date),
     start_date <> EmptyString ->
     truthy_str end_date = false ->
     strptime start_date = inr d ->
     add_days 30 d = inr e ->
     ordinal e = ordinal d + 30 /\
     snd (get_calendar rt (Some start_date) end_date log)
     = (log ++ [api rt "GET"
                  ("calendar?start=" ++ start_date ++ "&end=" ++ strftime e)
                  None])%list)
  /\
  (forall (rt : runtime) (end_date : option string) (log : list request),
     truthy_str end_date = false ->
     snd (get_calendar rt (Some "2024-01-01") end_date log)
     = (log ++ [api rt "GET" "calendar?start=2024-01-01&end=2024-01-31"
                  None])%list)
  /\
  (forall (rt : runtime) (start_date end_date : option string)
          (log : list request) (e : date),
     truthy_str start_date = false ->
     truthy_str end_date = false ->
     valid_date (now rt) ->
     add_days 30 (now rt) = inr e ->
     ordinal e = ordinal (now rt) + 30 /\
     snd (get_calendar rt start_date end_date log)
     = (log ++ [api rt "GET"
                  ("calendar?start=" ++ strftime (now rt)
                     ++ "&end=" ++ strftime e) None])%list)
  /\
  (forall (rt : runtime) (start_date end_date : string) (log : list request),
     start_date <> EmptyString ->
     end_date <> EmptyString ->
     snd (get_calendar rt (Some start_date) (Some end_date) log)
     = (log ++ [api rt "GET"
                  ("calendar?start=" ++ start_date ++ "&end=" ++ end_date)
                  None])%list).
Proof.
  assert (Hcomputed : forall (end_date : option string) (text : string) (e : date),
             truthy_str end_date = false ->
             bind_res (strptime text) (fun start =>
               bind_res (add_days 30 start) (fun end_dt =>
                 ok (strftime end_dt))) = inr (strftime e) ->
             match end_date with
             | Some s =>
                 if truthy_str end_date then ok s
                 else bind_res (strptime text) (fun start =>
                      bind_res (add_days 30 start) (fun end_dt =>
                      ok (strftime end_dt)))
             | None =>
                 bind_res (strptime text) (fun start =>
                 bind_res (add_days 30 start) (fun end_dt =>
                 ok (strftime end_dt)))
             end = inr (strftime e)).
  { intros end_date text e Hend Hc.
    destruct end_date as [s |]; [rewrite Hend |]; exact Hc. }
  assert (Hgiven : forall s : string,
             s <> EmptyString -> truthy_str (Some s) = true).
  { intros s Hs. simpl. now destruct (String.eqb_spec s EmptyString). }
  split; [| split; [| split]].
  - intros rt start_date end_date log d e Hs Hend Hparse Hadd. split.
    + apply (add_days_ordinal 30 d e); [now apply (strptime_valid start_date) | assumption].
    + apply get_calendar_sends.
      * now rewrite (Hgiven start_date Hs).
      * apply Hcomputed; [assumption |].
        rewrite Hparse. cbn [bind_res]. now rewrite Hadd.
  - intros rt end_date log Hend.
    apply (get_calendar_sends rt (Some "2024-01-01") end_date
             "2024-01-01" "2024-01-31"); [reflexivity |].
    apply (Hcomputed end_date "2024-01-01"
             {| year := 2024; month := 1; day := 31 |}); [assumption | reflexivity].
  - intros rt start_date end_date log e Hstart Hend Hnow Hadd. split.
    + now apply (add_days_ordinal 30 (now rt) e).
    + apply get_calendar_sends.
      * destruct start_date as [s |]; [now rewrite Hstart | reflexivity].
      * apply Hcomputed; [assumption |].
        rewrite (strptime_strftime _ Hnow). cbn [bind_res]. now rewrite Hadd.
  - intros rt start_date end_date log Hs He.
    apply get_calendar_sends.
    + now rewrite (Hgiven start_date Hs).
    + now rewrite (Hgiven end_date He).
Qed.

Lemma get_calendar_default_dates_witness :
  (ordinal {| year := 2024; month := 3; day := 16 |}
   = ordinal {| year := 2024; month := 2; day := 15 |} + 30
   /\ snd (get_calendar (sample_runtime (always (JList []))) (Some "2024-02-15")
             None [])
      = [api (sample_runtime (always (JList []))) "GET"
           "calendar?start=2024-02-15&end=2024-03-16" None])
  /\ snd (get_calendar (sample_runtime (always (JList []))) (Some "2024-01-01")
             (Some EmptyString) [])
     = [api (sample_runtime (always (JList []))) "GET"
          "calendar?start=2024-01-01&end=2024-01-31" None]
  /\ snd (get_calendar (sample_runtime (always (JList []))) None None [])
     = [api (sample_runtime (always (JList []))) "GET"
          "calendar?start=2024-01-01&end=2024-01-31" None]
  /\ snd (get_calendar (sample_runtime (always (JList [])))
             (Some "2024-05-01") (Some "2024-05-08") [])
     = [api (sample_runtime (always (JList []))) "GET"
          "calendar?start=2024-05-01&end=2024-05-08" None].
Proof.
  destruct get_calendar_default_dates as (H1 & H2 & H3 & H4).
  split; [| split; [| split]].
  - apply (H1 (sample_runtime (always (JList []))) "2024-02-15" None []
              {| year := 2024; month := 2; day := 15 |}
              {| year := 2024; month := 3; day := 16 |});
      [discriminate | reflexivity | reflexivity | reflexivity].
  - apply (H2 (sample_runtime (always (JList []))) (Some EmptyString) []).
    reflexivity.
  - apply (H3 (sample_runtime (always (JList []))) None None []
              {| year := 2024; month := 1; day := 31 |});
      [reflexivity | reflexivity | | reflexivity].
    unfold valid_date. cbn. lia.
  - apply (H4 (sample_runtime (always (JList []))) "2024-05-01" "2024-05-08" []);
      discriminate.
Defined.

(** ** The movie_collection resource *)

Lemma get_movies_unfiltered (rt : runtime) (log : list request) (st : Z)
    (movies out : list json) :
  respond rt log (api rt "GET" "movie" None) = Replies st (JList movies) ->
  mapM library_entry movies = inr out ->
  get_movies rt None None None log
  = (inr (JDict [("success", JBool true);
                 ("total_count", JNat (List.length out));
                 ("movies", JList out)]),
     (log ++ [api rt "GET" "movie" None])%list).
Proof.
  intros Hreply Hout.
  unfold get_movies, try_except, bind.
  rewrite request_get. change (lstrip_slash "movie") with "movie".
  rewrite Hreply. cbn [delivered String.eqb Ascii.eqb Bool.eqb ok].
  unfold pure. cbn [iter bind_res ok]. rewrite Hout. reflexivity.
Qed.

(** C9. A filter other than "wanted", "monitored" and "unmonitored", known
    or not, makes movie_collection do what it does for "all": it asks for
    the whole library with no filter and, when the upstream answers with
    a list of records, returns the JSON text of the successful result,
    which lists an entry for every upstream movie.  No error about the
    filter is reported. *)
Theorem movie_collection_unknown_filter_lists_all :
  forall (rt : runtime) (filter : string) (log : list request),
    filter <> "wanted" -> filter <> "monitored" -> filter <> "unmonitored" ->
    movie_collection rt filter log = movie_collection rt "all" log
    /\ forall (st : Z) (movies out : list json),
         respond rt log (api rt "GET" "movie" None) = Replies st (JList movies) ->
         mapM library_entry movies = inr out ->
         List.length out = List.length movies
         /\ movie_collection rt filter log
            = (inr (dumps rt (Some 2%nat)
                      (JDict [("success", JBool true);
                              ("total_count", JNat (List.length movies));
                              ("movies", JList out)])),
               (log ++ [api rt "GET" "movie" None])%list).
Proof.
  intros rt filter log Hw Hm Hu.
  assert (Hsame : movie_collection rt filter log = movie_collection rt "all" log).
  { unfold movie_collection.
    destruct (String.eqb_spec filter "wanted"); [contradiction |].
    destruct (String.eqb_spec filter "monitored"); [contradiction |].
    destruct (String.eqb_spec filter "unmonitored"); [contradiction |].
    reflexivity. }
  split; [exact Hsame |].
  intros st movies out Hreply Hout.
  pose proof (mapM_length _ _ _ Hout) as Hlen.
  split; [exact Hlen |].
  rewrite Hsame. unfold movie_collection, try_except, bind.
  cbn [String.eqb Ascii.eqb Bool.eqb].
  rewrite (get_movies_unfiltered rt log st movies out Hreply Hout).
  rewrite Hlen. reflexivity.
Qed.

Lemma movie_collection_unknown_filter_lists_all_witness :
  movie_collection (sample_runtime (always (JList library))) "favourites" []
  = movie_collection (sample_runtime (always (JList library))) "all" []
  /\ exists out : list json,
       List.length out = List.length library
       /\ movie_collection (sample_runtime (always (JList library)))
            "favourites" []
          = (inr (sample_dumps
                    (JDict [("success", JBool true);
                            ("total_count", JNat (List.length library));
                            ("movies", JList out)])),
             [api (sample_runtime (always (JList library))) "GET" "movie" None]).
Proof.
  destruct (movie_collection_unknown_filter_lists_all
              (sample_runtime (always (JList library))) "favourites" [])
    as [Hsame Hall]; try discriminate.
  split; [exact Hsame |].
  eexists. apply (Hall 200 library _ eq_refl eq_refl).
Defined.

(** ** The handler boundary *)

Section Boundary.

Variable rt : runtime.

Lemma propagates_ret {A} (a : A) : propagates rt (ret a).
Proof.
  intros log. exists []. split; [cbn; now rewrite app_nil_r |].
  intros pre post rq e H. now destruct pre.
Qed.

Lemma propagates_pure {A} (r : res A) : propagates rt (pure r).
Proof.
  intros log. exists []. split; [cbn; now rewrite app_nil_r |].
  intros pre post rq e H. now destruct pre.
Qed.

Lemma propagates_request (endpoint method : string) (data : option json) :
  In method ["GET"; "POST"; "PUT"; "DELETE"] ->
  propagates rt (make_radarr_request rt endpoint method data).
Proof.
  intros Hm log. rewrite (request_sent rt endpoint method data log Hm).
  eexists [_]. split; [reflexivity |].
  intros pre post rq e Heq Hfail.
  destruct pre as [| x [| y pre]]; try discriminate.
  injection Heq as <- <-. split; [reflexivity |].
  rewrite app_nil_r in Hfail. cbn [fst].
  destruct (respond rt log _) as [status body | msg | msg];
    cbn [failure_of delivered raise] in *;
    [discriminate Hfail | now injection Hfail as <- ..].
Qed.

Lemma propagates_bind {A B} (m : M A) (k : A -> M B) :
  propagates rt m -> (forall a, propagates rt (k a)) ->
  propagates rt (bind m k).
Proof.
  intros Hm Hk log. unfold bind.
  destruct (Hm log) as (sent1 & Hlog1 & Hfail1).
  destruct (m log) as [[e | a] log1] eqn:Em; cbn [fst snd] in *; subst log1.
  - exists sent1. split; [reflexivity |].
    intros pre post rq e0 Heq Hfail.
    destruct (Hfail1 pre post rq e0 Heq Hfail) as [-> [= ->]]. auto.
  - destruct (Hk a (log ++ sent1)%list) as (sent2 & Hlog2 & Hfail2).
    exists (sent1 ++ sent2)%list. split; [now rewrite app_assoc |].
    intros pre post rq e Heq Hfail.
    apply app_eq_app in Heq.
    destruct Heq as (mid & [[Hsent1 Hpost] | [Hpre Hsent2]]).
    + destruct mid as [| x mid]; cbn in Hpost.
      * rewrite app_nil_r in Hsent1. subst pre.
        apply (Hfail2 [] post rq e); [now cbn | now rewrite app_nil_r].
      * injection Hpost as <- ->.
        destruct (Hfail1 pre mid rq e Hsent1 Hfail) as [_ Hno].
        discriminate Hno.
    + subst pre. rewrite app_assoc in Hfail.
      now apply (Hfail2 mid post rq e).
Qed.

Lemma yields_ret (v : json) : is_envelope v = true -> yields_envelope (ret v).
Proof. intros Hv log v' [= <-]. exact Hv. Qed.

Lemma yields_bind {A} (m : M A) (k : A -> M json) :
  (forall a, yields_envelope (k a)) -> yields_envelope (bind m k).
Proof.
  intros Hk log v. unfold bind.
  destruct (m log) as [[e | a] log1]; cbn [fst]; [discriminate |].
  apply Hk.
Qed.

Lemma obj_success (es : list (string * res json)) (v : json) :
  obj (("success", ok (JBool true)) :: es) = inr v -> is_envelope v = true.
Proof.
  unfold obj. cbn [entries bind_res ok].
  destruct (entries es) as [e | d]; cbn; [discriminate |].
  now intros [= <-].
Qed.

Lemma yields_pure_obj (es : list (string * res json)) :
  yields_envelope (pure (obj (("success", ok (JBool true)) :: es))).
Proof. intros log v. cbn [pure fst]. apply obj_success. Qed.

(** The last clause of a tool turns what its body raises into an error
    envelope, and leaves an envelope the body returns as it is. *)
Lemma handler_converts (body : M json) :
  propagates rt body -> yields_envelope body ->
  converts rt (try_except body (error_result rt)).
Proof.
  intros Hp Hy log. unfold try_except.
  destruct (Hp log) as (sent & Hlog & Hfail).
  specialize (Hy log).
  destruct (body log) as [[e | v] log1]; cbn [fst snd] in *; subst log1.
  - exists (error_envelope (str_exn rt e)), sent.
    split; [reflexivity |]. split; [reflexivity |].
    intros pre post rq e0 Heq Hf.
    destruct (Hfail pre post rq e0 Heq Hf) as [_ [= ->]]. reflexivity.
  - exists v, sent. split; [reflexivity |]. split; [now apply Hy |].
    intros pre post rq e0 Heq Hf.
    destruct (Hfail pre post rq e0 Heq Hf) as [_ Hno]. discriminate Hno.
Qed.

Ltac propagate :=
  repeat first
    [ apply propagates_ret
    | apply propagates_pure
    | apply propagates_request; cbn; tauto
    | apply propagates_bind; [| intros ?]
    | match goal with
      | |- propagates _ (if ?c then _ else _) => destruct c
      | |- propagates _ (match ?x with _ => _ end) => destruct x
      end
    | progress cbv zeta beta ].

Ltac envelope :=
  repeat first
    [ apply yields_ret; reflexivity
    | apply yields_pure_obj
    | apply yields_bind; intros ?
    | match goal with
      | |- yields_envelope (if ?c then _ else _) => destruct c
      | |- yields_envelope (match ?x with _ => _ end) => destruct x
      end
    | progress cbv zeta beta ].

Lemma tool_converts (call : tool_call) : converts rt (invoke rt call).
Proof.
  destruct call; cbn [invoke];
    [ unfold search_movies | unfold add_movie | unfold get_movies
    | unfold get_movie_details | unfold search_movie_releases
    | unfold download_release | unfold get_download_queue
    | unfold manage_download_queue | unfold get_system_defaults
    | unfold get_wanted_movies | unfold manage_indexers
    | unfold get_calendar | unfold get_system_status ];
    (apply handler_converts; [propagate | envelope]).
Qed.

End Boundary.

Lemma is_envelope_spec (v : json) :
  is_envelope v = true <->
  field v "success" = Some (JBool true)
  \/ exists msg : string, field v "error" = Some (JStr msg).
Proof.
  unfold is_envelope. split.
  - destruct (field v "success") as [[| [] | | | | |] |];
      destruct (field v "error") as [[] |];
      try discriminate; eauto.
  - intros [-> | (msg & ->)]; [reflexivity |].
    destruct (field v "success") as [[| [] | | | | |] |]; reflexivity.
Qed.

(** C1. Whatever the tool, its arguments and the behaviour of the
    upstream, an invocation returns an object (it never raises) that
    holds [success] with value true or [error] with a string; and when
    one of the requests it sent failed in the gateway client, the object
    returned is the error envelope carrying that failure's message. *)
Theorem every_tool_returns_an_envelope :
  forall (rt : runtime) (call : tool_call) (log : list request),
  exists (v : json) (sent : list request),
    invoke rt call log = (inr v, (log ++ sent)%list)
    /\ (field v "success" = Some (JBool true)
        \/ exists msg : string, field v "error" = Some (JStr msg))
    /\ forall (pre post : list request) (rq : request),
         sent = (pre ++ rq :: post)%list ->
         (forall msg : string,
            respond rt (log ++ pre)%list rq = RaisesClientError msg ->
            v = error_envelope ("Failed to communicate with Radarr: " ++ msg))
         /\
         (forall msg : string,
            respond rt (log ++ pre)%list rq = RaisesOther msg ->
            v = error_envelope msg).
Proof.
  intros rt call log.
  destruct (tool_converts rt call log) as (v & sent & Hrun & Henv & Hfail).
  exists v, sent. split; [exact Hrun |].
  split; [now apply is_envelope_spec |].
  intros pre post rq Hsent. split; intros msg Hout.
  - apply (Hfail pre post rq
             (Exception ("Failed to communicate with Radarr: " ++ msg)) Hsent).
    now rewrite Hout.
  - apply (Hfail pre post rq (Foreign msg) Hsent). now rewrite Hout.
Qed.

Lemma every_tool_returns_an_envelope_witness :
  fst (invoke (sample_runtime unreachable) GetSystemStatus [])
  = inr (error_envelope
           "Failed to communicate with Radarr: Cannot connect to host radarr.local:7878").
Proof.
  destruct (every_tool_returns_an_envelope
              (sample_runtime unreachable) GetSystemStatus [])
    as (v & sent & Hrun & _ & Hfail).
  assert (Hsent : sent
                  = ([] ++ [api (sample_runtime unreachable) "GET"
                              "system/status" None])%list).
  { cbv in Hrun |- *. congruence. }
  rewrite Hrun. cbn [fst]. f_equal.
  apply (proj1 (Hfail [] [] _ Hsent)
           "Cannot connect to host radarr.local:7878").
  reflexivity.
Defined.

(* ===================================================================== *)
(** * Further properties *)

(** ** The gateway client, edge cases *)

Lemma upper_ascii_idempotent (c : ascii) :
  upper_ascii (upper_ascii c) = upper_ascii c.
Proof. destruct c as [[] [] [] [] [] [] [] []]; reflexivity. Qed.

(** [upper_ascii] yields an ASCII byte or the byte it was given. *)
Lemma upper_ascii_cases (c : ascii) :
  (nat_of_ascii (upper_ascii c) < 128)%nat \/ upper_ascii c = c.
Proof.
  assert (H : ((nat_of_ascii (upper_ascii c) <? 128)%nat
               || Ascii.eqb (upper_ascii c) c) = true)
    by (destruct c as [[] [] [] [] [] [] [] []]; reflexivity).
  apply orb_true_iff in H. destruct H as [H | H].
  - left. now apply Nat.ltb_lt.
  - right. now apply Ascii.eqb_eq.
Qed.

Ltac by_bytes :=
  repeat match goal with
         | |- context [Ascii.eqb ?a ?k] => destruct (Ascii.eqb_spec a k)
         end;
  cbn [andb]; try discriminate.

Lemma upper_two_some (c1 c2 : ascii) (u : string) :
  upper_two c1 c2 = Some u ->
  In u ["SS"; "I"; "S"]
  /\ (128 <= nat_of_ascii c1)%nat /\ (128 <= nat_of_ascii c2)%nat.
Proof.
  unfold upper_two. by_bytes; intros [= <-]; subst; cbn; repeat split;
    auto; lia.
Qed.

Lemma upper_three_some (c1 c2 c3 : ascii) (u : string) :
  upper_three c1 c2 c3 = Some u ->
  In u ["FF"; "FI"; "FL"; "FFI"; "FFL"; "ST"]
  /\ c1 = "239"%char /\ c2 = "172"%char /\ (128 <= nat_of_ascii c3)%nat.
Proof.
  unfold upper_three. by_bytes; intros [= <-]; subst; cbn; repeat split;
    auto 8; lia.
Qed.

Lemma upper_two_low (c1 c2 : ascii) :
  (nat_of_ascii c1 < 195)%nat -> upper_two c1 c2 = None.
Proof.
  intros H. destruct (upper_two c1 c2) as [u |] eqn:E; [| reflexivity].
  exfalso. unfold upper_two in E.
  destruct (Ascii.eqb_spec c1 "195") as [-> |]; [cbn in H; lia |].
  destruct (Ascii.eqb_spec c1 "196") as [-> |]; [cbn in H; lia |].
  destruct (Ascii.eqb_spec c1 "197") as [-> |]; [cbn in H; lia |].
  discriminate E.
Qed.

Lemma upper_three_low (c1 c2 c3 : ascii) :
  (nat_of_ascii c1 < 195)%nat -> upper_three c1 c2 c3 = None.
Proof.
  intros H. unfold upper_three.
  destruct (Ascii.eqb_spec c1 "239") as [-> |]; [cbn in H; lia | reflexivity].
Qed.

(** Where no special character starts, [upper] goes byte by byte. *)
Lemma upper_step (c : ascii) (t : string) :
  (forall x t', t = String x t' -> upper_two c x = None) ->
  (forall x y t', t = String x (String y t') -> upper_three c x y = None) ->
  upper (String c t) = String (upper_ascii c) (upper t).
Proof.
  intros H2 H3. destruct t as [| x [| y t']]; cbn [upper].
  - reflexivity.
  - now rewrite (H2 x EmptyString eq_refl).
  - now rewrite (H2 x _ eq_refl), (H3 x y t' eq_refl).
Qed.

Lemma upper_plain (c : ascii) (t : string) :
  (nat_of_ascii c < 195)%nat ->
  upper (String c t) = String (upper_ascii c) (upper t).
Proof.
  intros H. apply upper_step; intros; [apply upper_two_low | apply upper_three_low];
    exact H.
Qed.

(** The first byte of [upper s] is an ASCII byte or the first byte of
    [s]. *)
Lemma upper_head (s : string) (x : ascii) (t : string) :
  upper s = String x t ->
  (nat_of_ascii x < 128)%nat \/ exists t', s = String x t'.
Proof.
  assert (Hplain : forall c r, String (upper_ascii c) r = String x t ->
            forall s', (nat_of_ascii x < 128)%nat
                       \/ exists t', String c s' = String x t').
  { intros c r [= <- <-] s'.
    destruct (upper_ascii_cases c) as [Hlow | ->]; [now left | right; eauto]. }
  destruct s as [| c1 [| c2 s2]]; cbn [upper]; [discriminate | now eauto |].
  destruct (upper_two c1 c2) as [u |] eqn:E2.
  { apply upper_two_some in E2. destruct E2 as (Hu & _). cbn [In] in Hu.
    destruct Hu as [<- | [<- | [<- | []]]]; intros [= <- <-]; left; cbn; lia. }
  destruct s2 as [| c3 s3]; [now eauto |].
  destruct (upper_three c1 c2 c3) as [u |] eqn:E3; [| now eauto].
  apply upper_three_some in E3. destruct E3 as (Hu & _).
  cbn [In] in Hu.
  destruct Hu as [<- | [<- | [<- | [<- | [<- | [<- | []]]]]]];
    intros [= <- <-]; left; cbn; lia.
Qed.

Lemma upper_letters (u t : string) :
  In u ["SS"; "I"; "S"; "FF"; "FI"; "FL"; "FFI"; "FFL"; "ST"] ->
  upper (u ++ t) = u ++ upper t.
Proof.
  cbn [In].
  intros [<- | [<- | [<- | [<- | [<- | [<- | [<- | [<- | [<- | []]]]]]]]]];
    cbn [append]; rewrite !upper_plain by (cbn; lia); reflexivity.
Qed.

Lemma upper_unfold (c1 c2 : ascii) (s2 : string) :
  upper (String c1 (String c2 s2))
  = match upper_two c1 c2 with
    | Some u => u ++ upper s2
    | None =>
        match s2 with
        | String c3 s3 =>
            match upper_three c1 c2 c3 with
            | Some u => u ++ upper s3
            | None => String (upper_ascii c1) (upper (String c2 s2))
            end
        | EmptyString => String (upper_ascii c1) (upper (String c2 s2))
        end
    end.
Proof. reflexivity. Qed.

(** No special character starts in [upper s] where none starts in [s]. *)
Lemma upper_keeps_plain (c1 : ascii) (s1 : string) :
  (forall c2 s2, s1 = String c2 s2 -> upper_two c1 c2 = None) ->
  (forall c2 c3 s3, s1 = String c2 (String c3 s3) ->
                    upper_three c1 c2 c3 = None) ->
  upper (String (upper_ascii c1) (upper s1))
  = String (upper_ascii (upper_ascii c1)) (upper (upper s1)).
Proof.
  intros N2 N3. apply upper_step.
  - intros x t' Hx.
    destruct (upper_two (upper_ascii c1) x) as [u |] eqn:E; [| reflexivity].
    exfalso. pose proof (upper_two_some _ _ _ E) as (_ & H1 & Hx2).
    destruct (upper_ascii_cases c1) as [Hlow | Hsame]; [lia |].
    rewrite Hsame in E.
    destruct (upper_head _ _ _ Hx) as [Hlow | (t2 & ->)]; [lia |].
    rewrite (N2 x t2 eq_refl) in E. discriminate E.
  - intros x y t' Hxy.
    destruct (upper_three (upper_ascii c1) x y) as [u |] eqn:E; [| reflexivity].
    exfalso. pose proof (upper_three_some _ _ _ _ E) as (_ & H1 & -> & Hy).
    destruct (upper_ascii_cases c1) as [Hlow | Hsame];
      [rewrite H1 in Hlow; cbn in Hlow; lia |].
    rewrite Hsame in E.
    destruct (upper_head _ _ _ Hxy) as [Hlow | (t2 & ->)]; [cbn in Hlow; lia |].
    rewrite upper_plain in Hxy by (cbn; lia). injection Hxy as Hxy.
    destruct (upper_head _ _ _ Hxy) as [Hlow | (t3 & ->)]; [lia |].
    rewrite (N3 _ y t3 eq_refl) in E. discriminate E.
Qed.

Lemma upper_idempotent_upto (n : nat) :
  forall s : string, (String.length s <= n)%nat -> upper (upper s) = upper s.
Proof.
  induction n as [| n IH]; intros s Hn.
  { destruct s; [reflexivity | cbn in Hn; lia]. }
  destruct s as [| c1 [| c2 s2]]; [reflexivity | |].
  { cbn. now rewrite upper_ascii_idempotent. }
  cbn [String.length] in Hn.
  assert (Hplain : upper_two c1 c2 = None ->
                   (forall c3 s3, s2 = String c3 s3 ->
                                  upper_three c1 c2 c3 = None) ->
                   upper (String (upper_ascii c1) (upper (String c2 s2)))
                   = String (upper_ascii c1) (upper (String c2 s2))).
  { intros N2 N3. rewrite upper_keeps_plain.
    - rewrite upper_ascii_idempotent, IH; [reflexivity | cbn; lia].
    - now intros ? ? [= <- <-].
    - intros ? ? ? [= <- ->]. now apply (N3 _ _ eq_refl). }
  rewrite (upper_unfold c1 c2 s2).
  destruct (upper_two c1 c2) as [u |] eqn:E2.
  { apply upper_two_some in E2. destruct E2 as (Hu & _).
    rewrite upper_letters, IH by (cbn in *; intuition lia). reflexivity. }
  destruct s2 as [| c3 s3]; [apply Hplain; [reflexivity | discriminate] |].
  destruct (upper_three c1 c2 c3) as [u |] eqn:E3.
  { apply upper_three_some in E3. destruct E3 as (Hu & _).
    rewrite upper_letters, IH by (cbn in *; intuition lia). reflexivity. }
  apply Hplain; [reflexivity |]. now intros ? ? [= <- <-].
Qed.

Lemma upper_idempotent (s : string) : upper (upper s) = upper s.
Proof. now apply (upper_idempotent_upto (String.length s)). Qed.

Example upper_reads_long_s :
  upper "poſt" = "POST" /\ upper "POﬆ" = "POST"
  /\ upper "Delete" = "DELETE".
Proof. repeat split; reflexivity. Qed.

(** X1. A method whose upper-case form is none of GET, POST, PUT and
    DELETE makes make_radarr_request fall through every branch: it
    returns [None] and nothing is sent.  The upper-case form is the one
    [str.upper] gives, under which a long s counts as S and the st
    ligatures as ST. *)
Theorem make_radarr_request_unknown_method :
  forall (rt : runtime) (endpoint method : string) (data : option json)
         (log : list request),
    ~ In (upper method) ["GET"; "POST"; "PUT"; "DELETE"] ->
    make_radarr_request rt endpoint method data log = (inr JNull, log).
Proof.
  intros rt endpoint method data log Hm.
  unfold make_radarr_request, try_except.
  destruct (String.eqb_spec (upper method) "GET") as [E | _];
    [elim Hm; rewrite E; simpl; auto |].
  destruct (String.eqb_spec (upper method) "POST") as [E | _];
    [elim Hm; rewrite E; simpl; auto |].
  destruct (String.eqb_spec (upper method) "PUT") as [E | _];
    [elim Hm; rewrite E; simpl; auto |].
  destruct (String.eqb_spec (upper method) "DELETE") as [E | _];
    [elim Hm; rewrite E; simpl; auto |].
  reflexivity.
Qed.

Lemma make_radarr_request_unknown_method_witness :
  make_radarr_request (sample_runtime (always JNull)) "movie" "patch" None []
  = (inr JNull, []).
Proof.
  apply (make_radarr_request_unknown_method
           (sample_runtime (always JNull)) "movie" "patch" None []).
  simpl. intros [H | [H | [H | [H | []]]]]; discriminate H.
Defined.

(** X2. The method is read without regard to case and leading slashes of
    the endpoint are dropped: a call is the call with the method in
    upper case and the endpoint without them. *)
Theorem make_radarr_request_normalises :
  forall (rt : runtime) (endpoint method : string) (data : option json)
         (log : list request),
    make_radarr_request rt endpoint method data log
    = make_radarr_request rt (lstrip_slash endpoint) (upper method) data log
    /\ make_radarr_request rt (String "/" endpoint) method data log
       = make_radarr_request rt endpoint method data log.
Proof.
  intros rt endpoint method data log.
  assert (Hstrip : forall e, lstrip_slash (lstrip_slash e) = lstrip_slash e).
  { induction e as [| c e IH]; [reflexivity |].
    destruct (Ascii.eqb_spec c "/") as [-> | Hc]; [exact IH |].
    now rewrite !(lstrip_slash_letter c e Hc). }
  split; [| reflexivity].
  unfold make_radarr_request. now rewrite upper_idempotent, Hstrip.
Qed.

(** X3. With one of the four methods the gateway client sends exactly one
    request.  It raises exactly when the session does: a ClientError
    comes out as an Exception whose message is the original one behind
    "Failed to communicate with Radarr: ", any other exception comes out
    unchanged.  A DELETE that is answered returns the status object and
    not the body. *)
Theorem make_radarr_request_outcomes :
  forall (rt : runtime) (endpoint method : string) (data : option json)
         (log : list request),
    In method ["GET"; "POST"; "PUT"; "DELETE"] ->
    exists rq : request,
      snd (make_radarr_request rt endpoint method data log) = (log ++ [rq])%list
      /\ req_method rq = method
      /\ req_url rq = RADARR_URL rt ++ "/api/v3/" ++ lstrip_slash endpoint
      /\ match respond rt log rq with
         | Replies status body =>
             fst (make_radarr_request rt endpoint method data log)
             = inr (if method =? "DELETE"
                    then JDict [("success", JBool true); ("status", JInt status)]
                    else body)
         | RaisesClientError msg =>
             fst (make_radarr_request rt endpoint method data log)
             = inl (Exception ("Failed to communicate with Radarr: " ++ msg))
         | RaisesOther msg =>
             fst (make_radarr_request rt endpoint method data log)
             = inl (Foreign msg)
         end.
Proof.
  intros rt endpoint method data log Hm.
  rewrite (request_sent rt endpoint method data log Hm).
  eexists. split; [reflexivity |]. split; [reflexivity |].
  split; [reflexivity |]. cbn [fst].
  destruct (respond rt log _) as [status body | msg | msg]; cbn [delivered];
    [| reflexivity | reflexivity].
  destruct (method =? "DELETE"); reflexivity.
Qed.

Lemma make_radarr_request_outcomes_witness :
  exists rq : request,
    snd (make_radarr_request (sample_runtime unreachable) "/movie" "GET" None [])
    = [rq]
    /\ req_url rq = "http://radarr.local:7878/api/v3/movie"
    /\ fst (make_radarr_request (sample_runtime unreachable) "/movie" "GET" None [])
       = inl (Exception
                "Failed to communicate with Radarr: Cannot connect to host radarr.local:7878").
Proof.
  destruct (make_radarr_request_outcomes
              (sample_runtime unreachable) "/movie" "GET" None [])
    as (rq & Hlog & _ & Hurl & Hout); [simpl; auto |].
  exists rq. split; [exact Hlog |]. split; [exact Hurl |]. exact Hout.
Defined.

(** ** What the tools send *)

Ltac unfold_tool :=
  cbn [invoke];
  first
    [ progress unfold search_movies | progress unfold add_movie
    | progress unfold get_movies | progress unfold get_movie_details
    | progress unfold search_movie_releases | progress unfold download_release
    | progress unfold get_download_queue | progress unfold manage_download_queue
    | progress unfold get_system_defaults | progress unfold get_wanted_movies
    | progress unfold manage_indexers | progress unfold get_calendar
    | progress unfold get_system_status ].

Section Traffic.

Variable rt : runtime.

Lemma only_sends_ret {A} (P : request -> Prop) (a : A) : only_sends P (ret a).
Proof. intros log. exists []. split; [cbn; now rewrite app_nil_r | constructor]. Qed.

Lemma only_sends_pure {A} (P : request -> Prop) (r : res A) :
  only_sends P (pure r).
Proof. intros log. exists []. split; [cbn; now rewrite app_nil_r | constructor]. Qed.

Lemma only_sends_request (P : request -> Prop) (endpoint method : string)
    (data : option json) :
  In method ["GET"; "POST"; "PUT"; "DELETE"] ->
  P (api rt method (lstrip_slash endpoint)
       (if (method =? "GET") || (method =? "DELETE") then None else data)) ->
  only_sends P (make_radarr_request rt endpoint method data).
Proof.
  intros Hm HP log. rewrite (request_sent rt endpoint method data log Hm).
  eexists [_]. split; [reflexivity |]. now repeat constructor.
Qed.

Lemma only_sends_bind {A B} (P : request -> Prop) (m : M A) (k : A -> M B) :
  only_sends P m -> (forall a, only_sends P (k a)) -> only_sends P (bind m k).
Proof.
  intros Hm Hk log. unfold bind.
  destruct (Hm log) as (sent1 & Hlog1 & H1).
  destruct (m log) as [[e | a] log1]; cbn [snd] in *; subst log1.
  - now exists sent1.
  - destruct (Hk a (log ++ sent1)%list) as (sent2 & Hlog2 & H2).
    exists (sent1 ++ sent2)%list. split; [now rewrite app_assoc |].
    apply Forall_app. now split.
Qed.

Lemma only_sends_handler (P : request -> Prop) (body : M json) :
  only_sends P body -> only_sends P (try_except body (error_result rt)).
Proof.
  intros Hb log. unfold try_except.
  destruct (Hb log) as (sent & Hlog & H).
  destruct (body log) as [[e | v] log1]; cbn [snd] in *; subst log1;
    now exists sent.
Qed.

Ltac traffic leaf :=
  repeat first
    [ apply only_sends_ret
    | apply only_sends_pure
    | apply only_sends_request; [cbn; tauto | leaf]
    | apply only_sends_bind; [| intros ?]
    | match goal with
      | |- only_sends _ (if ?c then _ else _) => destruct c
      | |- only_sends _ (match ?x with _ => _ end) => destruct x
      end
    | progress cbv beta iota zeta ].

Lemma tools_well_addressed (call : tool_call) :
  only_sends (well_addressed rt) (invoke rt call).
Proof.
  destruct call; unfold_tool; apply only_sends_handler;
    traffic ltac:(unfold well_addressed; cbn;
                  split; [tauto | split; [eexists; reflexivity | reflexivity]]).
Qed.

Lemma read_only_tools_get (call : tool_call) :
  read_only call = true ->
  only_sends (fun rq => req_method rq = "GET" /\ req_json rq = None)
    (invoke rt call).
Proof.
  destruct call; cbn [read_only]; intros Hread; try discriminate Hread;
    unfold_tool; try rewrite Hread; apply only_sends_handler;
    traffic ltac:(split; reflexivity).
Qed.

End Traffic.

Section Budget.

Variable rt : runtime.

Lemma sends_ret {A} (n : nat) (a : A) : sends_at_most n (ret a).
Proof. intros log. exists []. split; [cbn; now rewrite app_nil_r | cbn; lia]. Qed.

Lemma sends_pure {A} (n : nat) (r : res A) : sends_at_most n (pure r).
Proof. intros log. exists []. split; [cbn; now rewrite app_nil_r | cbn; lia]. Qed.

Lemma sends_bind {A B} (a b : nat) (m : M A) (k : A -> M B) :
  sends_at_most a m -> (forall x, sends_at_most b (k x)) ->
  sends_at_most (a + b) (bind m k).
Proof.
  intros Hm Hk log. unfold bind.
  destruct (Hm log) as (sent1 & Hlog1 & H1).
  destruct (m log) as [[e | x] log1]; cbn [snd] in *; subst log1.
  - exists sent1. split; [reflexivity | lia].
  - destruct (Hk x (log ++ sent1)%list) as (sent2 & Hlog2 & H2).
    exists (sent1 ++ sent2)%list. split; [now rewrite app_assoc |].
    rewrite length_app. lia.
Qed.

Lemma sends_request (endpoint method : string) (data : option json) :
  sends_at_most 1 (make_radarr_request rt endpoint method data).
Proof.
  intros log. unfold make_radarr_request, try_except, bind, send.
  repeat match goal with
         | |- context [if ?c then _ else _] => destruct c
         end;
    try (eexists [_]; split; [| cbn; lia];
         match goal with
         | |- context [respond rt log ?r] => destruct (respond rt log r)
         end; reflexivity).
  exists []. split; [cbn; now rewrite app_nil_r | cbn; lia].
Qed.

Lemma sends_bind_request {B} (n : nat) (endpoint method : string)
    (data : option json) (k : json -> M B) :
  (forall x, sends_at_most n (k x)) ->
  sends_at_most (S n) (bind (make_radarr_request rt endpoint method data) k).
Proof. intros Hk. apply (sends_bind 1 n); [apply sends_request | exact Hk]. Qed.

Lemma sends_bind_pure {A B} (n : nat) (r : res A) (k : A -> M B) :
  (forall x, sends_at_most n (k x)) -> sends_at_most n (bind (pure r) k).
Proof. intros Hk. apply (sends_bind 0 n); [apply sends_pure | exact Hk]. Qed.

Lemma sends_bind_ret {A B} (n : nat) (a : A) (k : A -> M B) :
  (forall x, sends_at_most n (k x)) -> sends_at_most n (bind (ret a) k).
Proof. intros Hk. apply (sends_bind 0 n); [apply sends_ret | exact Hk]. Qed.

Lemma sends_handler (n : nat) (body : M json) :
  sends_at_most n body -> sends_at_most n (try_except body (error_result rt)).
Proof.
  intros Hb log. unfold try_except.
  destruct (Hb log) as (sent & Hlog & H).
  destruct (body log) as [[e | v] log1]; cbn [snd] in *; subst log1;
    now exists sent.
Qed.

Ltac count :=
  repeat first
    [ apply sends_ret
    | apply sends_pure
    | apply sends_bind_request; intros ?
    | apply sends_bind_pure; intros ?
    | apply sends_bind_ret; intros ?
    | match goal with
      | |- sends_at_most (S ?n) (bind (bind _ _) _) =>
          apply (sends_bind 1 n); [| intros ?]
      | |- sends_at_most _ (if ?c then _ else _) => destruct c
      | |- sends_at_most _ (match ?x with _ => _ end) => destruct x
      end
    | progress cbv beta iota zeta ].

Lemma tools_within_budget (call : tool_call) :
  sends_at_most (request_budget call) (invoke rt call).
Proof.
  destruct call;
    try match goal with
        | q : option Z, r : option string |- _ => destruct q, r
        end;
    try match goal with
        | |- context [GetMovieDetails _ _ ?h] => destruct h
        end;
    cbn [request_budget Nat.add]; unfold_tool; apply sends_handler; count.
Qed.

End Budget.

(** X4. No tool call sends more requests than its budget: four for
    add_movie when both defaults must be fetched (one less for each that
    is passed), three for get_system_status, two for get_system_defaults
    and for get_movie_details with history, one for everything else.
    Requests are only ever added to the log. *)
Theorem tool_requests_within_budget :
  forall (rt : runtime) (call : tool_call) (log : list request),
  exists sent : list request,
    snd (invoke rt call log) = (log ++ sent)%list
    /\ (List.length sent <= request_budget call)%nat
    /\ (List.length sent <= 4)%nat.
Proof.
  intros rt call log.
  destruct (tools_within_budget rt call log) as (sent & Hlog & Hlen).
  exists sent. split; [exact Hlog |]. split; [exact Hlen |].
  assert (request_budget call <= 4)%nat; [| lia].
  destruct call; cbn;
    repeat match goal with
           | |- context [match ?x with _ => _ end] => destruct x
           end; lia.
Qed.

(** X5. The tools that read (every search_ and get_ tool, and
    manage_indexers with action "list") send nothing but GET requests
    without a body: they never create, change or delete anything
    upstream. *)
Theorem read_only_tools_only_get :
  forall (rt : runtime) (call : tool_call) (log : list request),
    read_only call = true ->
    exists sent : list request,
      snd (invoke rt call log) = (log ++ sent)%list
      /\ Forall (fun rq => req_method rq = "GET" /\ req_json rq = None) sent.
Proof. intros rt call log Hread. now apply read_only_tools_get. Qed.

Lemma read_only_tools_only_get_witness :
  exists sent : list request,
    snd (invoke (sample_runtime (always (JList library)))
           (GetMovieDetails 3 true true) [])
    = ([] ++ sent)%list
    /\ Forall (fun rq => req_method rq = "GET" /\ req_json rq = None) sent.
Proof.
  apply (read_only_tools_only_get
           (sample_runtime (always (JList library)))
           (GetMovieDetails 3 true true) []).
  reflexivity.
Defined.

(** X6. Every request a tool sends is made out by the gateway client:
    its method is one of the four, its URL lies under "/api/v3/" of the
    configured base URL, and it carries the API key and the JSON content
    type as its headers. *)
Theorem tool_requests_well_addressed :
  forall (rt : runtime) (call : tool_call) (log : list request),
  exists sent : list request,
    snd (invoke rt call log) = (log ++ sent)%list
    /\ Forall (well_addressed rt) sent.
Proof. intros rt call log. apply tools_well_addressed. Qed.

(** ** The shape of results *)

Lemma entries_keys (es : list (string * res json)) (d : list (string * json)) :
  entries es = inr d -> map fst d = map fst es.
Proof.
  revert d. induction es as [| [k e] es IH]; intros d; simpl.
  - now intros [= <-].
  - destruct e as [x | v]; simpl; [discriminate |].
    destruct (entries es) as [x | d']; simpl; [discriminate |].
    intros [= <-]. simpl. now rewrite (IH d' eq_refl).
Qed.


Lemma lookup_absent (k : string) (d : list (string * json)) :
  existsb (String.eqb k) (map fst d) = false -> lookup k d = None.
Proof.
  induction d as [| [k' v] d IH]; simpl; [reflexivity |].
  destruct (String.eqb k k'); simpl; [discriminate | exact IH].
Qed.

Section Shapes.

Variable rt : runtime.

Lemma shape_ret (v : json) : one_shape v -> yields one_shape (ret v).
Proof. intros Hv log v' [= <-]. exact Hv. Qed.

Lemma shape_bind {A} (m : M A) (k : A -> M json) :
  (forall a, yields one_shape (k a)) -> yields one_shape (bind m k).
Proof.
  intros Hk log v. unfold bind.
  destruct (m log) as [[e | a] log1]; cbn [fst]; [discriminate |].
  apply Hk.
Qed.

Lemma shape_pure_obj (es : list (string * res json)) :
  existsb (String.eqb "error") (map fst es) = false ->
  yields one_shape (pure (obj (("success", ok (JBool true)) :: es))).
Proof.
  intros Hno log v. cbn [pure fst]. unfold obj. cbn [entries bind_res ok].
  destruct (entries es) as [e | d] eqn:E; cbn; [discriminate |].
  intros [= <-]. left. split; [reflexivity |]. cbn.
  apply lookup_absent. now rewrite (entries_keys _ _ E).
Qed.

Lemma shape_handler (body : M json) :
  yields one_shape body ->
  yields one_shape (try_except body (error_result rt)).
Proof.
  intros Hb log v. unfold try_except. specialize (Hb log).
  destruct (body log) as [[e | v'] log1]; cbn [fst] in *.
  - intros [= <-]. right. now eexists.
  - intros [= <-]. now apply Hb.
Qed.

Ltac shape :=
  repeat first
    [ apply shape_ret;
      first [ left; split; reflexivity | right; eexists; reflexivity ]
    | apply shape_pure_obj; reflexivity
    | apply shape_bind; intros ?
    | match goal with
      | |- yields _ (if ?c then _ else _) => destruct c
      | |- yields _ (match ?x with _ => _ end) => destruct x
      end
    | progress cbv beta iota zeta ].

Lemma tools_one_shape (call : tool_call) : yields one_shape (invoke rt call).
Proof. destruct call; unfold_tool; apply shape_handler; shape. Qed.

End Shapes.

(** X7. A tool result has one of two shapes, never a mixture: either it
    holds [success] with value true and no [error] field, or it is the
    object made of the [error] message alone. *)
Theorem tool_result_one_shape :
  forall (rt : runtime) (call : tool_call) (log : list request),
  exists v : json,
    fst (invoke rt call log) = inr v
    /\ ((field v "success" = Some (JBool true) /\ field v "error" = None)
        \/ exists msg : string, v = JDict [("error", JStr msg)]).
Proof.
  intros rt call log.
  destruct (tool_converts rt call log) as (v & sent & Hrun & _).
  exists v. rewrite Hrun. split; [reflexivity |].
  apply (tools_one_shape rt call log). now rewrite Hrun.
Qed.





(** ** download_release, manage_download_queue, manage_indexers *)

(** X10. download_release sends one POST to "release" whose body holds
    the guid and the movie id and nothing else; when it is answered, the
    answer is passed on whole under [release]. *)
Theorem download_release_posts_guid_and_movie :
  forall (rt : runtime) (release_guid : string) (movie_id : Z)
         (log : list request),
    let rq := api rt "POST" "release"
                (Some (JDict [("guid", JStr release_guid);
                              ("movieId", JInt movie_id)])) in
    snd (download_release rt release_guid movie_id log) = (log ++ [rq])%list
    /\ forall (status : Z) (body : json),
         respond rt log rq = Replies status body ->
         fst (download_release rt release_guid movie_id log)
         = inr (JDict [("success", JBool true);
                       ("message", JStr "Download started successfully");
                       ("release", body)]).
Proof.
  intros rt guid id log rq.
  unfold download_release, try_except, bind. rewrite request_post.
  change (api rt "POST" (lstrip_slash "release") _) with rq.
  split.
  - destruct (respond rt log rq); reflexivity.
  - intros status body ->. reflexivity.
Qed.

(** X11. Each of the three valid actions of manage_download_queue sends
    exactly one request: "remove" a DELETE of the queue item whose
    removeFromClient is "true" or "false" as remove_from_client says,
    "retry" a POST without body to "queue/grab/" and the id.  When the
    request is answered, the result echoes the action and the id. *)
Theorem manage_download_queue_valid_actions :
  forall (rt : runtime) (queue_id : Z) (action : string)
         (remove_from_client : bool) (log : list request),
    In action ["remove"; "retry"; "ignore"] ->
    exists rq : request,
      snd (manage_download_queue rt queue_id action remove_from_client log)
      = (log ++ [rq])%list
      /\ (action = "remove" ->
          rq = api rt "DELETE"
                 ("queue/" ++ fmt_int queue_id ++ "?removeFromClient="
                    ++ (if remove_from_client then "true" else "false")) None)
      /\ (action = "retry" ->
          rq = api rt "POST" ("queue/grab/" ++ fmt_int queue_id) None)
      /\ forall (status : Z) (body : json),
           respond rt log rq = Replies status body ->
           exists result : json,
             fst (manage_download_queue rt queue_id action
                    remove_from_client log)
             = inr (JDict [("success", JBool true);
                           ("action", JStr action);
                           ("queue_id", JInt queue_id);
                           ("result", result)]).
Proof.
  intros rt queue_id action rfc log Hact.
  simpl in Hact. destruct Hact as [<- | [<- | [<- | []]]];
    unfold manage_download_queue, try_except, bind; simpl;
    rewrite ?request_delete, ?request_post;
    match goal with
    | |- context [respond rt log ?r] => exists r
    end;
    (split; [destruct (respond rt log _); reflexivity |]);
    (split; [intros E; try discriminate E; reflexivity |]);
    (split; [intros E; try discriminate E; reflexivity |]);
    intros status body Hr; cbv zeta in Hr |- *;
    match goal with
    | |- context [respond rt log ?r] =>
        change (respond rt log r) with (respond rt log r) in Hr
    end; rewrite Hr; eexists; reflexivity.
Qed.

Lemma manage_download_queue_valid_actions_witness :
  exists rq : request,
    snd (manage_download_queue (sample_runtime (always JNull)) 7 "remove"
           true [])
    = [rq]
    /\ rq = api (sample_runtime (always JNull)) "DELETE"
              "queue/7?removeFromClient=true" None.
Proof.
  destruct (manage_download_queue_valid_actions
              (sample_runtime (always JNull)) 7 "remove" true [])
    as (rq & Hlog & Hremove & _); [simpl; auto |].
  exists rq. split; [exact Hlog |]. apply Hremove. reflexivity.
Defined.

Lemma download_release_posts_guid_and_movie_witness :
  fst (download_release (sample_runtime (always (JDict [("id", JInt 12)])))
         "guid-1" 5 [])
  = inr (JDict [("success", JBool true);
                ("message", JStr "Download started successfully");
                ("release", JDict [("id", JInt 12)])]).
Proof.
  apply (proj2 (download_release_posts_guid_and_movie
                  (sample_runtime (always (JDict [("id", JInt 12)])))
                  "guid-1" 5 []) 200).
  reflexivity.
Defined.

(** X12. manage_indexers refuses, with the validation error and without
    sending anything, an action that is none of the five, and "add" or
    "update" when the indexer configuration is missing or is the empty
    object: the test on the configuration is a truth test too. *)
Theorem manage_indexers_refuses_without_request :
  forall (rt : runtime) (action : string) (indexer_id : option Z)
         (indexer_data : option (list (string * json))) (log : list request),
    ~ In action ["list"; "test"; "add"; "update"; "delete"]
    \/ ((action = "add" \/ action = "update")
        /\ (indexer_data = None \/ indexer_data = Some [])) ->
    manage_indexers rt action indexer_id indexer_data log
    = (inr (error_envelope "Invalid action or missing required parameters"),
       log).
Proof.
  intros rt action id data log H.
  unfold manage_indexers, try_except.
  destruct H as [Hnot | [[-> | ->] [-> | ->]]].
  - simpl in Hnot.
    destruct (String.eqb_spec action "list"); [subst; elim Hnot; auto 6 |].
    destruct (String.eqb_spec action "test"); [subst; elim Hnot; auto 6 |].
    destruct (String.eqb_spec action "add"); [subst; elim Hnot; auto 6 |].
    destruct (String.eqb_spec action "update"); [subst; elim Hnot; auto 6 |].
    destruct (String.eqb_spec action "delete"); [subst; elim Hnot; auto 6 |].
    reflexivity.
  - reflexivity.
  - reflexivity.
  - simpl. destruct (truthy_int id); reflexivity.
  - simpl. destruct (truthy_int id); reflexivity.
Qed.

Lemma manage_indexers_refuses_without_request_witness :
  manage_indexers (sample_runtime (always JNull)) "update" (Some 3) (Some []) []
  = (inr (error_envelope "Invalid action or missing required parameters"), []).
Proof.
  apply (manage_indexers_refuses_without_request
           (sample_runtime (always JNull)) "update" (Some 3) (Some []) []).
  right. split; [right; reflexivity | right; reflexivity].
Defined.

(** X13. With an id other than 0, manage_indexers sends for "test" a POST
    without body to "indexer/test/" and the id, for "delete" a DELETE of
    "indexer/" and the id, and for "update" with a non-empty
    configuration a PUT of that configuration to "indexer/" and the id.
    An answered "delete" returns [deleted: true] whatever the upstream
    answered; "list" ignores both the id and the configuration. *)
Theorem manage_indexers_dispatch :
  forall (rt : runtime) (n : Z) (entry : string * json)
         (more : list (string * json)) (data : option (list (string * json)))
         (id : option Z) (log : list request),
    n <> 0 ->
    snd (manage_indexers rt "test" (Some n) data log)
    = (log ++ [api rt "POST" ("indexer/test/" ++ fmt_int n) None])%list
    /\ snd (manage_indexers rt "delete" (Some n) data log)
       = (log ++ [api rt "DELETE" ("indexer/" ++ fmt_int n) None])%list
    /\ snd (manage_indexers rt "update" (Some n) (Some (entry :: more)) log)
       = (log ++ [api rt "PUT" ("indexer/" ++ fmt_int n)
                    (Some (JDict (entry :: more)))])%list
    /\ (forall (status : Z) (body : json),
          respond rt log (api rt "DELETE" ("indexer/" ++ fmt_int n) None)
          = Replies status body ->
          fst (manage_indexers rt "delete" (Some n) data log)
          = inr (JDict [("success", JBool true); ("deleted", JBool true)]))
    /\ manage_indexers rt "list" id data log
       = manage_indexers rt "list" None None log.
Proof.
  intros rt n entry more data id log Hn.
  repeat split; try (intros status body Hr);
    unfold manage_indexers, try_except, bind; simpl;
    (destruct (Z.eqb_spec n 0) as [E | _]; [contradiction |]); simpl.
  - rewrite request_post. destruct (respond rt log _); reflexivity.
  - destruct (truthy_dict data);
      rewrite request_delete; destruct (respond rt log _); reflexivity.
  - rewrite (request_sent rt _ "PUT") by (simpl; auto).
    destruct (respond rt log _); reflexivity.
  - destruct (truthy_dict data); rewrite request_delete;
      match goal with
      | |- context [respond rt log ?r] =>
          change (respond rt log r)
            with (respond rt log
                    (api rt "DELETE" ("indexer/" ++ fmt_int n) None))
      end;
      rewrite Hr; reflexivity.
Qed.

Lemma manage_indexers_dispatch_witness :
  snd (manage_indexers (sample_runtime (always JNull)) "delete" (Some 4) None [])
  = [api (sample_runtime (always JNull)) "DELETE" "indexer/4" None].
Proof.
  apply (manage_indexers_dispatch (sample_runtime (always JNull)) 4
           ("name", JStr "x") [] None None []).
  discriminate.
Defined.

(** ** get_movie_details *)

Lemma lookup_dict_set_same (d : list (string * json)) (k : string) (v : json) :
  lookup k (dict_set d k v) = Some v.
Proof.
  induction d as [| [k' v'] d IH]; simpl.
  - now rewrite String.eqb_refl.
  - destruct (String.eqb k k') eqn:E; simpl;
      [now rewrite String.eqb_refl | now rewrite E].
Qed.

Lemma lookup_dict_set_other (d : list (string * json)) (k k' : string) (v : json) :
  k' <> k -> lookup k' (dict_set d k v) = lookup k' d.
Proof.
  intros Hk. induction d as [| [k0 v0] d IH]; simpl.
  - destruct (String.eqb_spec k' k); [contradiction | reflexivity].
  - destruct (String.eqb_spec k k0) as [-> | Hne]; simpl.
    + destruct (String.eqb_spec k' k0); [contradiction | reflexivity].
    + destruct (String.eqb k' k0); [reflexivity | exact IH].
Qed.

Lemma detail_fields_lacks (movie : json) (fields : list (string * json)) :
  detail_fields movie = inr fields ->
  lookup "file_details" fields = None /\ lookup "history" fields = None.
Proof.
  intros H. apply entries_keys in H.
  split; apply lookup_absent; rewrite H; reflexivity.
Qed.

(** X14. Without history, a successful get_movie_details has sent one
    request, the GET of the movie.  Its result has no [history] field,
    and it has a [file_details] field exactly when files were asked for
    and the record has a movie file that counts as true: a missing,
    null or empty movie file gives no file details rather than an
    error. *)
Theorem get_movie_details_without_history :
  forall (rt : runtime) (movie_id : Z) (include_files : bool)
         (log : list request) (v : json),
    fst (get_movie_details rt movie_id include_files false log) = inr v ->
    succeeded v ->
    exists (status : Z) (movie : json) (result : list (string * json)),
      respond rt log (api rt "GET" ("movie/" ++ fmt_int movie_id) None)
      = Replies status movie
      /\ snd (get_movie_details rt movie_id include_files false log)
         = (log ++ [api rt "GET" ("movie/" ++ fmt_int movie_id) None])%list
      /\ v = JDict [("success", JBool true); ("movie", JDict result)]
      /\ lookup "history" result = None
      /\ (lookup "file_details" result <> None <->
          include_files = true /\ truthy (value_of "movieFile" movie) = true).
Proof.
  intros rt movie_id include_files log v.
  unfold get_movie_details, try_except, bind.
  rewrite request_get.
  change (api rt "GET" (lstrip_slash ("movie/" ++ fmt_int movie_id)) None)
    with (api rt "GET" ("movie/" ++ fmt_int movie_id) None).
  destruct (respond rt log _) as [status movie | msg | msg];
    cbn [delivered String.eqb Ascii.eqb Bool.eqb ok raise];
    [| intros [= <-] Hok; discriminate Hok ..].
  unfold pure.
  destruct (detail_fields movie) as [e | fields] eqn:Ef;
    [intros [= <-] Hok; discriminate Hok |].
  destruct (detail_fields_lacks _ _ Ef) as [Hnofile Hnohist].
  destruct movie as [| | | | | | d]; try (simpl in Ef; discriminate Ef).
  assert (Hplain : forall P : Prop, (P -> False) ->
             (lookup "file_details" fields <> None <-> P)).
  { intros P HP. rewrite Hnofile. split; [intros H; now elim H | intros H; now elim HP]. }
  destruct include_files; cbn [get_ get bind_res ok value_of].
  - destruct (lookup "movieFile" d) as [mf |] eqn:Emf.
    + destruct (truthy mf) eqn:Et.
      * cbn [item]. rewrite Emf. cbn [bind_res ok].
        destruct (file_details mf) as [e | details]; cbn;
          intros [= <-] Hok; [discriminate Hok |].
        exists status, (JDict d), (dict_set fields "file_details" details).
        cbn [value_of]; rewrite ?Emf.
        split; [reflexivity |]. split; [reflexivity |].
        split; [reflexivity |]. split.
        -- now rewrite lookup_dict_set_other.
        -- rewrite lookup_dict_set_same. split; [auto | discriminate].
      * cbn. intros [= <-] _. exists status, (JDict d), fields.
        cbn [value_of]; rewrite ?Emf.
        split; [reflexivity |]. split; [reflexivity |].
        split; [reflexivity |]. split; [assumption |].
        apply Hplain. intros [_ H]. congruence.
    + cbn. intros [= <-] _. exists status, (JDict d), fields.
      cbn [value_of]; rewrite ?Emf.
      split; [reflexivity |]. split; [reflexivity |].
      split; [reflexivity |]. split; [assumption |].
      apply Hplain. intros [_ H]. discriminate H.
  - cbn. intros [= <-] _. exists status, (JDict d), fields.
    split; [reflexivity |]. split; [reflexivity |].
    split; [reflexivity |]. split; [assumption |].
    apply Hplain. intros [H _]. discriminate H.
Qed.

Lemma get_movie_details_without_history_witness :
  exists result : list (string * json),
    fst (get_movie_details
           (sample_runtime
              (always (JDict [("id", JInt 3); ("movieFile", JDict [])])))
           3 true false [])
    = inr (JDict [("success", JBool true); ("movie", JDict result)])
    /\ lookup "history" result = None
    /\ lookup "file_details" result = None.
Proof.
  destruct (get_movie_details_without_history
              (sample_runtime
                 (always (JDict [("id", JInt 3); ("movieFile", JDict [])])))
              3 true [] _ eq_refl eq_refl)
    as (status & movie & result & Hreply & _ & Hv & Hhist & Hfile).
  exists result. split; [rewrite <- Hv; reflexivity |].
  split; [exact Hhist |].
  injection Hreply as _ <-.
  destruct (lookup "file_details" result) eqn:E; [| reflexivity].
  assert (Hsome : Some j <> None) by discriminate.
  apply Hfile in Hsome. destruct Hsome as [_ Hno]. discriminate Hno.
Defined.

(** X15. With history, a successful get_movie_details has sent the GET of
    the movie and then the GET of its history.  The [history] field of
    the result lists at most ten events: those of the first ten upstream
    records, in order, and none when the answer has no records. *)
Theorem get_movie_details_history_capped :
  forall (rt : runtime) (movie_id : Z) (include_files : bool)
         (log : list request) (v : json),
    let movie_rq := api rt "GET" ("movie/" ++ fmt_int movie_id) None in
    let history_rq :=
      api rt "GET" ("history/movie?movieId=" ++ fmt_int movie_id) None in
    fst (get_movie_details rt movie_id include_files true log) = inr v ->
    succeeded v ->
    exists (status : Z) (history : json) (result : list (string * json))
           (events : list json),
      respond rt (log ++ [movie_rq])%list history_rq = Replies status history
      /\ snd (get_movie_details rt movie_id include_files true log)
         = (log ++ [movie_rq; history_rq])%list
      /\ v = JDict [("success", JBool true); ("movie", JDict result)]
      /\ lookup "history" result = Some (JList events)
      /\ (List.length events <= 10)%nat
      /\ (field history "records" = None -> events = [])
      /\ (forall records : list json,
            field history "records" = Some (JList records) ->
            Forall2 (fun h e => history_entry h = inr e)
              (firstn 10 records) events).
Proof.
  intros rt movie_id include_files log v movie_rq history_rq.
  unfold get_movie_details, try_except, bind.
  rewrite request_get.
  change (api rt "GET" (lstrip_slash ("movie/" ++ fmt_int movie_id)) None)
    with movie_rq.
  destruct (respond rt log movie_rq) as [status movie | msg | msg];
    cbn [delivered String.eqb Ascii.eqb Bool.eqb ok raise];
    [| intros [= <-] Hok; discriminate Hok ..].
  unfold pure.
  destruct (detail_fields movie) as [e | fields] eqn:Ef;
    [intros [= <-] Hok; discriminate Hok |].
  match goal with
  | |- context [match ?x with inl _ => _ | inr _ => _ end] =>
      destruct x as [e | result] eqn:Eres;
      [intros [= <-] Hok; discriminate Hok |]
  end.
  rewrite request_get.
  change (api rt "GET"
            (lstrip_slash ("history/movie?movieId=" ++ fmt_int movie_id)) None)
    with history_rq.
  destruct (respond rt (log ++ [movie_rq]) history_rq)
    as [hstatus history | msg | msg];
    cbn [delivered String.eqb Ascii.eqb Bool.eqb ok raise];
    [| intros [= <-] Hok; discriminate Hok ..].
  match goal with
  | |- context [match ?x with inl _ => _ | inr _ => _ end] =>
      destruct x as [e | events] eqn:Eev;
      [intros [= <-] Hok; discriminate Hok |]
  end.
  cbn. intros [= <-] _.
  exists hstatus, history, (dict_set result "history" (JList events)), events.
  split; [reflexivity |]. split; [now rewrite <- app_assoc |].
  split; [reflexivity |]. split; [apply lookup_dict_set_same |].
  destruct history as [| | | | | | h]; try (simpl in Eev; discriminate Eev).
  cbn [get bind_res ok field] in Eev |- *.
  destruct (lookup "records" h) as [records |] eqn:Erec.
  - destruct records as [| | | | s | recs |]; try (simpl in Eev; discriminate Eev).
    + cbn [slice_to iter bind_res ok] in Eev.
      destruct (characters (join (firstn 10 (characters s)))) as [| c cs];
        simpl in Eev; [| discriminate Eev].
      injection Eev as <-. split; [simpl; lia |].
      split; [discriminate |]. intros records [=].
    + cbn [slice_to iter bind_res ok] in Eev.
      split; [rewrite (mapM_length _ _ _ Eev); apply firstn_le_length |].
      split; [discriminate |].
      intros records [= <-]. now apply mapM_Forall2.
  - cbn in Eev. injection Eev as <-.
    split; [simpl; lia |]. split; [reflexivity |]. intros records [=].
Qed.

Lemma get_movie_details_history_capped_witness :
  exists (result : list (string * json)) (events : list json),
    fst (get_movie_details
           (sample_runtime
              (always (JDict [("id", JInt 3);
                              ("records", repeat_events 12)])))
           3 false true [])
    = inr (JDict [("success", JBool true); ("movie", JDict result)])
    /\ lookup "history" result = Some (JList events)
    /\ (List.length events <= 10)%nat.
Proof.
  destruct (get_movie_details_history_capped
              (sample_runtime
                 (always (JDict [("id", JInt 3);
                                 ("records", repeat_events 12)])))
              3 false [] _ eq_refl eq_refl)
    as (status & history & result & events & _ & _ & Hv & Hhist & Hlen & _).
  exists result, events. split; [rewrite <- Hv; reflexivity | auto].
Defined.

(** ** Paged listings *)

Lemma records_entries (f : json -> res json) (q : list (string * json))
    (out : list json) :
  bind_res (get (JDict q) "records" (JList []))
    (fun records => bind_res (iter records) (fun l => mapM f l)) = inr out ->
  (lookup "records" q = None -> out = []) /\
  (forall records : list json,
     lookup "records" q = Some (JList records) ->
     Forall2 (fun r e => f r = inr e) records out).
Proof.
  cbn [get bind_res ok].
  destruct (lookup "records" q) as [records |]; intros H.
  - split; [discriminate |]. intros l [= ->].
    cbn [iter bind_res ok] in H. now apply mapM_Forall2.
  - cbn in H. injection H as <-. split; [reflexivity | discriminate].
Qed.

Lemma handler_single_get (rt : runtime) (endpoint : string)
    (k : json -> M json) (log : list request) :
  lstrip_slash endpoint = endpoint ->
  (forall (x : json) (lg : list request), snd (k x lg) = lg) ->
  exists v : json,
    try_except (bind (make_radarr_request rt endpoint "GET" None) k)
      (error_result rt) log
    = (inr v, (log ++ [api rt "GET" endpoint None])%list)
    /\ forall e : exn,
         failure_of (respond rt log (api rt "GET" endpoint None)) = Some e ->
         v = error_envelope (str_exn rt e).
Proof.
  intros Hstrip Hk. unfold try_except, bind. rewrite request_get, Hstrip.
  destruct (respond rt log (api rt "GET" endpoint None))
    as [status body | msg | msg]; cbn [delivered String.eqb Ascii.eqb Bool.eqb ok raise].
  - specialize (Hk body (log ++ [api rt "GET" endpoint None])%list).
    destruct (k body _) as [[e | v] lg]; cbn [snd] in Hk; subst lg.
    + eexists. split; [reflexivity |]. intros e' [=].
    + eexists. split; [reflexivity |]. intros e' [=].
  - eexists. split; [reflexivity |]. now intros e [= <-].
  - eexists. split; [reflexivity |]. now intros e [= <-].
Qed.

Lemma get_wanted_movies_single_get (rt : runtime) (page page_size : Z)
    (log : list request) :
  exists v : json,
    get_wanted_movies rt page page_size log
    = (inr v,
       (log ++ [api rt "GET"
                  ("wanted/missing?page=" ++ fmt_int page ++ "&pageSize="
                     ++ fmt_int page_size ++ "&sortKey=title") None])%list)
    /\ forall e : exn,
         failure_of
           (respond rt log
              (api rt "GET"
                 ("wanted/missing?page=" ++ fmt_int page ++ "&pageSize="
                    ++ fmt_int page_size ++ "&sortKey=title") None)) = Some e ->
         v = error_envelope (str_exn rt e).
Proof.
  apply handler_single_get; [reflexivity |].
  intros x lg. unfold bind, pure, ret.
  repeat match goal with
         | |- context [match ?r with inl _ => _ | inr _ => _ end] =>
             destruct r; cbn [fst snd]
         end; reflexivity.
Qed.

Lemma get_download_queue_single_get (rt : runtime) (page page_size : Z)
    (sort : option string) (log : list request) :
  exists v : json,
    get_download_queue rt page page_size sort log
    = (inr v,
       (log ++ [api rt "GET"
                  ("queue?page=" ++ fmt_int page ++ "&pageSize="
                     ++ fmt_int page_size ++ "&sortKey=" ++ fmt_opt_str sort)
                  None])%list)
    /\ forall e : exn,
         failure_of
           (respond rt log
              (api rt "GET"
                 ("queue?page=" ++ fmt_int page ++ "&pageSize="
                    ++ fmt_int page_size ++ "&sortKey=" ++ fmt_opt_str sort)
                 None)) = Some e ->
         v = error_envelope (str_exn rt e).
Proof.
  apply handler_single_get; [reflexivity |].
  intros x lg. unfold bind, pure, ret.
  repeat match goal with
         | |- context [match ?r with inl _ => _ | inr _ => _ end] =>
             destruct r; cbn [fst snd]
         end; reflexivity.
Qed.

(** X16. get_download_queue sends one GET, whatever the upstream does:
    the queue with the page, the page size and the sort key it was
    given.  From an answering object it passes on the paging fields,
    putting 0 for a missing total, 1 for a missing page and the page
    size asked for when the answer names none; its queue has one entry
    for each record, all of them, and is empty when the answer has no
    records. *)
Theorem get_download_queue_pages :
  forall (rt : runtime) (page page_size : Z) (sort : option string)
         (log : list request),
    let queue_rq :=
      api rt "GET"
        ("queue?page=" ++ fmt_int page ++ "&pageSize=" ++ fmt_int page_size
           ++ "&sortKey=" ++ fmt_opt_str sort) None in
    snd (get_download_queue rt page page_size sort log)
    = (log ++ [queue_rq])%list
    /\ forall (status : Z) (q : list (string * json)) (v : json),
         respond rt log queue_rq = Replies status (JDict q) ->
         fst (get_download_queue rt page page_size sort log) = inr v ->
         succeeded v ->
         exists items : list json,
           v = JDict [("success", JBool true);
                      ("total_records",
                       match lookup "totalRecords" q with
                       | Some n => n
                       | None => JInt 0
                       end);
                      ("page",
                       match lookup "page" q with
                       | Some n => n
                       | None => JInt 1
                       end);
                      ("page_size",
                       match lookup "pageSize" q with
                       | Some n => n
                       | None => JInt page_size
                       end);
                      ("queue", JList items)]
           /\ (lookup "records" q = None -> items = [])
           /\ (forall records : list json,
                 lookup "records" q = Some (JList records) ->
                 Forall2 (fun r e => queue_entry r = inr e) records items).
Proof.
  intros rt page page_size sort log queue_rq. split.
  { destruct (get_download_queue_single_get rt page page_size sort log)
      as (v & Hrun & _).
    now rewrite Hrun. }
  intros status q v Hreply.
  unfold get_download_queue, try_except, bind.
  rewrite request_get.
  match goal with
  | |- context [respond rt log ?r] =>
      change (respond rt log r) with (respond rt log queue_rq)
  end.
  rewrite Hreply. cbn [delivered String.eqb Ascii.eqb Bool.eqb ok].
  unfold pure.
  match goal with
  | |- context [match ?x with inl _ => _ | inr _ => _ end] =>
      destruct x as [e | items] eqn:Eit;
      [cbn; intros [= <-] Hok; discriminate Hok |]
  end.
  cbn. intros [= <-] _. exists items. split; [reflexivity |].
  now apply records_entries.
Qed.

Lemma get_download_queue_pages_witness :
  get_download_queue (sample_runtime (always (JDict [("page", JInt 2)])))
    2 50 None []
  = (inr (JDict [("success", JBool true); ("total_records", JInt 0);
                 ("page", JInt 2); ("page_size", JInt 50);
                 ("queue", JList [])]),
     [api (sample_runtime (always (JDict [("page", JInt 2)]))) "GET"
        "queue?page=2&pageSize=50&sortKey=None" None]).
Proof.
  destruct (get_download_queue_pages
              (sample_runtime (always (JDict [("page", JInt 2)])))
              2 50 None []) as (Hlog & Hresult).
  destruct (Hresult 200 [("page", JInt 2)] _ eq_refl eq_refl eq_refl)
    as (items & Hv & Hnone & _).
  rewrite (Hnone eq_refl) in Hv.
  apply injective_projections; [| exact Hlog].
  exact (f_equal (@inr exn json) Hv).
Defined.

(** X17. get_wanted_movies sends one GET, whatever the upstream does: the
    missing movies with the page and page size it was given, always
    sorted by title.  From an answering object it passes on the total
    and the page, 0 and 1 when they are missing, and lists one entry for
    each record, none when the answer has no records. *)
Theorem get_wanted_movies_pages :
  forall (rt : runtime) (page page_size : Z) (log : list request),
    let wanted_rq :=
      api rt "GET"
        ("wanted/missing?page=" ++ fmt_int page ++ "&pageSize="
           ++ fmt_int page_size ++ "&sortKey=title") None in
    snd (get_wanted_movies rt page page_size log) = (log ++ [wanted_rq])%list
    /\ forall (status : Z) (q : list (string * json)) (v : json),
         respond rt log wanted_rq = Replies status (JDict q) ->
         fst (get_wanted_movies rt page page_size log) = inr v ->
         succeeded v ->
         exists items : list json,
           v = JDict [("success", JBool true);
                      ("total_records",
                       match lookup "totalRecords" q with
                       | Some n => n
                       | None => JInt 0
                       end);
                      ("page",
                       match lookup "page" q with
                       | Some n => n
                       | None => JInt 1
                       end);
                      ("wanted_movies", JList items)]
           /\ (lookup "records" q = None -> items = [])
           /\ (forall records : list json,
                 lookup "records" q = Some (JList records) ->
                 Forall2 (fun r e => wanted_entry r = inr e) records items).
Proof.
  intros rt page page_size log wanted_rq. split.
  { destruct (get_wanted_movies_single_get rt page page_size log)
      as (v & Hrun & _).
    now rewrite Hrun. }
  intros status q v Hreply.
  unfold get_wanted_movies, try_except, bind.
  rewrite request_get.
  match goal with
  | |- context [respond rt log ?r] =>
      change (respond rt log r) with (respond rt log wanted_rq)
  end.
  rewrite Hreply. cbn [delivered String.eqb Ascii.eqb Bool.eqb ok].
  unfold pure.
  match goal with
  | |- context [match ?x with inl _ => _ | inr _ => _ end] =>
      destruct x as [e | items] eqn:Eit;
      [cbn; intros [= <-] Hok; discriminate Hok |]
  end.
  cbn. intros [= <-] _. exists items. split; [reflexivity |].
  now apply records_entries.
Qed.

Lemma get_wanted_movies_pages_witness :
  get_wanted_movies (sample_runtime (always (JDict [("totalRecords", JInt 0)])))
    1 20 []
  = (inr (JDict [("success", JBool true); ("total_records", JInt 0);
                 ("page", JInt 1); ("wanted_movies", JList [])]),
     [api (sample_runtime (always (JDict [("totalRecords", JInt 0)]))) "GET"
        "wanted/missing?page=1&pageSize=20&sortKey=title" None]).
Proof.
  destruct (get_wanted_movies_pages
              (sample_runtime (always (JDict [("totalRecords", JInt 0)])))
              1 20 []) as (Hlog & Hresult).
  destruct (Hresult 200 [("totalRecords", JInt 0)] _ eq_refl eq_refl eq_refl)
    as (items & Hv & Hnone & _).
  rewrite (Hnone eq_refl) in Hv.
  apply injective_projections; [| exact Hlog].
  exact (f_equal (@inr exn json) Hv).
Defined.

(** ** get_system_status and get_system_defaults *)

(** X18. get_system_status asks for the status, the health checks and the
    disk space, in this order, and stops at the first request that fails:
    nothing is asked after a failure, and what was asked before it is
    not undone. *)
Theorem get_system_status_stops_at_failure :
  forall (rt : runtime) (log : list request),
    let status_rq := api rt "GET" "system/status" None in
    let health_rq := api rt "GET" "health" None in
    let disk_rq := api rt "GET" "diskspace" None in
    snd (get_system_status rt log)
    = (log ++
       match failure_of (respond rt log status_rq) with
       | Some _ => [status_rq]
       | None =>
           match failure_of (respond rt (log ++ [status_rq]) health_rq) with
           | Some _ => [status_rq; health_rq]
           | None => [status_rq; health_rq; disk_rq]
           end
       end)%list.
Proof.
  intros rt log status_rq health_rq disk_rq.
  unfold get_system_status, try_except, bind.
  rewrite request_get. change (lstrip_slash "system/status") with "system/status".
  fold status_rq.
  destruct (respond rt log status_rq) as [s1 status | msg | msg];
    cbn [delivered failure_of String.eqb Ascii.eqb Bool.eqb ok raise];
    [| reflexivity ..].
  rewrite request_get. change (lstrip_slash "health") with "health".
  fold health_rq.
  destruct (respond rt (log ++ [status_rq]) health_rq) as [s2 health | msg | msg];
    cbn [delivered failure_of String.eqb Ascii.eqb Bool.eqb ok raise];
    [| now rewrite <- app_assoc ..].
  rewrite request_get. change (lstrip_slash "diskspace") with "diskspace".
  fold disk_rq.
  destruct (respond rt ((log ++ [status_rq]) ++ [health_rq]) disk_rq)
    as [s3 disk | msg | msg];
    cbn [delivered String.eqb Ascii.eqb Bool.eqb ok raise];
    try (now rewrite <- !app_assoc).
  unfold pure.
  match goal with
  | |- context [obj ?es] => destruct (obj es)
  end; cbn; now rewrite <- !app_assoc.
Qed.

Lemma root_folder_entry_counts (rf e : json) :
  root_folder_entry rf = inr e ->
  (field rf "unmappedFolders" = None ->
   field e "unmapped_folders" = Some (JInt 0))
  /\ (forall u : list json,
        field rf "unmappedFolders" = Some (JList u) ->
        field e "unmapped_folders" = Some (JNat (List.length u))).
Proof.
  intros H. unfold root_folder_entry in H.
  match type of H with
  | obj ?es = _ =>
      destruct (obj_lookup es e H "unmapped_folders"
                  (bind_res (get rf "unmappedFolders" (JList []))
                     (fun u => bind_res (py_len u) (fun n => ok (JNat n))))
                  eq_refl) as (x & Hx & ->)
  end.
  destruct rf; simpl in Hx; try discriminate Hx. cbn [field].
  destruct (lookup "unmappedFolders" d) as [u |].
  - split; [discriminate |]. intros l [= ->].
    cbn [get bind_res ok py_len] in Hx. now injection Hx as <-.
  - split; [| discriminate]. intros _.
    cbn [get bind_res ok py_len] in Hx. now injection Hx as <-.
Qed.

(** X19. When both answers are lists and get_system_defaults succeeds, the
    result lists the quality profiles and the root folders: one entry for
    each upstream profile and folder, in order.  A folder entry counts
    the unmapped folders of its folder, 0 when the folder names none. *)
Theorem get_system_defaults_lists_all :
  forall (rt : runtime) (log : list request) (s1 s2 : Z)
         (profiles folders : list json) (v : json),
    respond rt log (api rt "GET" "qualityprofile" None)
    = Replies s1 (JList profiles) ->
    respond rt (log ++ [api rt "GET" "qualityprofile" None])%list
      (api rt "GET" "rootfolder" None)
    = Replies s2 (JList folders) ->
    fst (get_system_defaults rt log) = inr v ->
    succeeded v ->
    exists ps fs : list json,
      v = JDict [("success", JBool true);
                 ("quality_profiles", JList ps);
                 ("root_folders", JList fs)]
      /\ Forall2 (fun p e => profile_entry p = inr e) profiles ps
      /\ Forall2
           (fun rf e =>
              root_folder_entry rf = inr e /\
              (field rf "unmappedFolders" = None ->
               field e "unmapped_folders" = Some (JInt 0)) /\
              (forall u : list json,
                 field rf "unmappedFolders" = Some (JList u) ->
                 field e "unmapped_folders" = Some (JNat (List.length u))))
           folders fs.
Proof.
  intros rt log s1 s2 profiles folders v Hp Hf.
  unfold get_system_defaults, try_except, bind.
  rewrite request_get. change (lstrip_slash "qualityprofile") with "qualityprofile".
  rewrite Hp. cbn [delivered String.eqb Ascii.eqb Bool.eqb ok].
  rewrite request_get. change (lstrip_slash "rootfolder") with "rootfolder".
  rewrite Hf. cbn [delivered String.eqb Ascii.eqb Bool.eqb ok].
  unfold pure, obj, comprehension. cbn [entries iter bind_res ok].
  destruct (mapM profile_entry profiles) as [e | ps] eqn:Eps;
    cbn [bind_res ok]; [cbn; intros [= <-] Hok; discriminate Hok |].
  destruct (mapM root_folder_entry folders) as [e | fs] eqn:Efs;
    cbn [bind_res ok]; [cbn; intros [= <-] Hok; discriminate Hok |].
  cbn. intros [= <-] _. exists ps, fs. split; [reflexivity |].
  split; [now apply mapM_Forall2 |].
  apply mapM_Forall2 in Efs. eapply Forall2_impl; [| exact Efs].
  intros rf e Hrf. split; [assumption |]. now apply root_folder_entry_counts.
Qed.

Lemma get_system_defaults_lists_all_witness :
  exists ps fs : list json,
    fst (get_system_defaults
           (sample_runtime
              (always (JList [JDict [("id", JInt 1); ("path", JStr "/movies")]])))
           [])
    = inr (JDict [("success", JBool true);
                  ("quality_profiles", JList ps);
                  ("root_folders", JList fs)])
    /\ List.length ps = 1%nat /\ List.length fs = 1%nat.
Proof.
  destruct (get_system_defaults_lists_all
              (sample_runtime
                 (always (JList [JDict [("id", JInt 1); ("path", JStr "/movies")]])))
              [] 200 200
              [JDict [("id", JInt 1); ("path", JStr "/movies")]]
              [JDict [("id", JInt 1); ("path", JStr "/movies")]]
              _ eq_refl eq_refl eq_refl eq_refl)
    as (ps & fs & Hv & Hps & Hfs).
  exists ps, fs. split; [exact (f_equal (@inr exn json) Hv) |].
  split;
    [apply Forall2_length in Hps | apply Forall2_length in Hfs];
    now symmetry.
Defined.

(** ** search_movies, further *)

(** X20. search_movies always sends exactly one request, the lookup of a
    term put into the URL as it is: the query alone when no year is
    given, the query, a blank and the year otherwise.  Year 0 counts as
    no year. *)
Theorem search_movies_term :
  forall (rt : runtime) (query : string) (log : list request),
    search_movies rt query (Some 0) log = search_movies rt query None log
    /\ snd (search_movies rt query None log)
       = (log ++ [api rt "GET" ("movie/lookup?term=" ++ query) None])%list
    /\ forall y : Z,
         y <> 0 ->
         snd (search_movies rt query (Some y) log)
         = (log ++ [api rt "GET"
                      ("movie/lookup?term=" ++ query ++ " " ++ fmt_int y)
                      None])%list.
Proof.
  intros rt query log.
  assert (Hone : forall year,
             snd (search_movies rt query year log)
             = (log ++ [api rt "GET"
                          ("movie/lookup?term=" ++ search_term query year)
                          None])%list).
  { intros year. unfold search_movies, try_except, bind.
    rewrite request_get.
    change (lstrip_slash ("movie/lookup?term=" ++ search_term query year))
      with ("movie/lookup?term=" ++ search_term query year).
    destruct (respond rt log _); cbn; try reflexivity.
    unfold pure.
    match goal with
    | |- context [match ?x with inl _ => _ | inr _ => _ end] => destruct x
    end; reflexivity. }
  split; [reflexivity |]. split; [apply Hone |].
  intros y Hy. rewrite Hone. unfold search_term. simpl.
  now destruct (Z.eqb_spec y 0).
Qed.



(** ** search_movie_releases, further *)

(** X22. With no sort_by, or one that is none of "seeders", "size" and
    "quality", search_movie_releases does not sort: when the upstream
    answers with a list and the call succeeds, the entries are those of
    the first twenty releases in upstream order. *)
Theorem search_movie_releases_unsorted :
  forall (rt : runtime) (movie_id : Z) (sort_by : option string)
         (log : list request) (st : Z) (releases : list json) (v : json),
    (forall name : string,
       sort_by = Some name -> ~ In name ["seeders"; "size"; "quality"]) ->
    respond rt log (api rt "GET" ("release?movieId=" ++ fmt_int movie_id) None)
    = Replies st (JList releases) ->
    fst (search_movie_releases rt movie_id sort_by log) = inr v ->
    succeeded v ->
    exists out : list json,
      v = JDict [("success", JBool true);
                 ("releases_count", JNat (List.length out));
                 ("releases", JList out)]
      /\ Forall2 (fun release entry => release_entry release = inr entry)
           (firstn 20 releases) out.
Proof.
  intros rt movie_id sort_by log st releases v Hname Hreply.
  assert (Hkey : sort_key sort_by = None).
  { unfold sort_key, is_str. destruct sort_by as [name |]; [| reflexivity].
    specialize (Hname name eq_refl). simpl in Hname.
    destruct (String.eqb_spec name "seeders"); [subst; elim Hname; auto |].
    destruct (String.eqb_spec name "size"); [subst; elim Hname; auto |].
    destruct (String.eqb_spec name "quality"); [subst; elim Hname; auto |].
    reflexivity. }
  unfold search_movie_releases, try_except, bind.
  rewrite request_get.
  change (api rt "GET" (lstrip_slash ("release?movieId=" ++ fmt_int movie_id)) None)
    with (api rt "GET" ("release?movieId=" ++ fmt_int movie_id) None).
  rewrite Hreply. cbn [delivered String.eqb Ascii.eqb Bool.eqb ok].
  unfold pure. rewrite Hkey. cbn [slice_to iter bind_res ok].
  destruct (mapM release_entry (firstn 20 releases)) as [e | out] eqn:Eout;
    cbn; intros [= <-] Hok; [discriminate Hok |].
  exists out. split; [reflexivity |]. now apply mapM_Forall2.
Qed.

Lemma search_movie_releases_unsorted_witness :
  exists out : list json,
    fst (search_movie_releases (sample_runtime (always (JList found_releases)))
           5 (Some "age") [])
    = inr (JDict [("success", JBool true);
                  ("releases_count", JNat (List.length out));
                  ("releases", JList out)])
    /\ Forall2 (fun release entry => release_entry release = inr entry)
         (firstn 20 found_releases) out.
Proof.
  assert (Hname : forall name : string,
             Some "age" = Some name ->
             ~ In name ["seeders"; "size"; "quality"]).
  { intros name [= <-]. simpl. intros [H | [H | [H | []]]]; discriminate H. }
  destruct (search_movie_releases_unsorted
              (sample_runtime (always (JList found_releases))) 5 (Some "age")
              [] 200 found_releases _ Hname eq_refl eq_refl eq_refl)
    as (out & Hv & Hall).
  exists out. split; [exact (f_equal (@inr exn json) Hv) | exact Hall].
Defined.

Lemma insert_desc_keeps_ties (c : Q) (x : json * json)
    (l r : list (json * json)) :
  insert_desc x l = inr r ->
  filter (key_weighs c) r = filter (key_weighs c) (x :: l).
Proof.
  revert r. induction l as [| y l IH]; intros r; simpl insert_desc.
  - now intros [= <-].
  - destruct (py_lt (fst x) (fst y)) as [e | below] eqn:Elt; simpl;
      [discriminate |].
    destruct below; [| now intros [= <-]].
    destruct (insert_desc x l) as [e | r'] eqn:Er; simpl; [discriminate |].
    intros [= <-]. specialize (IH r' eq_refl).
    cbn [filter] in IH |- *. rewrite IH.
    destruct (key_weighs c x) eqn:Ex; [| reflexivity].
    destruct (key_weighs c y) eqn:Ey; [| reflexivity].
    exfalso. unfold key_weighs in Ex, Ey.
    destruct (num_val (fst x)) as [p |] eqn:Ep; [| discriminate].
    destruct (num_val (fst y)) as [q |] eqn:Eq; [| discriminate].
    destruct (py_lt_num_l _ _ _ _ Elt Ep) as (q' & Hq' & Hc).
    rewrite Eq in Hq'. injection Hq' as <-.
    apply Qeq_bool_iff in Ex, Ey.
    symmetry in Hc. apply negb_true_iff in Hc.
    assert (Hle : Qle q p) by (rewrite Ex, Ey; apply Qle_refl).
    apply Qle_bool_iff in Hle. congruence.
Qed.

Lemma sort_desc_keeps_ties (c : Q) (l s : list (json * json)) :
  sort_desc l = inr s -> filter (key_weighs c) s = filter (key_weighs c) l.
Proof.
  revert s. induction l as [| x l IH]; intros s; simpl sort_desc.
  - now intros [= <-].
  - destruct (sort_desc l) as [e | s'] eqn:Es; simpl; [discriminate |].
    intros H. rewrite (insert_desc_keeps_ties c _ _ _ H).
    cbn [filter]. now rewrite (IH s' eq_refl).
Qed.

(** X23. The sort keeps ties in place: among the releases of one weight
    (one seeder count, one size, one quality id), the sorted list has
    the upstream order. *)
Theorem sort_reverse_keeps_ties :
  forall (key : json -> res json) (l s : list json) (c : Q),
    sort_reverse key (JList l) = inr (JList s) ->
    filter (has_weight key c) s = filter (has_weight key c) l.
Proof.
  intros key l s c. unfold sort_reverse.
  destruct (mapM (with_key key) l) as [e | keyed] eqn:Ek; simpl;
    [discriminate |].
  destruct (sort_desc keyed) as [e | sorted] eqn:Es; simpl; [discriminate |].
  intros [= <-].
  destruct (with_key_items _ _ _ Ek) as [Hmap Hkeys].
  pose proof (sort_desc_perm _ _ Es) as Hperm.
  assert (Hskeys : Forall (fun kx => key (snd kx) = inr (fst kx)) sorted)
    by now apply (Permutation_Forall (Permutation_sym Hperm)).
  assert (Hitems : forall ks,
             Forall (fun kx => key (snd kx) = inr (fst kx)) ks ->
             filter (has_weight key c) (map snd ks)
             = map snd (filter (key_weighs c) ks)).
  { induction 1 as [| kx ks Hkx _ IH]; [reflexivity |].
    cbn [map filter]. rewrite IH.
    assert (Heq : has_weight key c (snd kx) = key_weighs c kx)
      by (unfold has_weight, weight, key_weighs; now rewrite Hkx).
    rewrite Heq. now destruct (key_weighs c kx). }
  rewrite <- Hmap, !Hitems by assumption.
  now rewrite (sort_desc_keeps_ties c _ _ Es).
Qed.

Lemma sort_reverse_keeps_ties_witness :
  exists s : list json,
    sort_reverse (fun x => get x "seeders" (JInt 0)) (JList found_releases)
    = inr (JList s)
    /\ map (value_of "guid")
         (filter (has_weight (fun x => get x "seeders" (JInt 0)) (inject_Z 3)) s)
       = [JStr "a"; JStr "e"].
Proof.
  destruct (sort_reverse (fun x => get x "seeders" (JInt 0))
              (JList found_releases)) as [e | [| | | | | s |]] eqn:E;
    try (cbv in E; discriminate E).
  exists s. split; [reflexivity |].
  rewrite (sort_reverse_keeps_ties _ _ _ (inject_Z 3) E). reflexivity.
Defined.

(** ** The resources *)

Lemma get_movies_single_get (rt : runtime) (monitored : option bool)
    (status : option string) (quality_profile_id : option Z)
    (log : list request) :
  exists v : json,
    get_movies rt monitored status quality_profile_id log
    = (inr v, (log ++ [api rt "GET" "movie" None])%list)
    /\ forall e : exn,
         failure_of (respond rt log (api rt "GET" "movie" None)) = Some e ->
         v = error_envelope (str_exn rt e).
Proof.
  apply handler_single_get; [reflexivity |].
  intros x lg. unfold bind, pure, ret.
  repeat match goal with
         | |- context [match ?r with inl _ => _ | inr _ => _ end] =>
             destruct r; cbn [fst snd]
         end; reflexivity.
Qed.

(** What movie_collection makes of a tool result. *)
Lemma collection_text (rt : runtime) (v : json) (lg : list request) :
  one_shape v ->
  exists text : string,
    try_except
      (bind (ret v) (fun result =>
       bind (pure (get_ result "success")) (fun success =>
       if truthy success then ret (dumps rt (Some 2%nat) result)
       else bind (pure (get result "error" (JStr "Unknown error")))
              (fun message => ret (dumps rt None (JDict [("error", message)]))))))
      (fun e => ret (dumps rt None (JDict [("error", JStr (str_exn rt e))]))) lg
    = (inr text, lg)
    /\ forall msg : string,
         v = error_envelope msg -> text = dumps rt None (error_envelope msg).
Proof.
  intros [[Hs He] | (msg & ->)].
  - destruct v; try discriminate Hs. cbn [field] in Hs, He.
    unfold try_except, bind, ret, pure. cbn [get_ get ok]. rewrite Hs.
    eexists. split; [reflexivity |].
    intros msg [= ->]. discriminate Hs.
  - eexists. split; [reflexivity |]. now intros msg' [= <-].
Qed.

(** X24. movie_collection never raises: whatever the filter and the
    upstream, it returns a text and has sent exactly one GET, of the
    wanted list (page 1, 20 a page, sorted by title) for "wanted" and of
    the whole library otherwise.  When that request fails, the text is
    the serialization, without indentation, of the object holding the
    error message. *)
Theorem movie_collection_always_text :
  forall (rt : runtime) (filter : string) (log : list request),
    let rq :=
      api rt "GET"
        (if filter =? "wanted"
         then "wanted/missing?page=1&pageSize=20&sortKey=title"
         else "movie") None in
    exists text : string,
      movie_collection rt filter log = (inr text, (log ++ [rq])%list)
      /\ (forall msg : string,
            respond rt log rq = RaisesClientError msg ->
            text = dumps rt None
                     (JDict [("error",
                              JStr ("Failed to communicate with Radarr: "
                                      ++ msg))]))
      /\ (forall msg : string,
            respond rt log rq = RaisesOther msg ->
            text = dumps rt None (JDict [("error", JStr msg)])).
Proof.
  intros rt filter log rq.
  assert (Htool : exists v : json,
             (if filter =? "wanted" then get_wanted_movies rt 1 20
              else if filter =? "monitored" then get_movies rt (Some true) None None
              else if filter =? "unmonitored"
                   then get_movies rt (Some false) None None
              else get_movies rt None None None) log
             = (inr v, (log ++ [rq])%list)
             /\ one_shape v
             /\ forall e : exn,
                  failure_of (respond rt log rq) = Some e ->
                  v = error_envelope (str_exn rt e)).
  { subst rq. destruct (filter =? "wanted").
    - destruct (get_wanted_movies_single_get rt 1 20 log) as (v & Hrun & Hfail).
      exists v. split; [exact Hrun |]. split; [| exact Hfail].
      apply (tools_one_shape rt (GetWantedMovies 1 20) log).
      cbn [invoke]. now rewrite Hrun.
    - destruct (filter =? "monitored"); [| destruct (filter =? "unmonitored")];
        match goal with
        | |- context [get_movies rt ?m None None log] =>
            destruct (get_movies_single_get rt m None None log)
              as (v & Hrun & Hfail);
            exists v; split; [exact Hrun |]; split; [| exact Hfail];
            apply (tools_one_shape rt (GetMovies m None None) log);
            cbn [invoke]; now rewrite Hrun
        end. }
  destruct Htool as (v & Hrun & Hshape & Hfail).
  destruct (collection_text rt v (log ++ [rq])%list Hshape) as (text & Htext & Herr).
  exists text. split.
  - unfold movie_collection, try_except, bind.
    unfold try_except, bind in Htext. cbn [ret] in Htext.
    rewrite Hrun. exact Htext.
  - split; intros msg Hout.
    + apply (Herr ("Failed to communicate with Radarr: " ++ msg)).
      apply (Hfail (Exception ("Failed to communicate with Radarr: " ++ msg))).
      now rewrite Hout.
    + apply (Herr msg). apply (Hfail (Foreign msg)). now rewrite Hout.
Qed.

Lemma movie_collection_always_text_witness :
  movie_collection (sample_runtime unreachable) "wanted" []
  = (inr (sample_dumps
            (JDict [("error",
                     JStr "Failed to communicate with Radarr: Cannot connect to host radarr.local:7878")])),
     [api (sample_runtime unreachable) "GET"
        "wanted/missing?page=1&pageSize=20&sortKey=title" None]).
Proof.
  destruct (movie_collection_always_text (sample_runtime unreachable) "wanted" [])
    as (text & Hrun & Hclient & _).
  rewrite Hrun.
  rewrite (Hclient "Cannot connect to host radarr.local:7878" eq_refl).
  reflexivity.
Defined.

Lemma keep_equal_records (k : string) (wanted : json) (l : list json) :
  Forall (fun m => exists d, m = JDict d) l ->
  keep_equal k wanted (JList l) = inr (JList (filter (field_equals k wanted) l)).
Proof.
  intros Hl. unfold keep_equal. cbn [iter bind_res ok].
  assert (H : filterM (fun m => bind_res (get_ m k)
                                  (fun v => ok (py_eq v wanted))) l
              = inr (filter (field_equals k wanted) l)).
  { induction Hl as [| m l (d & ->) _ IH]; [reflexivity |].
    cbn [filterM get_ get bind_res ok]. rewrite IH. reflexivity. }
  now rewrite H.
Qed.

(** X25. For the filters "monitored" and "unmonitored", movie_collection
    returns the text of the movies whose monitored flag equals true,
    respectively false, and of no others, when the upstream answers with
    a list of records. *)
Theorem movie_collection_by_monitoring :
  forall (rt : runtime) (flag : bool) (log : list request) (st : Z)
         (movies out : list json),
    respond rt log (api rt "GET" "movie" None) = Replies st (JList movies) ->
    Forall (fun m => exists d, m = JDict d) movies ->
    mapM library_entry
      (filter (field_equals "monitored" (JBool flag)) movies) = inr out ->
    movie_collection rt (if flag then "monitored" else "unmonitored") log
    = (inr (dumps rt (Some 2%nat)
              (JDict [("success", JBool true);
                      ("total_count", JNat (List.length out));
                      ("movies", JList out)])),
       (log ++ [api rt "GET" "movie" None])%list).
Proof.
  intros rt flag log st movies out Hreply Hrec Hout.
  assert (Hrun : get_movies rt (Some flag) None None log
                 = (inr (JDict [("success", JBool true);
                                ("total_count", JNat (List.length out));
                                ("movies", JList out)]),
                    (log ++ [api rt "GET" "movie" None])%list)).
  { unfold get_movies, try_except, bind.
    rewrite request_get. change (lstrip_slash "movie") with "movie".
    rewrite Hreply. cbn [delivered String.eqb Ascii.eqb Bool.eqb ok].
    unfold pure. rewrite (keep_equal_records _ _ _ Hrec).
    cbn [iter bind_res ok]. rewrite Hout. reflexivity. }
  unfold movie_collection, try_except, bind.
  destruct flag; cbn [String.eqb Ascii.eqb Bool.eqb]; rewrite Hrun; reflexivity.
Qed.

Lemma movie_collection_by_monitoring_witness :
  exists out : list json,
    List.length out = 1%nat
    /\ movie_collection (sample_runtime (always (JList library)))
         "unmonitored" []
       = (inr (sample_dumps
                 (JDict [("success", JBool true);
                         ("total_count", JNat (List.length out));
                         ("movies", JList out)])),
          [api (sample_runtime (always (JList library))) "GET" "movie" None]).
Proof.
  destruct (mapM library_entry
              (filter (field_equals "monitored" (JBool false)) library))
    as [e | out] eqn:E; [cbv in E; discriminate E |].
  exists out. split.
  - apply mapM_length in E. exact E.
  - apply (movie_collection_by_monitoring
             (sample_runtime (always (JList library))) false [] 200 library out);
      [reflexivity | | exact E].
    repeat constructor; eexists; reflexivity.
Defined.

(** X26. movie_details never raises.  When [int] rejects the id, nothing
    is sent and the text is the serialization of the error.  When [int]
    reads a number, the text is the serialization, indented, of whatever
    get_movie_details returns for that number with files and history
    both asked for, be it a success or an error object. *)
Theorem movie_details_reads_id :
  forall (rt : runtime) (py_int : string -> res Z) (movie_id : string)
         (log : list request),
    (forall e : exn,
       py_int movie_id = inl e ->
       movie_details rt py_int movie_id log
       = (inr (dumps rt None (JDict [("error", JStr (str_exn rt e))])), log))
    /\ (forall n : Z,
          py_int movie_id = inr n ->
          exists (v : json) (sent : list request),
            get_movie_details rt n true true log = (inr v, (log ++ sent)%list)
            /\ (List.length sent <= 2)%nat
            /\ movie_details rt py_int movie_id log
               = (inr (dumps rt (Some 2%nat) v), (log ++ sent)%list)).
Proof.
  intros rt py_int movie_id log. split.
  - intros e He. unfold movie_details, try_except, bind, pure. now rewrite He.
  - intros n Hn.
    destruct (tool_converts rt (GetMovieDetails n true true) log)
      as (v & sent & Hrun & _).
    destruct (tools_within_budget rt (GetMovieDetails n true true) log)
      as (sent' & Hlog & Hlen).
    cbn [invoke request_budget] in Hrun, Hlog, Hlen.
    rewrite Hrun in Hlog. cbn [snd] in Hlog.
    apply app_inv_head in Hlog. subst sent'.
    exists v, sent. split; [exact Hrun |]. split; [exact Hlen |].
    unfold movie_details, try_except, bind, pure. rewrite Hn, Hrun. reflexivity.
Qed.

Lemma movie_details_reads_id_witness :
  movie_details (sample_runtime (always JNull))
    (fun s => if s =? "12" then inr 12
              else inl (Foreign ("invalid literal for int(): " ++ s)))
    "twelve" []
  = (inr (sample_dumps
            (JDict [("error", JStr "invalid literal for int(): twelve")])), []).
Proof.
  apply (proj1 (movie_details_reads_id (sample_runtime (always JNull))
                  (fun s => if s =? "12" then inr 12
                            else inl (Foreign ("invalid literal for int(): "
                                                 ++ s)))
                  "twelve" [])
           (Foreign "invalid literal for int(): twelve")).
  reflexivity.
Defined.

(** ** The shared session *)

Lemma get_session_keeps (st : session_state) :
  one_session st ->
  fst (get_session st) = 0%nat
  /\ one_session (snd (get_session st))
  /\ session (snd (get_session st)) = Some 0%nat.
Proof.
  unfold get_session.
  intros [(Hs & Hc & Hcl) | (Hs & Hc & Hcl)]; rewrite Hs; cbn [fst snd].
  - rewrite Hc. split; [reflexivity |]. split; [| reflexivity].
    right. cbn. rewrite Hcl. auto.
  - split; [reflexivity |]. split; [right; auto | assumption].
Qed.

Lemma cleanup_keeps (st : session_state) :
  one_session st ->
  one_session (cleanup st) /\ session (cleanup st) = session st.
Proof.
  unfold cleanup.
  intros [(Hs & Hc & Hcl) | (Hs & Hc & Hcl)]; rewrite Hs.
  - split; [left; auto | assumption].
  - split; [right; cbn; auto | reflexivity].
Qed.

Lemma use_session_keeps (uses : list session_use) (st : session_state) :
  one_session st ->
  Forall (eq 0%nat) (fst (use_session uses st))
  /\ one_session (snd (use_session uses st))
  /\ (session st = Some 0%nat \/ In Acquire uses ->
      session (snd (use_session uses st)) = Some 0%nat).
Proof.
  revert st. induction uses as [| u uses IH]; intros st Hst; cbn [use_session].
  - cbn. split; [constructor |]. split; [assumption |]. now intros [H | []].
  - destruct u.
    + destruct (get_session_keeps st Hst) as (Hfst & Hinv & Hsome).
      destruct (get_session st) as [s st']. cbn [fst snd] in *. subst s.
      destruct (IH st' Hinv) as (H1 & H2 & H3).
      destruct (use_session uses st') as [handed final]. cbn [fst snd] in *.
      split; [now constructor |]. split; [assumption |]. auto.
    + destruct (cleanup_keeps st Hst) as (Hinv & Hsame).
      destruct (IH (cleanup st) Hinv) as (H1 & H2 & H3).
      split; [assumption |]. split; [assumption |].
      intros [H | [H | H]]; [| discriminate H |]; apply H3; [left | right];
        congruence.
Qed.

(** X27. However acquisitions and clean-ups follow each other from the
    start of the process, at most one session object is constructed,
    every acquisition hands out that same object, and nothing but it is
    closed.  Once made, the session stays the module's session: a
    clean-up closes it but does not reset it, so a later acquisition
    hands out the closed session. *)
Theorem one_session_for_the_process :
  forall uses : list session_use,
    let handed := fst (use_session uses no_session) in
    let final := snd (use_session uses no_session) in
    Forall (eq 0%nat) handed
    /\ (constructed final <= 1)%nat
    /\ Forall (eq 0%nat) (closed final)
    /\ (In Acquire uses -> session final = Some 0%nat)
    /\ (~ In Acquire uses -> final = no_session).
Proof.
  intros uses handed final. subst handed final.
  destruct (use_session_keeps uses no_session) as (H1 & H2 & H3);
    [left; auto |].
  split; [assumption |].
  split; [destruct H2 as [(_ & -> & _) | (_ & -> & _)]; lia |].
  split; [destruct H2 as [(_ & _ & ->) | (_ & _ & H)]; auto |].
  split; [auto |].
  clear. induction uses as [| [] uses IH]; intros Hno; cbn [use_session].
  - reflexivity.
  - elim Hno. now left.
  - apply IH. intros H. apply Hno. now right.
Qed.

Lemma one_session_for_the_process_witness :
  session (snd (use_session [Acquire; Cleanup; Acquire] no_session))
  = Some 0%nat.
Proof.
  apply (one_session_for_the_process [Acquire; Cleanup; Acquire]).
  now left.
Defined.


(** ** add_movie and get_calendar, failing early *)

Section Early.

Variable rt : runtime.

Lemma handler_after {A} (m : M A) (k : A -> M json) (a : A)
    (log log1 : list request) :
  m log = (inr a, log1) ->
  try_except (bind m k) (error_result rt) log
  = try_except (k a) (error_result rt) log1.
Proof. intros Hm. unfold try_except, bind. now rewrite Hm. Qed.

Lemma handler_refuses (body : M json) :
  yields error_shape body ->
  forall log, exists msg,
    fst (try_except body (error_result rt) log) = inr (error_envelope msg).
Proof.
  intros Hb log. unfold try_except. specialize (Hb log).
  destruct (body log) as [[e | v] log1]; cbn [fst] in *.
  - now eexists.
  - destruct (Hb v eq_refl) as (msg & ->). now eexists.
Qed.

Lemma refuses_bind {A} (m : M A) (k : A -> M json) :
  (forall a, yields error_shape (k a)) -> yields error_shape (bind m k).
Proof.
  intros Hk log v. unfold bind.
  destruct (m log) as [[e | a] log1]; cbn [fst]; [discriminate |].
  apply Hk.
Qed.

Lemma stops_at_raise {A B} (e : exn) (k : A -> M B) :
  bind (pure (inl e)) k = pure (inl e).
Proof. reflexivity. Qed.

Lemma movie_data_needs_object (v q r : json) (m s : bool) :
  (forall d, v <> JDict d) ->
  exists e, movie_data v q r m s = inl e.
Proof.
  intros Hv. destruct v; try (eexists; reflexivity).
  exfalso. eapply Hv. reflexivity.
Qed.

End Early.

(** X28. When the lookup is answered with something that is no object,
    add_movie creates nothing: it returns the error object, and what it
    has sent are GET requests without a body (the lookup, and the
    defaults it fetched before it came to use the lookup result). *)
Theorem add_movie_needs_an_object :
  forall (rt : runtime) (movie_id : string) (quality_profile_id : option Z)
         (root_folder_path : option string) (monitored search_on_add : bool)
         (log : list request) (s1 : Z) (found : json),
    respond rt log
      (api rt "GET" ("movie/lookup/tmdb?tmdbId=" ++ movie_id) None)
    = Replies s1 found ->
    (forall d, found <> JDict d) ->
    exists (msg : string) (sent : list request),
      add_movie rt movie_id quality_profile_id root_folder_path
        monitored search_on_add log
      = (inr (error_envelope msg), (log ++ sent)%list)
      /\ Forall (fun rq => req_method rq = "GET" /\ req_json rq = None) sent.
Proof.
  intros rt movie_id qp rf mon soa log s1 found Hreply Hnot.
  set (lookup_rq := api rt "GET" ("movie/lookup/tmdb?tmdbId=" ++ movie_id) None).
  unfold add_movie.
  rewrite (handler_after rt _ _ found log (log ++ [lookup_rq])%list).
  2: { rewrite request_get.
       change (api rt "GET" (lstrip_slash ("movie/lookup/tmdb?tmdbId=" ++ movie_id))
                 None) with lookup_rq.
       unfold lookup_rq. now rewrite Hreply. }
  match goal with
  | |- context [try_except ?b _ _] => set (body := b)
  end.
  assert (Hrefuse : yields error_shape body).
  { subst body. destruct (truthy found); cbn [negb].
    2: { intros lg v [= <-]. now eexists. }
    apply refuses_bind; intros q. apply refuses_bind; intros r.
    destruct (movie_data_needs_object found q r mon soa Hnot) as (e & ->).
    intros lg v. discriminate. }
  assert (Hget : only_sends
                   (fun rq => req_method rq = "GET" /\ req_json rq = None) body).
  { subst body. destruct (truthy found); cbn [negb].
    2: { apply only_sends_ret. }
    apply only_sends_bind.
    { destruct qp; [apply only_sends_ret |].
      apply only_sends_bind; [| intros; apply only_sends_pure].
      apply only_sends_request; [cbn; auto | split; reflexivity]. }
    intros q. apply only_sends_bind.
    { destruct rf; [apply only_sends_ret |].
      apply only_sends_bind; [| intros; apply only_sends_pure].
      apply only_sends_request; [cbn; auto | split; reflexivity]. }
    intros r.
    destruct (movie_data_needs_object found q r mon soa Hnot) as (e & ->).
    rewrite stops_at_raise. apply only_sends_pure. }
  destruct (handler_refuses rt body Hrefuse (log ++ [lookup_rq])%list)
    as (msg & Hmsg).
  destruct (only_sends_handler rt _ body Hget (log ++ [lookup_rq])%list)
    as (sent & Hlog & Hsent).
  exists msg, (lookup_rq :: sent). split.
  - destruct (try_except body (error_result rt) (log ++ [lookup_rq])%list)
      as [r lg]. cbn [fst snd] in *. subst r lg.
    now rewrite <- app_assoc.
  - constructor; [split; reflexivity | exact Hsent].
Qed.

Lemma add_movie_needs_an_object_witness :
  exists (msg : string) (sent : list request),
    add_movie
      (sample_runtime (always (JList [JDict [("title", JStr "Alien")]])))
      "348" None None true true []
    = (inr (error_envelope msg), sent)
    /\ Forall (fun rq => req_method rq = "GET" /\ req_json rq = None) sent.
Proof.
  destruct (add_movie_needs_an_object
              (sample_runtime (always (JList [JDict [("title", JStr "Alien")]])))
              "348" None None true true [] 200
              (JList [JDict [("title", JStr "Alien")]]) eq_refl
              ltac:(discriminate))
    as (msg & sent & Hrun & Hsent).
  now exists msg, sent.
Defined.

(** X29. With no end date, get_calendar computes one from the start
    date before it sends anything: a start date in ASCII that [strptime]
    rejects, or one less than thirty days before the end of year 9999,
    gives the error object and no request.  (Digits outside ASCII, which
    [strptime] reads as well, are outside this statement.) *)
Theorem get_calendar_bad_start_sends_nothing :
  forall (rt : runtime) (start_date : string) (end_date : option string)
         (log : list request) (e : exn),
    start_date <> EmptyString ->
    is_ascii start_date = true ->
    truthy_str end_date = false ->
    strptime start_date = inl e
    \/ (exists d, strptime start_date = inr d /\ add_days 30 d = inl e) ->
    get_calendar rt (Some start_date) end_date log
    = (inr (error_envelope (str_exn rt e)), log).
Proof.
  intros rt start_date end_date log e Hstart _ Hend Hbad.
  assert (Hcomputed :
            bind_res (strptime start_date) (fun start =>
              bind_res (add_days 30 start) (fun end_dt =>
                ok (strftime end_dt))) = inl e).
  { destruct Hbad as [-> | (d & -> & Hadd)]; [reflexivity |].
    cbn [bind_res]. now rewrite Hadd. }
  unfold get_calendar.
  assert (Htext : truthy_str (Some start_date) = true).
  { cbn. destruct start_date; [now elim Hstart | reflexivity]. }
  rewrite Htext. cbv zeta.
  unfold bind at 1, pure at 1, try_except at 1.
  destruct end_date as [s |]; [rewrite Hend |]; now rewrite Hcomputed.
Qed.

Lemma get_calendar_bad_start_sends_nothing_witness :
  get_calendar (sample_runtime (always (JList []))) (Some "9999-12-15") None []
  = (inr (error_envelope "error"), []).
Proof.
  apply (get_calendar_bad_start_sends_nothing
           (sample_runtime (always (JList []))) "9999-12-15" None []
           (Builtin DateOutOfRange)).
  - discriminate.
  - reflexivity.
  - reflexivity.
  - right. exists {| year := 9999; month := 12; day := 15 |}.
    split; reflexivity.
Defined.
